(** * dbcollection: the cache registry and the dataset loader

    A shallow embedding of [dbcollection/cache.py] (class [CacheManager])
    and [dbcollection/utils/loader.py] (class [DatasetLoader]).

    Python objects are modelled by value: a [dict] is an association list
    in insertion order with string keys, an exception is a constructor of
    [exn], and a method is a function from the world (the manager object
    and the disk) to an outcome and the world it leaves behind.  A raised
    exception keeps the mutations made before it, as in Python. *)

From Stdlib Require Import String Ascii List ZArith Bool Lia.
From Stdlib Require Import DecimalString DecimalZ DecimalPos DecimalFacts.
Import ListNotations.
Local Open Scope string_scope.
Local Open Scope list_scope.

(* ================================================================== *)
(** * Part I: definitions *)
(* ================================================================== *)

(** ** Python values, exceptions and dictionaries *)

Module Py.

(** The exceptions the two classes can raise or let through.
    [KeyError None] is the lookup of the key [None]; [Exception] is the
    [raise Exception(msg)] of [get_dataset_data]. *)
Inductive exn : Type :=
| KeyError (key : option string)
| AttributeError (attr : string)
| TypeError
| ValueError (msg : string)
| IndexError
| OSError (errno : Z)
| IOError (errno : Z)
| UnicodeEncodeError
| UnicodeDecodeError
| Exception (msg : string).

Inductive result (A : Type) : Type :=
| Ok (a : A)
| Raise (e : exn).
Arguments Ok {A} a.
Arguments Raise {A} e.

Definition ENOENT : Z := 2.
Definition ENOTDIR : Z := 20.
Definition EISDIR : Z := 21.

(** What [json.load] can produce (floats left out): the registry
    document and everything stored in it.  A text is kept as the bytes
    of its UTF-8; a lone surrogate, which Python allows in a text, as
    the three bytes the same scheme gives it. *)
#[warnings="-register-all"]
Inductive pyval : Type :=
| PNone
| PBool (b : bool)
| PInt (z : Z)
| PStr (s : string)
| PList (l : list pyval)
| PDict (d : list (string * pyval)).

Section Dict.
Context {V : Type}.

(** [d[k]], as an option. *)
Fixpoint dict_get (k : string) (d : list (string * V)) : option V :=
  match d with
  | [] => None
  | (k', v) :: d' => if String.eqb k k' then Some v else dict_get k d'
  end.

(** [d[k] = v]: replaces in place, or appends a new key at the end. *)
Fixpoint dict_set (k : string) (v : V) (d : list (string * V))
  : list (string * V) :=
  match d with
  | [] => [(k, v)]
  | (k', v') :: d' =>
      if String.eqb k k' then (k, v) :: d' else (k', v') :: dict_set k v d'
  end.

(** [d.pop(k)] on a present key: the dictionary without it. *)
Fixpoint dict_pop (k : string) (d : list (string * V))
  : list (string * V) :=
  match d with
  | [] => []
  | (k', v') :: d' =>
      if String.eqb k k' then d' else (k', v') :: dict_pop k d'
  end.

Definition dict_keys (d : list (string * V)) : list string := map fst d.

(** [d1.update(d2)]: the items of [d2] are stored one by one. *)
Definition dict_update (d1 d2 : list (string * V)) : list (string * V) :=
  fold_left (fun acc kv => dict_set (fst kv) (snd kv) acc) d2 d1.
End Dict.

(** [k in ks] on a list of keys. *)
Definition mem (k : string) (ks : list string) : bool :=
  existsb (String.eqb k) ks.

(** [v[k]] with a string key. *)
Definition getitem (v : pyval) (k : string) : result pyval :=
  match v with
  | PDict d =>
      match dict_get k d with
      | Some x => Ok x
      | None => Raise (KeyError (Some k))
      end
  | _ => Raise TypeError
  end.

(** [v[k]] where [k] is what [get_category] returned: a category name or
    [None].  Every key of a dictionary is a string here, so the key
    [None] is never found. *)
Definition getitem_opt (v : pyval) (k : option string) : result pyval :=
  match k with
  | Some c => getitem v c
  | None =>
      match v with
      | PDict _ => Raise (KeyError None)
      | _ => Raise TypeError
      end
  end.

(** [v.keys()] *)
Definition keys (v : pyval) : result (list string) :=
  match v with
  | PDict d => Ok (dict_keys d)
  | _ => Raise (AttributeError "keys")
  end.

(** [v[k] = x] *)
Definition setitem (v : pyval) (k : string) (x : pyval) : result pyval :=
  match v with
  | PDict d => Ok (PDict (dict_set k x d))
  | _ => Raise TypeError
  end.

(** [v.pop(k)] *)
Definition pop (v : pyval) (k : string) : result pyval :=
  match v with
  | PDict d =>
      match dict_get k d with
      | Some _ => Ok (PDict (dict_pop k d))
      | None => Raise (KeyError (Some k))
      end
  | _ => Raise (AttributeError "pop")
  end.

Fixpoint distinct (ks : list string) : bool :=
  match ks with
  | [] => true
  | k :: rest => negb (mem k rest) && distinct rest
  end.

(** A value of Python: no dictionary in it has a key twice. *)
Fixpoint well_keyed (v : pyval) : bool :=
  match v with
  | PList l => forallb well_keyed l
  | PDict d =>
      distinct (dict_keys d) && forallb (fun kv => well_keyed (snd kv)) d
  | _ => true
  end.

Fixpoint is_substring (sub s : string) : bool :=
  String.prefix sub s
  || match s with
     | EmptyString => false
     | String _ s' => is_substring sub s'
     end.

(** [k in v] for a string [k]: key of a dict, element of a list,
    substring of a string; a [TypeError] on anything else. *)
Definition contains (v : pyval) (k : string) : result bool :=
  match v with
  | PDict d => Ok (mem k (dict_keys d))
  | PList l =>
      Ok (existsb (fun x => match x with
                            | PStr s => String.eqb s k
                            | _ => false
                            end) l)
  | PStr s => Ok (is_substring k s)
  | _ => Raise TypeError
  end.

End Py.
Import Py.

(** ** [os.path.join] and the disk *)

Module Posix.

Definition startswith_sep (s : string) : bool := String.prefix "/" s.

Fixpoint endswith_sep (s : string) : bool :=
  match s with
  | EmptyString => false
  | String c EmptyString => Ascii.eqb c "/"
  | String _ s' => endswith_sep s'
  end.

(** One round of the loop of [posixpath.join]: an absolute component
    replaces what was joined so far. *)
Definition join2 (path b : string) : string :=
  if startswith_sep b then b
  else if String.eqb path "" || endswith_sep path then path ++ b
  else path ++ "/" ++ b.

Definition path_join (a : string) (p : list string) : string :=
  fold_left join2 p a.

(** [p], with a separator after it unless it is empty or ends in one. *)
Definition with_sep (p : string) : string :=
  if String.eqb p "" || endswith_sep p then p else p ++ "/".

(** [posixpath.dirname]: what is before the last separator, without the
    separators at its end unless it has nothing else. *)
Fixpoint all_sep (s : string) : bool :=
  match s with
  | EmptyString => true
  | String c s' => Ascii.eqb c "/" && all_sep s'
  end.

Fixpoint drop_basename (reversed : list ascii) : list ascii :=
  match reversed with
  | [] => []
  | c :: rest => if Ascii.eqb c "/" then reversed else drop_basename rest
  end.

Fixpoint drop_seps (reversed : list ascii) : list ascii :=
  match reversed with
  | c :: rest => if Ascii.eqb c "/" then drop_seps rest else reversed
  | [] => []
  end.

Definition dirname (p : string) : string :=
  let head := drop_basename (rev (list_ascii_of_string p)) in
  string_of_list_ascii
    (rev (match drop_seps head with
          | [] => head
          | stripped => stripped
          end)).

(** A path of the disk is a regular file with its bytes, or a directory.
    A path is looked up as it is spelled; the root and the working
    directory are directories that are always there.  Components [.]
    and [..], symbolic links and access rights are not modelled. *)
Inductive fsnode : Type :=
| File (content : string)
| Dir.

Definition filesystem : Type := list (string * fsnode).

(** Whether [d] can hold entries: it is a directory, a regular file is
    in the way, or it is missing. *)
Inductive dirstate : Type := IsDir | NotDir | Missing.

Fixpoint dir_state (fuel : nat) (fs : filesystem) (d : string) : dirstate :=
  if String.eqb d "" || all_sep d then IsDir
  else
    match dict_get d fs with
    | Some Dir => IsDir
    | Some (File _) => NotDir
    | None =>
        match fuel with
        | O => Missing
        | S fuel' =>
            match dir_state fuel' fs (dirname d) with
            | NotDir => NotDir
            | _ => Missing
            end
        end
    end.

(** What a path names: a node, or nothing, with the [errno] of the
    failed lookup ([ENOENT], or [ENOTDIR] below a regular file). *)
Inductive entry : Type :=
| Found (n : fsnode)
| Absent (errno : Z).

Definition stat (fs : filesystem) (p : string) : entry :=
  match dict_get p fs with
  | Some n => Found n
  | None =>
      if String.eqb p "" then Absent ENOENT
      else if all_sep p then Found Dir
      else
        match dir_state (String.length p) fs (dirname p) with
        | IsDir => if endswith_sep p then Found Dir else Absent ENOENT
        | NotDir => Absent ENOTDIR
        | Missing => Absent ENOENT
        end
  end.

(** [os.path.exists] *)
Definition path_exists (fs : filesystem) (p : string) : bool :=
  match stat fs p with Found _ => true | Absent _ => false end.

(** [open(p, 'r').read()], as bytes. *)
Definition read_file (fs : filesystem) (p : string) : result string :=
  match stat fs p with
  | Found (File c) => Ok c
  | Found Dir => Raise (IOError EISDIR)
  | Absent errno => Raise (IOError errno)
  end.

(** [open(p, 'w')]: truncates a regular file, or creates one in a
    directory that is there. *)
Definition open_for_writing (fs : filesystem) (p : string) : result unit :=
  match stat fs p with
  | Found (File _) => Ok tt
  | Found Dir => Raise (IOError EISDIR)
  | Absent _ =>
      if String.eqb p "" then Raise (IOError ENOENT)
      else
        let parent := if endswith_sep p then dirname (dirname p)
                      else dirname p in
        match dir_state (String.length p) fs parent with
        | IsDir => if endswith_sep p then Raise (IOError EISDIR) else Ok tt
        | NotDir => Raise (IOError ENOTDIR)
        | Missing => Raise (IOError ENOENT)
        end
  end.

(** [os.remove]: unlinks a regular file and refuses a directory. *)
Definition os_remove (fs : filesystem) (p : string) : result filesystem :=
  match stat fs p with
  | Found (File _) => Ok (dict_pop p fs)
  | Found Dir => Raise (OSError EISDIR)
  | Absent errno => Raise (OSError errno)
  end.

(** *** Text files

    A file opened in text mode holds the UTF-8 of what is written to
    it (Python 3, with UTF-8 as the preferred encoding).  The machine
    below accepts the bytes of a text without surrogates; its state is
    what the sequence under way still needs. *)
Inductive ustate : Type :=
| U0      (* between two characters *)
| U1      (* one continuation byte *)
| U2      (* two continuation bytes *)
| U3      (* three continuation bytes *)
| UE0     (* after E0: A0..BF, then one *)
| UED     (* after ED: 80..9F, then one; above that are the surrogates *)
| UF0     (* after F0: 90..BF, then two *)
| UF4.    (* after F4: 80..8F, then two *)

Definition between (lo hi n : nat) : bool := (lo <=? n)%nat && (n <=? hi)%nat.

Definition ustep (st : ustate) (c : ascii) : option ustate :=
  let n := nat_of_ascii c in
  match st with
  | U0 =>
      if (n <? 128)%nat then Some U0
      else if between 194 223 n then Some U1
      else if (n =? 224)%nat then Some UE0
      else if (n =? 237)%nat then Some UED
      else if between 225 239 n then Some U2
      else if (n =? 240)%nat then Some UF0
      else if between 241 243 n then Some U3
      else if (n =? 244)%nat then Some UF4
      else None
  | U1 => if between 128 191 n then Some U0 else None
  | U2 => if between 128 191 n then Some U1 else None
  | U3 => if between 128 191 n then Some U2 else None
  | UE0 => if between 160 191 n then Some U1 else None
  | UED => if between 128 159 n then Some U1 else None
  | UF0 => if between 144 191 n then Some U2 else None
  | UF4 => if between 128 143 n then Some U2 else None
  end.

Fixpoint urun (st : ustate) (s : string) : option ustate :=
  match s with
  | EmptyString => Some st
  | String c s' =>
      match ustep st c with
      | Some st' => urun st' s'
      | None => None
      end
  end.

(** The bytes are the UTF-8 of a text: [s.encode()] returns on the
    text, [bytes.decode()] on the bytes. *)
Definition utf8_valid (s : string) : bool :=
  match urun U0 s with
  | Some U0 => true
  | _ => false
  end.

(** The calls [f.write(chunk)] in order: each chunk is encoded when it
    is written, so what reaches the file is the chunks before the
    first one with a surrogate in it.  The text, and whether it is
    complete. *)
Fixpoint encode_chunks (chunks : list string) : string * bool :=
  match chunks with
  | [] => (EmptyString, true)
  | chunk :: rest =>
      if utf8_valid chunk
      then let (text, complete) := encode_chunks rest in
           ((chunk ++ text)%string, complete)
      else (EmptyString, false)
  end.

(** The components of a path, split at ['/']; empty ones are dropped. *)
Fixpoint split_path_aux (s cur : string) : list string :=
  match s with
  | EmptyString => [cur]
  | String c s' =>
      if Ascii.eqb c "/" then cur :: split_path_aux s' ""
      else split_path_aux s' (cur ++ String c "")
  end.

Definition split_path (path : string) : list string :=
  filter (fun seg => negb (String.eqb seg "")) (split_path_aux path "").

(** A single path component: not empty, no separator in it. *)
Fixpoint no_sep (s : string) : bool :=
  match s with
  | EmptyString => true
  | String c s' => negb (Ascii.eqb c "/") && no_sep s'
  end.

Definition plain_segment (s : string) : bool :=
  negb (String.eqb s "") && no_sep s.

End Posix.
Import Posix.

(** ** The cache manager ([dbcollection/cache.py]) *)

Module Cache.

(** [json.dump(.., ensure_ascii=False)] and [json.load] belong to the
    Python library: the manager is written against this interface.
    [json_chunks] are the pieces that [json.dump] passes to [f.write],
    [json_load] is [json.load] on the bytes of a file. *)
Class JsonCodec : Type := {
  json_chunks : pyval -> list string;
  json_load : string -> result pyval
}.

(** The text that [json.dump] writes. *)
Definition json_dump {codec : JsonCodec} (d : pyval) : string :=
  String.concat "" (json_chunks d).

(** The attributes of a [CacheManager] object. *)
Record CacheManager : Type := {
  cache_dir : string;
  cache_fname : string;
  default_cache_dir : string;
  default_data_dir : string;
  data : pyval
}.

(** What a method can read and change: the object and the disk. *)
Record world : Type := {
  self : CacheManager;
  disk : filesystem
}.

Definition with_data (w : world) (d : pyval) : world :=
  {| self := {| cache_dir := cache_dir (self w);
                cache_fname := cache_fname (self w);
                default_cache_dir := default_cache_dir (self w);
                default_data_dir := default_data_dir (self w);
                data := d |};
     disk := disk w |}.

Definition with_disk (w : world) (fs : filesystem) : world :=
  {| self := self w; disk := fs |}.

(** A method body: an outcome and the world after it.  The world after a
    [Raise] holds whatever was mutated before the exception. *)
Definition M (A : Type) : Type := world -> result A * world.

Definition ret {A} (a : A) : M A := fun w => (Ok a, w).

Definition raise {A} (e : exn) : M A := fun w => (Raise e, w).

Definition bind {A B} (m : M A) (f : A -> M B) : M B :=
  fun w =>
    match m w with
    | (Ok a, w') => f a w'
    | (Raise e, w') => (Raise e, w')
    end.

(** [try: m  except ...: h e] *)
Definition catch {A} (m : M A) (h : exn -> M A) : M A :=
  fun w =>
    match m w with
    | (Ok a, w') => (Ok a, w')
    | (Raise e, w') => h e w'
    end.

(** An expression that only computes a value or raises. *)
Definition lift {A} (r : result A) : M A := fun w => (r, w).

Declare Scope py_scope.
Delimit Scope py_scope with py.
Notation "x <- m ;; k" := (bind m (fun x => k))
  (at level 61, m at next level, right associativity) : py_scope.
Notation "m ;; k" := (bind m (fun _ => k))
  (at level 61, right associativity) : py_scope.
Local Open Scope py_scope.

(** [self.data] *)
Definition get_data : M pyval := fun w => (Ok (data (self w)), w).

(** [self.data = d], and every in-place change of the document. *)
Definition set_data (d : pyval) : M unit := fun w => (Ok tt, with_data w d).

Definition get_self : M CacheManager := fun w => (Ok (self w), w).

(** [os.path.exists(p)] *)
Definition os_path_exists (p : string) : M bool :=
  fun w => (Ok (path_exists (disk w) p), w).

(** [os.remove(p)]; a path that is not a string is a [TypeError]. *)
Definition os_remove_path (p : pyval) : M unit :=
  fun w =>
    match p with
    | PStr s =>
        match os_remove (disk w) s with
        | Ok fs => (Ok tt, with_disk w fs)
        | Raise e => (Raise e, w)
        end
    | _ => (Raise TypeError, w)
    end.

(** The object [self.data['dataset'][category]] becomes [v]: how an
    in-place change of a category shows in the document. *)
Definition store_category (category : string) (v : pyval) : M unit :=
  d <- get_data ;;
  ds <- lift (getitem d "dataset") ;;
  ds' <- lift (setitem ds category v) ;;
  d' <- lift (setitem d "dataset" ds') ;;
  set_data d'.

(** The same with the category as [get_category] returned it. *)
Definition store_category_opt (c : option string) (v : pyval) : M unit :=
  match c with
  | Some category => store_category category v
  | None => raise (KeyError None)
  end.

(** [setup_paths]: the four paths, from [os.path.expanduser("~")]. *)
Definition setup_paths (home : string) : CacheManager :=
  let cache_dir := home in
  let cache_fname := path_join cache_dir [".dbcollection.json"] in
  let default_cache_dir := path_join cache_dir ["dbcollection"] in
  {| cache_dir := cache_dir;
     cache_fname := cache_fname;
     default_cache_dir := default_cache_dir;
     default_data_dir := default_cache_dir;
     data := PNone |}.

Section Methods.
Context {codec : JsonCodec}.

Definition read_data_cache_file : M pyval :=
  catch
    (s <- get_self ;;
     text <- (fun w => (read_file (disk w) (cache_fname s), w)) ;;
     lift (json_load text))
    (fun e => raise e).

Definition empty_data : M pyval :=
  s <- get_self ;;
  ret (PDict [("info", PDict [("default_cache_dir", PStr (default_cache_dir s));
                              ("default_data_dir", PStr (default_data_dir s))]);
              ("dataset", PDict [])]).

Definition read_data_cache : M pyval :=
  s <- get_self ;;
  present <- os_path_exists (cache_fname s) ;;
  if present then read_data_cache_file else empty_data.

(** [fname or self.cache_fname]: [None] and the empty string both
    select the manager's own file.  The [with] block closes the file
    with what was written, also when [json.dump] raises. *)
Definition write_data_cache (d : pyval) (fname : option string) : M unit :=
  s <- get_self ;;
  let filename :=
    match fname with
    | Some f => if String.eqb f "" then cache_fname s else f
    | None => cache_fname s
    end in
  catch
    (fun w =>
       match open_for_writing (disk w) filename with
       | Raise e => (Raise e, w)
       | Ok _ =>
           let (text, complete) := encode_chunks (json_chunks d) in
           (if complete then Ok tt else Raise UnicodeEncodeError,
            with_disk w (dict_set filename (File text) (disk w)))
       end)
    (fun e => raise e).

Definition create_cache_file_disk (fname : option string) : M unit :=
  d <- empty_data ;;
  write_data_cache d fname.

(** The [for] loop of [get_category] over the category names. *)
Fixpoint get_category_loop (name : string) (categories : list string)
  : M (option string) :=
  match categories with
  | [] => ret None
  | category :: rest =>
      d <- get_data ;;
      ds <- lift (getitem d "dataset") ;;
      v <- lift (getitem ds category) ;;
      ks <- lift (keys v) ;;
      if mem name ks then ret (Some category)
      else get_category_loop name rest
  end.

Definition get_category (name : string) : M (option string) :=
  d <- get_data ;;
  ds <- lift (getitem d "dataset") ;;
  categories <- lift (keys ds) ;;
  get_category_loop name categories.

(** [self.data['dataset'][self.get_category(name)]], with the category. *)
Definition category_of (name : string) : M (option string * pyval) :=
  d <- get_data ;;
  ds <- lift (getitem d "dataset") ;;
  c <- get_category name ;;
  v <- lift (getitem_opt ds c) ;;
  ret (c, v).

Definition delete_dataset_cache (name : string) : M unit :=
  cv <- category_of name ;;
  r <- lift (getitem (snd cv) name) ;;
  cache_dir_path <- lift (getitem r "cache_dir") ;;
  catch (os_remove_path cache_dir_path)
        (fun e => match e with
                  | OSError errno =>
                      if negb (Z.eqb errno ENOENT) then raise e else ret tt
                  | _ => raise e
                  end) ;;
  cv' <- category_of name ;;
  v' <- lift (pop (snd cv') name) ;;
  store_category_opt (fst cv') v' ;;
  d <- get_data ;;
  write_data_cache d None.

Definition check_dataset_name (name : string) : M bool :=
  catch
    (d <- get_data ;;
     ds <- lift (getitem d "dataset") ;;
     ks <- lift (keys ds) ;;
     ret (mem name ks))
    (fun e => match e with KeyError _ => ret false | _ => raise e end).

Definition get_data_from_field (name field : string) : M pyval :=
  catch
    (cv <- category_of name ;;
     r <- lift (getitem (snd cv) name) ;;
     lift (getitem r field))
    (fun e => raise e).

(** [self.data['dataset'][category][name][field] = val].  Dictionaries
    are values here: the assignment shows under this name only, also
    when the caller of [add_data] stored one record object under two
    names. *)
Definition change_field (name field : string) (val : pyval) : M unit :=
  catch
    (cv <- category_of name ;;
     r <- lift (getitem (snd cv) name) ;;
     r' <- lift (setitem r field val) ;;
     v' <- lift (setitem (snd cv) name r') ;;
     store_category_opt (fst cv) v')
    (fun e => raise e).

(** [cache_files.update(arg)] on the old record's dictionary.  The
    attribute [update] is looked up before the argument is evaluated.
    [py_update] covers an argument that is a dictionary; Python also
    takes an iterable of pairs, which is refused here. *)
Definition has_update (cache_files : pyval) : result unit :=
  match cache_files with
  | PDict _ => Ok tt
  | _ => Raise (AttributeError "update")
  end.

Definition py_update (cache_files arg : pyval) : result pyval :=
  match cache_files, arg with
  | PDict old, PDict new => Ok (PDict (dict_update old new))
  | _, _ => Raise TypeError
  end.

Definition add_data (category name : string) (new_info : pyval) : M unit :=
  d <- get_data ;;
  ds <- lift (getitem d "dataset") ;;
  categories <- lift (keys ds) ;;
  new_info' <-
    (if mem category categories then
       v <- lift (getitem ds category) ;;
       names <- lift (keys v) ;;
       if mem name names then
         old_info <- lift (getitem v name) ;;
         cache_files <- lift (getitem old_info "cached_files") ;;
         lift (has_update cache_files) ;;
         arg <- lift (getitem new_info "cached_files") ;;
         merged <- lift (py_update cache_files arg) ;;
         (* the old dictionary was changed in place *)
         old_info' <- lift (setitem old_info "cached_files" merged) ;;
         v' <- lift (setitem v name old_info') ;;
         store_category category v' ;;
         lift (setitem new_info "cached_files" merged)
       else ret new_info
     else
       store_category category (PDict []) ;;
       ret new_info) ;;
  d1 <- get_data ;;
  ds1 <- lift (getitem d1 "dataset") ;;
  v1 <- lift (getitem ds1 category) ;;
  v1' <- lift (setitem v1 name new_info') ;;
  store_category category v1'.

Definition exists_dataset (name : string) : M bool :=
  catch
    (cv <- category_of name ;;
     lift (contains (snd cv) name))
    (fun e => match e with KeyError _ => ret false | _ => raise e end).

Definition exists_ (name task : string) : M bool :=
  catch
    (cv <- category_of name ;;
     r <- lift (getitem (snd cv) name) ;;
     files <- lift (getitem r "cache_files") ;;
     lift (contains files task))
    (fun e => match e with KeyError _ => ret false | _ => raise e end).

Definition get_dataset_storage_paths (name : string) : M pyval :=
  registered <- exists_dataset name ;;
  if registered then
    c <- get_data_from_field name "cache_dir" ;;
    dd <- get_data_from_field name "data_dir" ;;
    ret (PDict [("cache_dir", c); ("data_dir", dd)])
  else
    s <- get_self ;;
    ret (PDict
           [("cache_dir", PStr (path_join (default_cache_dir s) [name; "cache"]));
            ("data_dir", PStr (path_join (default_data_dir s) [name; "data"]))]).

Definition delete_dataset (name : string) (delete_data : bool) : M unit :=
  dset_paths <- get_dataset_storage_paths name ;;
  delete_dataset_cache name ;;
  if delete_data then
    catch (p <- lift (getitem dset_paths "data_dir") ;; os_remove_path p)
          (fun e => match e with
                    | OSError errno =>
                        if negb (Z.eqb errno ENOENT) then raise e else ret tt
                    | _ => raise e
                    end)
  else ret tt.

Definition get_dataset_data (name : string) : M pyval :=
  catch
    (cv <- category_of name ;;
     lift (getitem (snd cv) name))
    (fun e => match e with
              | KeyError _ =>
                  raise (Exception
                           ("Dataset " ++ name
                              ++ " does not exist in the cache file."))
              | _ => raise e
              end).

Definition get_cache_path (name task : string) : M pyval :=
  cache_data <- get_dataset_data name ;;
  files <- lift (getitem cache_data "cache_files") ;;
  lift (getitem files task).

Definition update (name category : string)
           (data_dir cache_dir cache_info : pyval) : M unit :=
  let new_info_dict :=
    PDict [("data_dir", data_dir);
           ("cache_dir", cache_dir);
           ("cache_files", cache_info)] in
  add_data category name new_info_dict ;;
  d <- get_data ;;
  write_data_cache d None.

(** [CacheManager()]: the constructor, given the home directory and the
    disk; it returns the new object and the disk it leaves. *)
Definition init (home : string) (fs : filesystem) : result unit * world :=
  let w0 := {| self := setup_paths home; disk := fs |} in
  (present <- os_path_exists (cache_fname (setup_paths home)) ;;
   (if negb present
    then create_cache_file_disk (Some (cache_fname (setup_paths home)))
    else ret tt) ;;
   d <- read_data_cache ;;
   set_data d) w0.
End Methods.

(** *** The registry document, as the statements speak of it *)

(** The mapping under ["dataset"], when the document has one. *)
Definition dataset_of (d : pyval) : option (list (string * pyval)) :=
  match d with
  | PDict top =>
      match dict_get "dataset" top with
      | Some (PDict ds) => Some ds
      | _ => None
      end
  | _ => None
  end.

(** The datasets of one category. *)
Definition names_of (ds : list (string * pyval)) (category : string)
  : option (list (string * pyval)) :=
  match dict_get category ds with
  | Some (PDict m) => Some m
  | _ => None
  end.

Definition in_cat (ds : list (string * pyval)) (category name : string) : bool :=
  match names_of ds category with
  | Some m => mem name (dict_keys m)
  | None => false
  end.

(** [name] has a record under [category]. *)
Definition in_category (d : pyval) (category name : string) : bool :=
  match dataset_of d with
  | Some ds => in_cat ds category name
  | None => false
  end.

(** [name] has a record under some category. *)
Definition registered (d : pyval) (name : string) : bool :=
  match dataset_of d with
  | Some ds => existsb (fun c => in_cat ds c name) (dict_keys ds)
  | None => false
  end.

(** The record of [name] under [category]. *)
Definition record_of (d : pyval) (category name : string) : option pyval :=
  match dataset_of d with
  | Some ds =>
      match names_of ds category with
      | Some m => dict_get name m
      | None => None
      end
  | None => None
  end.

(** The first category that holds [name], as [get_category] finds it. *)
Definition first_category (ds : list (string * pyval)) (name : string)
  : option string :=
  find (fun c => in_cat ds c name) (dict_keys ds).

Definition is_dict (v : pyval) : bool :=
  match v with PDict _ => true | _ => false end.

(** A registry document: ["dataset"] maps every category to a mapping
    from dataset names to records, and a record is a mapping. *)
Definition wf_registry (d : pyval) : bool :=
  match dataset_of d with
  | Some ds =>
      forallb (fun cv =>
                 match snd cv with
                 | PDict m => forallb (fun nr => is_dict (snd nr)) m
                 | _ => false
                 end) ds
  | None => false
  end.

(** No dataset name under two categories. *)
Definition unique_names (d : pyval) : Prop :=
  forall c1 c2 name,
    in_category d c1 name = true -> in_category d c2 name = true -> c1 = c2.

(** Every name sits under the category [cat_of] gives it. *)
Definition sorted_by (cat_of : string -> string) (d : pyval) : Prop :=
  forall c n, in_category d c n = true -> c = cat_of n.

(** The document after [self.data['dataset'][category][name] = r]. *)
Definition insert_record (d : pyval) (category name : string) (r : pyval)
  : pyval :=
  match d with
  | PDict top =>
      match dict_get "dataset" top with
      | Some (PDict ds) =>
          let m := match names_of ds category with
                   | Some m => m
                   | None => []
                   end in
          PDict (dict_set "dataset"
                   (PDict (dict_set category (PDict (dict_set name r m)) ds))
                   top)
      | _ => d
      end
  | _ => d
  end.

(** The document after [self.data['dataset'][category].pop(name)]. *)
Definition remove_record (d : pyval) (category name : string) : pyval :=
  match d with
  | PDict top =>
      match dict_get "dataset" top with
      | Some (PDict ds) =>
          match names_of ds category with
          | Some m =>
              PDict (dict_set "dataset"
                       (PDict (dict_set category (PDict (dict_pop name m)) ds))
                       top)
          | None => d
          end
      | _ => d
      end
  | _ => d
  end.

(** The outcome of [os.remove] that [delete_dataset] goes on after: it
    returned, or raised [OSError] with [ENOENT]. *)
Definition let_pass (r : result filesystem) : bool :=
  match r with
  | Ok _ => true
  | Raise (OSError errno) => Z.eqb errno ENOENT
  | Raise _ => false
  end.

(** The arguments of one call of [update]. *)
Record upsert_call : Type := {
  u_name : string;
  u_category : string;
  u_data_dir : pyval;
  u_cache_dir : pyval;
  u_cache_files : pyval
}.

Section Runs.
Context {codec : JsonCodec}.

Definition call_update (u : upsert_call) : M unit :=
  update (u_name u) (u_category u)
         (u_data_dir u) (u_cache_dir u) (u_cache_files u).

(** The calls in order, each on the world the one before left, whether
    it returned or raised. *)
Fixpoint run_updates (calls : list upsert_call) (w : world) : world :=
  match calls with
  | [] => w
  | u :: rest => run_updates rest (snd (call_update u w))
  end.
End Runs.

End Cache.

(** ** The dataset loader ([dbcollection/utils/loader.py]) *)

Module Loader.

Definition rbind {A B} (r : result A) (f : A -> result B) : result B :=
  match r with
  | Ok a => f a
  | Raise e => Raise e
  end.

Declare Scope result_scope.
Notation "x <- r ;; k" := (rbind r (fun x => k))
  (at level 61, r at next level, right associativity) : result_scope.
Local Open Scope result_scope.
Local Open Scope string_scope.

(** The content of an HDF5 dataset, and what indexing it gives: a number,
    a text, or an array of such. *)
#[warnings="-register-all"]
Inductive ndarray : Type :=
| NInt (z : Z)
| NStr (s : string)
| NArr (l : list ndarray).

(** A member of the container: a group with named members, or a dataset. *)
#[warnings="-register-all"]
Inductive h5node : Type :=
| H5Group (members : list (string * h5node))
| H5Dataset (a : ndarray).

(** What [object] returns: an array as stored, or a Python list. *)
#[warnings="-register-all"]
Inductive lval : Type :=
| LArr (a : ndarray)
| LList (l : list lval).

(** The [idx] argument: an integer or a list of integers. *)
Inductive pyidx : Type :=
| IdxInt (i : Z)
| IdxList (l : list Z).

(** [group[path]]: one member per component; a missing member is a
    [KeyError]. *)
Fixpoint h5_walk (node : h5node) (segs : list string) : result h5node :=
  match segs with
  | [] => Ok node
  | seg :: rest =>
      match node with
      | H5Group members =>
          match dict_get seg members with
          | Some n => h5_walk n rest
          | None => Raise (KeyError (Some seg))
          end
      | H5Dataset _ => Raise (KeyError (Some seg))
      end
  end.

(** An integer index on an axis of length [len]: a negative one counts
    from the end; anything outside is refused. *)
Definition translate_index (len : nat) (i : Z) : option nat :=
  let i' := if (i <? 0)%Z then (Z.of_nat len + i)%Z else i in
  if ((0 <=? i') && (i' <? Z.of_nat len))%Z then Some (Z.to_nat i') else None.

(** [a[i]] on an array. *)
Definition array_index (a : ndarray) (i : Z) : result ndarray :=
  match a with
  | NArr l =>
      match translate_index (length l) i with
      | Some n =>
          match nth_error l n with
          | Some x => Ok x
          | None => Raise IndexError
          end
      | None => Raise IndexError
      end
  | _ => Raise IndexError
  end.

(** An array element used as an index has to be an integer. *)
Definition as_index (x : ndarray) : result Z :=
  match x with
  | NInt z => Ok z
  | _ => Raise TypeError
  end.

(** [dataset[i]] with an integer [i]. *)
Definition dataset_at (node : h5node) (i : Z) : result ndarray :=
  match node with
  | H5Dataset a => array_index a i
  | H5Group _ => Raise TypeError
  end.

Fixpoint increasing (l : list Z) : bool :=
  match l with
  | a :: ((b :: _) as rest) => (a <? b)%Z && increasing rest
  | _ => true
  end.

Fixpoint index_all (a : ndarray) (l : list Z) : result (list ndarray) :=
  match l with
  | [] => Ok []
  | i :: rest =>
      x <- array_index a i ;;
      xs <- index_all a rest ;;
      Ok (x :: xs)
  end.

(** The number of rows of an array. *)
Definition rows_of (a : ndarray) : nat :=
  match a with
  | NArr l => length l
  | _ => O
  end.

(** An index counted from the start of an axis of length [len]. *)
Definition from_start (len : nat) (i : Z) : Z :=
  if (i <? 0)%Z then (Z.of_nat len + i)%Z else i.

(** [dataset[idx]]: an integer selects one row; a list selects the rows
    it names.  Every entry of the list has to be in range, and the
    entries, counted from the start, have to be in increasing order. *)
Definition dataset_index (node : h5node) (idx : pyidx) : result ndarray :=
  match idx with
  | IdxInt i => dataset_at node i
  | IdxList l =>
      match node with
      | H5Dataset a =>
          rows <- index_all a l ;;
          if increasing (map (from_start (rows_of a)) l) then Ok (NArr rows)
          else Raise TypeError
      | H5Group _ => Raise TypeError
      end
  end.

(** [dataset.value] *)
Definition value (node : h5node) : result ndarray :=
  match node with
  | H5Dataset a => Ok a
  | H5Group _ => Raise (AttributeError "value")
  end.

(** [dataset.shape], read off the rows: an array without rows is taken
    to have one dimension. *)
Fixpoint shape (a : ndarray) : list Z :=
  match a with
  | NArr l =>
      Z.of_nat (length l) :: match l with
                             | x :: _ => shape x
                             | [] => []
                             end
  | _ => []
  end.

(** The attributes of a [DatasetLoader] object.  [object_fields] is
    [None] while the attribute has never been assigned. *)
Record DatasetLoader : Type := {
  name : string;
  task : string;
  data_dir : string;
  cache_path : string;
  file : list (string * h5node);
  root_path : string;
  sets : list string;
  object_fields : option (list string)
}.

(** [self.file[path]] *)
Definition file_getitem (ld : DatasetLoader) (path : string) : result h5node :=
  h5_walk (H5Group (file ld)) (split_path path).

(** [self.object_fields] *)
Definition get_object_fields (ld : DatasetLoader) : result (list string) :=
  match object_fields ld with
  | Some fields => Ok fields
  | None => Raise (AttributeError "object_fields")
  end.

Definition get (ld : DatasetLoader) (set_name field_name : string)
           (idx : option pyidx) : result ndarray :=
  let field_path := root_path ld ++ set_name ++ "/" ++ field_name in
  node <- file_getitem ld field_path ;;
  match idx with
  | None => value node
  | Some i => dataset_index node i
  end.

(** The inner loop of [object]: for the [i]-th field name, the element
    of that field at position [ids[i]]. *)
Fixpoint object_data (ld : DatasetLoader) (dir_path : string)
         (ids : ndarray) (i : nat) (fields : list string)
  : result (list ndarray) :=
  match fields with
  | [] => Ok []
  | field_name :: rest =>
      node <- file_getitem ld (dir_path ++ field_name) ;;
      id <- array_index ids (Z.of_nat i) ;;
      pos <- as_index id ;;
      x <- dataset_at node pos ;;
      data <- object_data ld dir_path ids (S i) rest ;;
      Ok (x :: data)
  end.

(** The outer loop of [object]: one [data] list per requested index. *)
Fixpoint object_output (ld : DatasetLoader) (dir_path field_path : string)
         (fields : list string) (idx : list Z)
  : result (list (list ndarray)) :=
  match idx with
  | [] => Ok []
  | idx_ :: rest =>
      node <- file_getitem ld field_path ;;
      ids <- dataset_at node idx_ ;;
      data <- object_data ld dir_path ids 0 fields ;;
      output <- object_output ld dir_path field_path fields rest ;;
      Ok (data :: output)
  end.

Definition pylist (data : list ndarray) : lval := LList (map LArr data).

Definition object (ld : DatasetLoader) (set_name : string) (idx : pyidx)
           (is_value : bool) : result lval :=
  let dir_path := root_path ld ++ set_name ++ "/" in
  let field_path := dir_path ++ "object_ids" in
  if negb is_value then
    node <- file_getitem ld field_path ;;
    a <- dataset_index node idx ;;
    Ok (LArr a)
  else
    let idx := match idx with
               | IdxList l => l
               | IdxInt i => [i]
               end in
    fields <- get_object_fields ld ;;
    output <- object_output ld dir_path field_path fields idx ;;
    if Nat.eqb (length idx) 1 then
      match output with
      | data :: _ => Ok (pylist data)
      | [] => Raise IndexError
      end
    else Ok (LList (map pylist output)).

(** What [size] returns: the whole shape as a list, or the number of
    rows. *)
Inductive size_result : Type :=
| FullShape (dims : list Z)
| Rows (n : Z).

Definition size (ld : DatasetLoader) (set_name : string)
           (field_name : option string) (full : bool) : result size_result :=
  let field :=
    match field_name with
    | Some f => if String.eqb f "" then "object_ids" else f
    | None => "object_ids"
    end in
  let field_path := root_path ld ++ set_name ++ "/" ++ field in
  node <- file_getitem ld field_path ;;
  a <- match node with
       | H5Dataset a => Ok a
       | H5Group _ => Raise (AttributeError "shape")
       end ;;
  if full then Ok (FullShape (shape a))
  else match shape a with
       | n :: _ => Ok (Rows n)
       | [] => Raise IndexError
       end.

Definition list_ (ld : DatasetLoader) (set_name : string)
  : result (list string) :=
  let field_path := root_path ld ++ set_name in
  node <- file_getitem ld field_path ;;
  match node with
  | H5Group members => Ok (dict_keys members)
  | H5Dataset _ => Raise (AttributeError "keys")
  end.

(** [fields.index(field_name)] *)
Fixpoint list_index (field_name : string) (fields : list string) : option nat :=
  match fields with
  | [] => None
  | f :: rest =>
      if String.eqb f field_name then Some 0
      else option_map S (list_index field_name rest)
  end.

Definition object_field_id (ld : DatasetLoader) (field_name : string)
  : result nat :=
  fields <- get_object_fields ld ;;
  match list_index field_name fields with
  | Some i => Ok i
  | None =>
      Raise (ValueError ("Field name '" ++ field_name ++ "' does not exist."))
  end.

Section Init.
(** [dbcollection.utils.string_ascii.convert_ascii_to_str]: the decoder
    of the stored field names, taken as given. *)
Variable convert_ascii_to_str : ndarray -> result (list string).

(** [DatasetLoader(name, task, data_dir, cache_path)], given the
    containers on disk by path. *)
Definition init (containers : list (string * list (string * h5node)))
           (name task data_dir cache_path : string) : result DatasetLoader :=
  file <- match dict_get cache_path containers with
          | Some f => Ok f
          | None => Raise (IOError ENOENT)
          end ;;
  let sets := dict_keys file in
  if mem "train" sets then
    node <- h5_walk (H5Group file) (split_path "default/train/object_fields") ;;
    a <- value node ;;
    fields <- convert_ascii_to_str a ;;
    Ok {| name := name; task := task; data_dir := data_dir;
          cache_path := cache_path; file := file; root_path := "default/";
          sets := sets; object_fields := Some fields |}
  else
    Ok {| name := name; task := task; data_dir := data_dir;
          cache_path := cache_path; file := file; root_path := "default/";
          sets := sets; object_fields := None |}.
End Init.

(** *** The layout of a set, as the statements speak of it *)

(** The array stored under a field of a set. *)
Definition column (ld : DatasetLoader) (dir_path field_name : string)
  : option (list ndarray) :=
  match file_getitem ld (dir_path ++ field_name) with
  | Ok (H5Dataset (NArr col)) => Some col
  | _ => None
  end.

(** A row of [object_ids] is valid for the field list: one integer per
    field, each a position of that field's array. *)
Fixpoint ids_in_range (ld : DatasetLoader) (dir_path : string)
         (fields : list string) (ids : list ndarray) : bool :=
  match fields with
  | [] => true
  | f :: fs =>
      match ids with
      | NInt pos :: rest =>
          match column ld dir_path f with
          | Some col =>
              (0 <=? pos)%Z && (pos <? Z.of_nat (length col))%Z
              && ids_in_range ld dir_path fs rest
          | None => false
          end
      | _ => false
      end
  end.

(** The tuple the specification describes for a row of ids: for each
    field name of the composite list, in order, the value of that
    field's array at the corresponding id. *)
Fixpoint spec_tuple (ld : DatasetLoader) (dir_path : string)
         (fields : list string) (ids : list ndarray)
  : option (list ndarray) :=
  match fields with
  | [] => Some []
  | f :: fs =>
      match ids with
      | NInt pos :: rest =>
          match column ld dir_path f with
          | Some col =>
              match nth_error col (Z.to_nat pos) with
              | Some x => option_map (cons x) (spec_tuple ld dir_path fs rest)
              | None => None
              end
          | None => None
          end
      | _ => None
      end
  end.

End Loader.

(** ** The JSON codec of the Python library

    [json.dump(.., ensure_ascii=False)] with its default separators,
    and [json.load] as the C scanner reads, over [null], booleans,
    integers, texts, arrays and objects.  Floats are outside [pyval]:
    the reader stops on one.  An error of the reader is a [ValueError]
    with the message of [JSONDecodeError], without the position.  The
    limits of the interpreter (the depth of the recursion, the number
    of digits of an integer) are not modelled. *)

Module Json.

Local Open Scope string_scope.

Definition dquote : ascii := ascii_of_nat 34.
Definition backslash : ascii := ascii_of_nat 92.

Definition err {A} (msg : string) : result A := Raise (ValueError msg).

(** *** [json.dump] *)

Definition hexdigit (n : nat) : ascii :=
  if (n <? 10)%nat then ascii_of_nat (48 + n) else ascii_of_nat (87 + n).

(** [ESCAPE_DCT]: what [encode_basestring] writes for one character. *)
Definition escape_char (c : ascii) : string :=
  let n := nat_of_ascii c in
  if Ascii.eqb c dquote then String backslash (String dquote "")
  else if Ascii.eqb c backslash then String backslash (String backslash "")
  else if (n =? 10)%nat then String backslash "n"
  else if (n =? 13)%nat then String backslash "r"
  else if (n =? 9)%nat then String backslash "t"
  else if (n =? 8)%nat then String backslash "b"
  else if (n =? 12)%nat then String backslash "f"
  else if (n <? 32)%nat then
    String backslash
      (String "u" (String "0" (String "0"
         (String (hexdigit (n / 16)) (String (hexdigit (n mod 16)) "")))))
  else String c "".

Fixpoint escape (s : string) : string :=
  match s with
  | EmptyString => EmptyString
  | String c s' => escape_char c ++ escape s'
  end.

Definition encode_basestring (s : string) : string :=
  String dquote (escape s ++ String dquote "").

Definition intstr (z : Z) : string := NilZero.string_of_int (Z.to_int z).

(** The values that [_iterencode] writes in one piece. *)
Definition scalar (o : pyval) : option string :=
  match o with
  | PStr s => Some (encode_basestring s)
  | PNone => Some "null"
  | PBool true => Some "true"
  | PBool false => Some "false"
  | PInt z => Some (intstr z)
  | PList _ | PDict _ => None
  end.

(** The loop of [_iterencode_list]: [buf] is ["["] before the first
    item and the separator before the others, and goes out with a
    scalar item. *)
Definition iterencode_items (enc : pyval -> list string)
  : string -> list pyval -> list string :=
  fix items (buf : string) (lst : list pyval) : list string :=
    match lst with
    | [] => ["]"]
    | value :: rest =>
        match scalar value with
        | Some text => (buf ++ text) :: items ", " rest
        | None => buf :: (enc value ++ items ", " rest)%list
        end
    end.

(** The loop of [_iterencode_dict]. *)
Definition iterencode_pairs (enc : pyval -> list string)
  : bool -> list (string * pyval) -> list string :=
  fix pairs (first : bool) (dct : list (string * pyval)) : list string :=
    match dct with
    | [] => ["}"]
    | (key, value) :: rest =>
        ((if first then [] else [", "])
           ++ encode_basestring key :: ": " :: enc value
           ++ pairs false rest)%list
    end.

(** The pieces that [json.dump] hands to [fp.write], in order. *)
Fixpoint iterencode (o : pyval) : list string :=
  match o with
  | PList [] => ["[]"]
  | PList lst => iterencode_items iterencode "[" lst
  | PDict [] => ["{}"]
  | PDict dct => "{" :: iterencode_pairs iterencode true dct
  | PStr s => [encode_basestring s]
  | PNone => ["null"]
  | PBool true => ["true"]
  | PBool false => ["false"]
  | PInt z => [intstr z]
  end.

(** The text as a whole. *)
Definition dump (o : pyval) : string := String.concat "" (iterencode o).

(** *** [json.load] *)

Definition is_ws (c : ascii) : bool :=
  Ascii.eqb c " " || Ascii.eqb c (ascii_of_nat 9)
  || Ascii.eqb c (ascii_of_nat 10) || Ascii.eqb c (ascii_of_nat 13).

Fixpoint skip_ws (s : string) : string :=
  match s with
  | String c s' => if is_ws c then skip_ws s' else s
  | EmptyString => EmptyString
  end.

Definition hexval (c : ascii) : option N :=
  let n := nat_of_ascii c in
  if between 48 57 n then Some (N.of_nat (n - 48))
  else if between 97 102 n then Some (N.of_nat (n - 87))
  else if between 65 70 n then Some (N.of_nat (n - 55))
  else None.

Definition hex4 (a b c d : ascii) : option N :=
  match hexval a, hexval b, hexval c, hexval d with
  | Some x, Some y, Some z, Some t => Some (((x * 16 + y) * 16 + z) * 16 + t)%N
  | _, _, _, _ => None
  end.

(** [chr(n)]: a text is kept as the bytes of its UTF-8, a surrogate
    included. *)
Definition chr (n : N) : string :=
  if (n <? 128)%N then String (ascii_of_N n) ""
  else if (n <? 2048)%N then
    String (ascii_of_N (192 + n / 64))
      (String (ascii_of_N (128 + n mod 64)) "")
  else if (n <? 65536)%N then
    String (ascii_of_N (224 + n / 4096))
      (String (ascii_of_N (128 + (n / 64) mod 64))
         (String (ascii_of_N (128 + n mod 64)) ""))
  else
    String (ascii_of_N (240 + n / 262144))
      (String (ascii_of_N (128 + (n / 4096) mod 64))
         (String (ascii_of_N (128 + (n / 64) mod 64))
            (String (ascii_of_N (128 + n mod 64)) ""))).

Definition is_high (n : N) : bool := ((55296 <=? n) && (n <=? 56319))%N.
Definition is_low (n : N) : bool := ((56320 <=? n) && (n <=? 57343))%N.
Definition join_surrogates (hi lo : N) : N :=
  (65536 + ((hi - 55296) * 1024 + (lo - 56320)))%N.

(** [BACKSLASH]: the one-letter escapes. *)
Definition unescape (c : ascii) : option ascii :=
  if Ascii.eqb c dquote then Some dquote
  else if Ascii.eqb c backslash then Some backslash
  else if Ascii.eqb c "/" then Some "/"%char
  else if Ascii.eqb c "b" then Some (ascii_of_nat 8)
  else if Ascii.eqb c "f" then Some (ascii_of_nat 12)
  else if Ascii.eqb c "n" then Some (ascii_of_nat 10)
  else if Ascii.eqb c "r" then Some (ascii_of_nat 13)
  else if Ascii.eqb c "t" then Some (ascii_of_nat 9)
  else None.

(** [scanstring], from the character after the opening quote: the text
    and what follows the closing quote.  [acc] is the text so far. *)
Fixpoint scanstring (s acc : string) : result (string * string) :=
  match s with
  | EmptyString => err "Unterminated string starting at"
  | String c s1 =>
      if Ascii.eqb c dquote then Ok (acc, s1)
      else if Ascii.eqb c backslash then
        match s1 with
        | EmptyString => err "Unterminated string starting at"
        | String e s2 =>
            if Ascii.eqb e "u" then
              match s2 with
              | String h1 (String h2 (String h3 (String h4 s6))) =>
                  match s6 with
                  | EmptyString => err "Invalid \uXXXX escape"
                  | String _ _ =>
                      match hex4 h1 h2 h3 h4 with
                      | None => err "Invalid \uXXXX escape"
                      | Some uni =>
                          if is_high uni then
                            match s6 with
                            | String b (String u (String g1 (String g2
                                (String g3 (String g4 ((String _ _) as s12)))))) =>
                                if Ascii.eqb b backslash && Ascii.eqb u "u"
                                then
                                  match hex4 g1 g2 g3 g4 with
                                  | None => err "Invalid \uXXXX escape"
                                  | Some uni2 =>
                                      if is_low uni2
                                      then scanstring s12
                                             (acc ++ chr (join_surrogates uni uni2))
                                      else scanstring s6 (acc ++ chr uni)
                                  end
                                else scanstring s6 (acc ++ chr uni)
                            | _ => scanstring s6 (acc ++ chr uni)
                            end
                          else scanstring s6 (acc ++ chr uni)
                      end
                  end
              | _ => err "Invalid \uXXXX escape"
              end
            else
              match unescape e with
              | Some ch => scanstring s2 (acc ++ String ch "")
              | None => err "Invalid \escape"
              end
        end
      else if (nat_of_ascii c <? 32)%nat then err "Invalid control character at"
      else scanstring s1 (acc ++ String c "")
  end.

Definition is_digit (c : ascii) : bool := between 48 57 (nat_of_ascii c).

Definition digit (c : ascii) (u : Decimal.uint) : Decimal.uint :=
  match nat_of_ascii c - 48 with
  | 0 => Decimal.D0 u | 1 => Decimal.D1 u | 2 => Decimal.D2 u
  | 3 => Decimal.D3 u | 4 => Decimal.D4 u | 5 => Decimal.D5 u
  | 6 => Decimal.D6 u | 7 => Decimal.D7 u | 8 => Decimal.D8 u
  | _ => Decimal.D9 u
  end%nat.

(** The digits at the head of [s], and the rest. *)
Fixpoint read_digits (s : string) : Decimal.uint * string :=
  match s with
  | String c s' =>
      if is_digit c
      then let (u, rest) := read_digits s' in (digit c u, rest)
      else (Decimal.Nil, s)
  | EmptyString => (Decimal.Nil, s)
  end.

(** A fraction or an exponent follows: the number is a float. *)
Definition float_follows (s : string) : bool :=
  match s with
  | String c (String d rest) =>
      (Ascii.eqb c "." && is_digit d)
      || ((Ascii.eqb c "e" || Ascii.eqb c "E")
          && (is_digit d
              || ((Ascii.eqb d "-" || Ascii.eqb d "+")
                  && match rest with
                     | String d' _ => is_digit d'
                     | EmptyString => false
                     end)))
  | _ => false
  end.

(** Floats are outside [pyval]: the reader stops on one. *)
Definition a_float {A} : result A := Raise (Exception "float").

(** [_match_number]: an optional sign, then [0] or a digit from 1 to 9
    and every digit after it. *)
Definition match_number (s : string) : result (pyval * string) :=
  let (negative, s1) :=
    match s with
    | String c s' => if Ascii.eqb c "-" then (true, s') else (false, s)
    | EmptyString => (false, s)
    end in
  match s1 with
  | EmptyString => err "Expecting value"
  | String c s2 =>
      if is_digit c then
        let (u, rest) :=
          if Ascii.eqb c "0" then (Decimal.D0 Decimal.Nil, s2)
          else read_digits s1 in
        if float_follows rest then a_float
        else Ok (PInt (Z.of_int (if negative then Decimal.Neg u
                                 else Decimal.Pos u)), rest)
      else err "Expecting value"
  end.

(** [s] without the prefix [word], when it starts with it. *)
Fixpoint expect (word s : string) : option string :=
  match word, s with
  | EmptyString, _ => Some s
  | String a word', String b s' =>
      if Ascii.eqb a b then expect word' s' else None
  | _, EmptyString => None
  end.

(** [scan_once] at the first character of a value, with the loops of
    [JSONArray] and [JSONObject].  Of two nested calls one takes a
    character off the text, so twice its length in fuel is never used
    up; the recursion limit of the interpreter is not modelled. *)
Fixpoint scan_once (fuel : nat) (s : string) : result (pyval * string) :=
  match fuel with
  | O => Raise (Exception "RecursionError")
  | S fuel' =>
      match s with
      | EmptyString => err "Expecting value"
      | String c s' =>
          if Ascii.eqb c dquote then
            match scanstring s' "" with
            | Ok (text, rest) => Ok (PStr text, rest)
            | Raise e => Raise e
            end
          else if Ascii.eqb c "{" then
            match expect "}" (skip_ws s') with
            | Some rest => Ok (PDict [], rest)
            | None =>
                match parse_members fuel' (skip_ws s') with
                | Ok (pairs, rest) => Ok (PDict (dict_update [] pairs), rest)
                | Raise e => Raise e
                end
            end
          else if Ascii.eqb c "[" then
            match expect "]" (skip_ws s') with
            | Some rest => Ok (PList [], rest)
            | None =>
                match parse_elements fuel' (skip_ws s') with
                | Ok (l, rest) => Ok (PList l, rest)
                | Raise e => Raise e
                end
            end
          else
            match expect "null" s, expect "true" s, expect "false" s with
            | Some rest, _, _ => Ok (PNone, rest)
            | _, Some rest, _ => Ok (PBool true, rest)
            | _, _, Some rest => Ok (PBool false, rest)
            | None, None, None =>
                match expect "NaN" s, expect "Infinity" s, expect "-Infinity" s with
                | None, None, None => match_number s
                | _, _, _ => a_float
                end
            end
      end
  end

with parse_elements (fuel : nat) (s : string) : result (list pyval * string) :=
  match fuel with
  | O => Raise (Exception "RecursionError")
  | S fuel' =>
      match scan_once fuel' s with
      | Raise e => Raise e
      | Ok (v, rest) =>
          match skip_ws rest with
          | String c rest1 =>
              if Ascii.eqb c "]" then Ok ([v], rest1)
              else if Ascii.eqb c "," then
                match parse_elements fuel' (skip_ws rest1) with
                | Ok (l, rest2) => Ok (v :: l, rest2)
                | Raise e => Raise e
                end
              else err "Expecting ',' delimiter"
          | EmptyString => err "Expecting ',' delimiter"
          end
      end
  end

with parse_members (fuel : nat) (s : string)
  : result (list (string * pyval) * string) :=
  match fuel with
  | O => Raise (Exception "RecursionError")
  | S fuel' =>
      match s with
      | String q s1 =>
          if Ascii.eqb q dquote then
            match scanstring s1 "" with
            | Raise e => Raise e
            | Ok (key, rest) =>
                match expect ":" (skip_ws rest) with
                | Some rest1 =>
                    match scan_once fuel' (skip_ws rest1) with
                    | Raise e => Raise e
                    | Ok (v, rest2) =>
                        match skip_ws rest2 with
                        | String c rest3 =>
                            if Ascii.eqb c "}" then Ok ([(key, v)], rest3)
                            else if Ascii.eqb c "," then
                              match parse_members fuel' (skip_ws rest3) with
                              | Ok (l, rest4) => Ok ((key, v) :: l, rest4)
                              | Raise e => Raise e
                              end
                            else err "Expecting ',' delimiter"
                        | EmptyString => err "Expecting ',' delimiter"
                        end
                    end
                | None => err "Expecting ':' delimiter"
                end
            end
          else err "Expecting property name enclosed in double quotes"
      | EmptyString => err "Expecting property name enclosed in double quotes"
      end
  end.

Definition bom : string :=
  String (ascii_of_nat 239) (String (ascii_of_nat 187) (String (ascii_of_nat 191) "")).

(** [json.loads] on a text. *)
Definition loads (s : string) : result pyval :=
  if String.prefix bom s
  then err "Unexpected UTF-8 BOM (decode using utf-8-sig)"
  else
    match scan_once (2 * String.length s + 2) (skip_ws s) with
    | Raise e => Raise e
    | Ok (v, rest) =>
        match skip_ws rest with
        | EmptyString => Ok v
        | String _ _ => err "Extra data"
        end
    end.

(** [json.load] on a file opened for reading: the bytes are decoded
    first. *)
Definition load (bytes : string) : result pyval :=
  if utf8_valid bytes then loads bytes else Raise UnicodeDecodeError.

(** *** The text of a value, as the statements speak of it *)

(** What follows the first item of a list, and of a dictionary. *)
Definition tail_items (r : list pyval) : string :=
  String.concat "" (iterencode_items iterencode ", " r).

Definition tail_pairs (r : list (string * pyval)) : string :=
  String.concat "" (iterencode_pairs iterencode false r).

(** What can follow a value in a text: nothing, or a delimiter. *)
Definition delim (k : string) : bool :=
  match k with
  | EmptyString => true
  | String c _ => Ascii.eqb c "," || Ascii.eqb c "]" || Ascii.eqb c "}"
  end.

(** The characters a printed value can start with. *)
Definition value_start (c : ascii) : bool :=
  Ascii.eqb c dquote || Ascii.eqb c "[" || Ascii.eqb c "{"
  || Ascii.eqb c "n" || Ascii.eqb c "t" || Ascii.eqb c "f"
  || Ascii.eqb c "-" || is_digit c.

(** A printed value is read back, whatever delimiter follows it. *)
Definition reads_back (v : pyval) : Prop :=
  forall fuel k,
    delim k = true -> 2 * String.length (dump v) <= fuel ->
    scan_once fuel (dump v ++ k) = Ok (v, k).

(** The reader has not run out of fuel. *)
Definition in_fuel {A} (r : result A) : Prop :=
  match r with
  | Ok _ => True
  | Raise e => e <> Exception "RecursionError"
  end.

(** Every piece of the text can be encoded: no text in the value has a
    lone surrogate. *)
Definition encodable (v : pyval) : bool := forallb utf8_valid (iterencode v).

Definition codec : Cache.JsonCodec :=
  {| Cache.json_chunks := iterencode; Cache.json_load := load |}.

End Json.


(** ** Sample worlds *)

Module Samples.
Import Cache.

(** A disk with the home directory [/home/u] and nothing in it. *)
Definition home_disk : filesystem := [("/home", Dir); ("/home/u", Dir)].

(** A manager made on it. *)
Definition fresh : world :=
  snd (init (codec := Json.codec) "/home/u" home_disk).

(** ... after [update("m", "cat", "/d", "/c", {"train": "/c/train.bin"})]. *)
Definition one : world :=
  snd (update (codec := Json.codec) "m" "cat" (PStr "/d") (PStr "/c")
              (PDict [("train", PStr "/c/train.bin")]) fresh).

(** ... after a further [update("m", "cat2", ...)]. *)
Definition two_cats : world :=
  snd (update (codec := Json.codec) "m" "cat2" (PStr "/d") (PStr "/c")
              (PDict [("test", PStr "/c/test.bin")]) one).

(** A registry file in which the data path of ["m"] is written with
    the escape of a lone surrogate, as a path with a byte that is no
    UTF-8 reads in Python. *)
Definition quoted (s : string) : string :=
  String Json.dquote (s ++ String Json.dquote "").

Definition escaped_prefix : string :=
  "{" ++ quoted "info" ++ ": {}, " ++ quoted "dataset" ++ ": {"
      ++ quoted "cat" ++ ": {" ++ quoted "m" ++ ": {"
      ++ quoted "data_dir" ++ ": ".

Definition escaped_text : string :=
  escaped_prefix ++ quoted "/d/\udcff" ++ "}}}}".

Definition escaped_disk : filesystem :=
  home_disk ++ [("/home/u/.dbcollection.json", File escaped_text)].

(** The manager made on that disk, and the world after it has written
    its document back. *)
Definition escaped : world :=
  snd (init (codec := Json.codec) "/home/u" escaped_disk).

Definition escaped_cut : world :=
  snd (write_data_cache (codec := Json.codec) (data (self escaped)) None
                        escaped).

(** [one] after [delete_dataset("m")]. *)
Definition removed : world :=
  snd (delete_dataset (codec := Json.codec) "m" false one).

(** A sequence of calls in which ["m"] always goes with ["cat"] and
    ["n"] with ["cat2"]. *)
Definition cat_of (n : string) : string :=
  if String.eqb n "m" then "cat" else "cat2".

Definition call_m_train : upsert_call :=
  {| u_name := "m"; u_category := "cat"; u_data_dir := PStr "/d";
     u_cache_dir := PStr "/c";
     u_cache_files := PDict [("train", PStr "/c/train.bin")] |}.

Definition call_n : upsert_call :=
  {| u_name := "n"; u_category := "cat2"; u_data_dir := PStr "/e";
     u_cache_dir := PStr "/f";
     u_cache_files := PDict [("train", PStr "/f/train.bin")] |}.

Definition call_m_test : upsert_call :=
  {| u_name := "m"; u_category := "cat"; u_data_dir := PStr "/d";
     u_cache_dir := PStr "/c";
     u_cache_files := PDict [("test", PStr "/c/test.bin")] |}.

Definition calls : list upsert_call := [call_m_train; call_n; call_m_test].

(** A container in the layout the loader reads (everything under
    [default/]), with a top-level [train] group as well. *)
Definition train_set : list (string * Loader.h5node) :=
  [("object_fields",
    Loader.H5Dataset (Loader.NArr [Loader.NStr "filenames"; Loader.NStr "labels"]));
   ("object_ids",
    Loader.H5Dataset
      (Loader.NArr [Loader.NArr [Loader.NInt 0; Loader.NInt 1];
                    Loader.NArr [Loader.NInt 1; Loader.NInt 0];
                    Loader.NArr [Loader.NInt 2; Loader.NInt 1]]));
   ("filenames",
    Loader.H5Dataset
      (Loader.NArr [Loader.NStr "a.png"; Loader.NStr "b.png"; Loader.NStr "c.png"]));
   ("labels",
    Loader.H5Dataset (Loader.NArr [Loader.NInt 7; Loader.NInt 9]))].

Definition container_with_train : list (string * Loader.h5node) :=
  [("default", Loader.H5Group [("train", Loader.H5Group train_set)]);
   ("train", Loader.H5Group [])].

(** The same data with [default] as the only top-level name. *)
Definition container_default_only : list (string * Loader.h5node) :=
  [("default", Loader.H5Group [("train", Loader.H5Group train_set)])].

Definition containers : list (string * list (string * Loader.h5node)) :=
  [("/c/a.h5", container_with_train); ("/c/b.h5", container_default_only)].

(** A decoder for field names stored as texts. *)
Definition decode_names (a : Loader.ndarray) : result (list string) :=
  match a with
  | Loader.NArr l =>
      Ok (map (fun x => match x with Loader.NStr t => t | _ => "" end) l)
  | _ => Raise TypeError
  end.

(** The loader of [/c/a.h5], as [init] builds it. *)
Definition loader_a : Loader.DatasetLoader :=
  {| Loader.name := "mnist"; Loader.task := "classification";
     Loader.data_dir := "/d"; Loader.cache_path := "/c/a.h5";
     Loader.file := container_with_train; Loader.root_path := "default/";
     Loader.sets := ["default"; "train"];
     Loader.object_fields := Some ["filenames"; "labels"] |}.

End Samples.

(** ** More sample worlds *)

Module MoreSamples.
Import Cache.

(** The world of [Samples.one] with further paths on the disk. *)
Definition one_with (extra : filesystem) : world :=
  with_disk Samples.one (disk Samples.one ++ extra).

(** The cache path of ["m"] is a directory. *)
Definition cache_is_dir : world := one_with [("/c", Dir)].

(** The data path of ["m"] is a regular file. *)
Definition data_is_file : world := one_with [("/d", File "raw")].

(** The data path of ["m"] is a directory. *)
Definition data_is_dir : world := one_with [("/d", Dir)].

(** The registry path has become a directory. *)
Definition registry_is_dir : world :=
  with_disk Samples.fresh [("/home/u/.dbcollection.json", Dir)].

(** ["m"] under ["cat"] and ["n"] under ["cat2"]. *)
Definition two : world :=
  run_updates (codec := Json.codec)
              [Samples.call_m_train; Samples.call_n] Samples.fresh.

(** [Samples.one] after
    [change_field("m", "cached_files", {"train": "/c/train.bin"})]: the
    record of ["m"] now has the key that [add_data] merges on. *)
Definition with_cached_files : world :=
  snd (change_field "m" "cached_files"
                    (PDict [("train", PStr "/c/train.bin")]) Samples.one).

(** The record that [update] stores for [Samples.call_m_train]. *)
Definition record_m : pyval :=
  PDict [("data_dir", PStr "/d"); ("cache_dir", PStr "/c");
         ("cache_files", PDict [("train", PStr "/c/train.bin")])].

End MoreSamples.

(* ================================================================== *)
(** * Part II: theorems *)
(* ================================================================== *)

(** ** The sample worlds *)

Module SampleFacts.
Import Cache.

Example json_roundtrip_sample :
  Json.load (Json.dump (data (self Samples.two_cats)))
  = Ok (data (self Samples.two_cats)).
Proof. vm_compute. reflexivity. Qed.

(** The first half of the example of the specification: after the first
    [update] the path of the task is the one that was passed. *)
Example first_update_task_path :
  get_cache_path "m" "train" Samples.one
  = (Ok (PStr "/c/train.bin"), Samples.one).
Proof. reflexivity. Qed.

Example fresh_registry_file :
  read_file (disk Samples.fresh) "/home/u/.dbcollection.json"
  = Ok (Json.dump (data (self Samples.fresh))).
Proof. reflexivity. Qed.

End SampleFacts.

(** ** Dictionaries *)

Module DictFacts.

Section Dict.
Context {V : Type}.
Implicit Types (d : list (string * V)) (k : string) (v : V).

Lemma mem_keys_get k d :
  mem k (dict_keys d) = match dict_get k d with Some _ => true | None => false end.
Proof.
  induction d as [|[k' v'] d IH]; simpl; [reflexivity|].
  destruct (String.eqb k k'); simpl; auto.
Qed.

Lemma dict_get_set k k' v d :
  dict_get k (dict_set k' v d)
  = if String.eqb k k' then Some v else dict_get k d.
Proof.
  induction d as [|[k0 v0] d IH]; simpl.
  - destruct (String.eqb_spec k k'); reflexivity.
  - destruct (String.eqb_spec k' k0) as [->|Hne]; simpl.
    + destruct (String.eqb_spec k k0); reflexivity.
    + rewrite IH. destruct (String.eqb_spec k k0) as [->|]; [|reflexivity].
      destruct (String.eqb_spec k0 k'); [congruence | reflexivity].
Qed.

Lemma dict_get_set_same k v d : dict_get k (dict_set k v d) = Some v.
Proof. rewrite dict_get_set, String.eqb_refl. reflexivity. Qed.

Lemma dict_keys_set_present k v d :
  mem k (dict_keys d) = true -> dict_keys (dict_set k v d) = dict_keys d.
Proof.
  induction d as [|[k0 v0] d IH]; simpl; [discriminate|].
  destruct (String.eqb_spec k k0) as [->|Hne]; simpl; [reflexivity|].
  intros H. rewrite IH; auto.
Qed.

Lemma mem_keys_set k k' v d :
  mem k (dict_keys (dict_set k' v d))
  = String.eqb k k' || mem k (dict_keys d).
Proof.
  rewrite !mem_keys_get, dict_get_set.
  destruct (String.eqb k k'); reflexivity.
Qed.

Lemma dict_set_set k v v' d : dict_set k v (dict_set k v' d) = dict_set k v d.
Proof.
  induction d as [|[k0 v0] d IH]; simpl.
  - now rewrite String.eqb_refl.
  - destruct (String.eqb k k0) eqn:E; simpl.
    + now rewrite String.eqb_refl.
    + now rewrite E, IH.
Qed.

Lemma dict_get_in k v d : dict_get k d = Some v -> In (k, v) d.
Proof.
  induction d as [|[k0 v0] d IH]; simpl; [discriminate|].
  destruct (String.eqb_spec k k0) as [->|Hne].
  - intros [= ->]. now left.
  - intros H. right. auto.
Qed.

Lemma in_keys_get k d :
  In k (dict_keys d) -> exists v, dict_get k d = Some v.
Proof.
  induction d as [|[k0 v0] d IH]; simpl; [tauto|].
  destruct (String.eqb_spec k k0) as [->|Hne]; [eauto|].
  intros [H|H]; [congruence | auto].
Qed.

Lemma mem_in k (ks : list string) : mem k ks = true <-> In k ks.
Proof.
  unfold mem. rewrite existsb_exists. split.
  - intros [x [Hin Heq]]. apply String.eqb_eq in Heq. now subst.
  - intros H. exists k. split; [assumption | apply String.eqb_refl].
Qed.

Lemma forallb_dict_set (P : string * V -> bool) k v d :
  forallb P d = true -> P (k, v) = true -> forallb P (dict_set k v d) = true.
Proof.
  intros Hd Hv. induction d as [|[k0 v0] d IH]; simpl in *.
  - now rewrite Hv.
  - apply andb_prop in Hd as [H0 Hd].
    destruct (String.eqb k k0); simpl.
    + now rewrite Hv, Hd.
    + now rewrite H0, IH.
Qed.
End Dict.

End DictFacts.
Import DictFacts.

(** ** Paths *)

Module PathFacts.
Local Open Scope string_scope.

Lemma append_assoc (a b c : string) : (a ++ b) ++ c = a ++ (b ++ c).
Proof. induction a as [|x a IH]; simpl; [reflexivity | now rewrite IH]. Qed.

Lemma append_nil_r (a : string) : a ++ "" = a.
Proof. induction a as [|x a IH]; simpl; [reflexivity | now rewrite IH]. Qed.

Lemma prefix_append (a b : string) : String.prefix a (a ++ b) = true.
Proof.
  induction a as [|x a IH]; simpl.
  - destruct b; reflexivity.
  - destruct (ascii_dec x x); [assumption | congruence].
Qed.

Lemma endswith_sep_append (a b : string) :
  b <> "" -> endswith_sep (a ++ b) = endswith_sep b.
Proof.
  intros Hb. induction a as [|x a IH]; simpl; [reflexivity|].
  destruct (a ++ b) eqn:E; [|assumption].
  destruct a; simpl in E; [contradiction | discriminate].
Qed.

Lemma no_sep_endswith (s : string) : no_sep s = true -> endswith_sep s = false.
Proof.
  induction s as [|x s IH]; simpl; [reflexivity|].
  intros H. apply andb_prop in H as [Hx Hs].
  destruct s; [now apply negb_true_iff in Hx | auto].
Qed.

Lemma plain_segment_inv (s : string) :
  plain_segment s = true ->
  s <> "" /\ no_sep s = true /\ startswith_sep s = false.
Proof.
  unfold plain_segment. intros H. apply andb_prop in H as [Hne Hns].
  apply negb_true_iff, String.eqb_neq in Hne. repeat split; auto.
  destruct s as [|x s]; [contradiction|].
  simpl in Hns. apply andb_prop in Hns as [Hx _].
  apply negb_true_iff in Hx. unfold startswith_sep.
  change (String.prefix "/" (String x s))
    with (if ascii_dec "/" x then String.prefix "" s else false).
  destruct (ascii_dec "/" x) as [<-|]; [|reflexivity].
  now rewrite Ascii.eqb_refl in Hx.
Qed.

(** [posixpath.join] on a component that is not absolute. *)
Lemma join2_relative (path b : string) :
  startswith_sep b = false -> join2 path b = with_sep path ++ b.
Proof.
  intros H. unfold join2, with_sep. rewrite H.
  destruct (String.eqb path "" || endswith_sep path); [reflexivity|].
  now rewrite append_assoc.
Qed.

Lemma path_join_relative (d name leaf : string) :
  startswith_sep name = false ->
  startswith_sep leaf = false ->
  path_join d [name; leaf]
  = with_sep (with_sep d ++ name) ++ leaf.
Proof.
  intros Hn Hl. unfold path_join. simpl.
  now rewrite (join2_relative d name Hn), join2_relative.
Qed.

Lemma with_sep_prefix (p : string) :
  exists s, with_sep p = p ++ s.
Proof.
  unfold with_sep.
  destruct (String.eqb p "" || endswith_sep p);
    [exists ""; now rewrite append_nil_r | exists "/"; reflexivity].
Qed.

Lemma with_sep_shape (p : string) :
  with_sep p = "" \/ endswith_sep (with_sep p) = true.
Proof.
  unfold with_sep.
  destruct (String.eqb_spec p "") as [->|Hne]; simpl; [now left|].
  destruct (endswith_sep p) eqn:E; [now right|].
  right. now rewrite endswith_sep_append.
Qed.

Lemma prefix_joined (d name leaf : string) :
  String.prefix d (with_sep (with_sep d ++ name) ++ leaf) = true.
Proof.
  destruct (with_sep_prefix d) as [s1 ->].
  destruct (with_sep_prefix ((d ++ s1) ++ name)) as [s2 ->].
  rewrite !append_assoc. apply prefix_append.
Qed.

(** Splitting goes through a prefix that is empty or ends in a
    separator. *)
Lemma split_path_aux_append (a b cur : string) :
  exists l cur',
    split_path_aux (a ++ b) cur = (l ++ split_path_aux b cur')%list
    /\ (a = "" -> cur' = cur)
    /\ (endswith_sep a = true -> cur' = "").
Proof.
  revert cur. induction a as [|x a IH]; intros cur; simpl.
  - exists [], cur. repeat split; auto. discriminate.
  - destruct (Ascii.eqb_spec x "/") as [->|Hx].
    + destruct (IH "") as (l & cur' & Heq & Hnil & Hend).
      exists (cur :: l), cur'. rewrite Heq. repeat split; [discriminate|].
      destruct a; auto.
    + destruct (IH (cur ++ String x "")) as (l & cur' & Heq & Hnil & Hend).
      exists l, cur'. rewrite Heq. repeat split; [discriminate|].
      destruct a; [discriminate | assumption].
Qed.

Lemma split_path_aux_segment (name rest cur : string) :
  no_sep name = true ->
  split_path_aux (name ++ String "/" rest) cur
  = (cur ++ name) :: split_path_aux rest "".
Proof.
  revert cur. induction name as [|x name IH]; intros cur H; simpl.
  - now rewrite append_nil_r.
  - simpl in H. apply andb_prop in H as [Hx Hn].
    apply negb_true_iff in Hx. rewrite Hx, IH by assumption.
    now rewrite append_assoc.
Qed.

(** A plain dataset name is a component of the joined default path. *)
Lemma segment_of_joined (d name leaf : string) :
  plain_segment name = true ->
  In name (split_path (with_sep (with_sep d ++ name) ++ leaf)).
Proof.
  intros Hp. destruct (plain_segment_inv _ Hp) as (Hne & Hns & _).
  assert (Hsep : with_sep (with_sep d ++ name)
                 = with_sep d ++ name ++ "/").
  { unfold with_sep at 1.
    rewrite endswith_sep_append, (no_sep_endswith _ Hns) by assumption.
    destruct (String.eqb_spec (with_sep d ++ name) "") as [E|_];
      [|now rewrite append_assoc].
    destruct (with_sep d); simpl in E; [contradiction | discriminate]. }
  rewrite Hsep, !append_assoc. simpl.
  destruct (split_path_aux_append (with_sep d)
              (name ++ String "/" leaf) "") as (l & cur' & Heq & Hnil & Hend).
  assert (cur' = "") as ->
      by (destruct (with_sep_shape d) as [E|E]; auto).
  unfold split_path. rewrite Heq, split_path_aux_segment by assumption.
  apply filter_In. split.
  - apply in_or_app. right. now left.
  - simpl. apply negb_true_iff, String.eqb_neq. assumption.
Qed.

End PathFacts.

(** ** The disk *)

Module DiskFacts.
Local Open Scope string_scope.

Lemma stat_found fs p n : dict_get p fs = Some n -> stat fs p = Found n.
Proof. unfold stat. now intros ->. Qed.

Lemma path_exists_found fs p n :
  dict_get p fs = Some n -> path_exists fs p = true.
Proof. intros H. unfold path_exists. now rewrite (stat_found _ _ _ H). Qed.

Lemma path_exists_absent fs p :
  path_exists fs p = false -> dict_get p fs = None.
Proof.
  unfold path_exists, stat. destruct (dict_get p fs); [discriminate|].
  reflexivity.
Qed.

Lemma read_file_found fs p c :
  dict_get p fs = Some (File c) -> read_file fs p = Ok c.
Proof. intros H. unfold read_file. now rewrite (stat_found _ _ _ H). Qed.

(** What can be read is a regular file of the disk, under the path as
    it is spelled. *)
Lemma read_file_ok fs p c :
  read_file fs p = Ok c -> dict_get p fs = Some (File c).
Proof.
  unfold read_file, stat.
  destruct (dict_get p fs) as [[c'|]|]; try discriminate.
  - now intros [= ->].
  - destruct (String.eqb p ""); [discriminate|].
    destruct (all_sep p); [discriminate|].
    destruct (dir_state _ _ _); try discriminate.
    destruct (endswith_sep p); discriminate.
Qed.

Lemma open_file fs p c :
  dict_get p fs = Some (File c) -> open_for_writing fs p = Ok tt.
Proof. intros H. unfold open_for_writing. now rewrite (stat_found _ _ _ H). Qed.

Lemma open_dir fs p :
  dict_get p fs = Some Dir -> open_for_writing fs p = Raise (IOError EISDIR).
Proof. intros H. unfold open_for_writing. now rewrite (stat_found _ _ _ H). Qed.

(** [open] returns, or raises an [IOError]. *)
Lemma open_outcome fs p :
  open_for_writing fs p = Ok tt
  \/ exists errno, open_for_writing fs p = Raise (IOError errno).
Proof.
  unfold open_for_writing.
  destruct (stat fs p) as [[c|]|e]; eauto.
  destruct (String.eqb p ""); eauto.
  destruct (dir_state _ _ _); eauto.
  destruct (endswith_sep p); eauto.
Qed.

Lemma os_remove_dir fs p :
  dict_get p fs = Some Dir -> os_remove fs p = Raise (OSError EISDIR).
Proof. intros H. unfold os_remove. now rewrite (stat_found _ _ _ H). Qed.

Lemma os_remove_file fs p c :
  dict_get p fs = Some (File c) -> os_remove fs p = Ok (dict_pop p fs).
Proof. intros H. unfold os_remove. now rewrite (stat_found _ _ _ H). Qed.

(** [os.remove] returns, or raises an [OSError]. *)
Lemma os_remove_outcome fs p :
  os_remove fs p = Ok (dict_pop p fs)
  \/ exists errno, os_remove fs p = Raise (OSError errno).
Proof. unfold os_remove. destruct (stat fs p) as [[c|]|e]; eauto. Qed.

Lemma encode_chunks_text chunks : forall text,
  encode_chunks chunks = (text, true) -> text = String.concat "" chunks.
Proof.
  induction chunks as [|c chunks IH]; simpl; intros text H.
  - now inversion H.
  - destruct (utf8_valid c); [|discriminate].
    destruct (encode_chunks chunks) as [t ok]. inversion H; subst.
    rewrite (IH t eq_refl). destruct chunks as [|c' chunks]; simpl.
    + clear. induction c as [|x c IHc]; simpl; [reflexivity | now rewrite IHc].
    + reflexivity.
Qed.

Lemma encode_chunks_complete chunks :
  forallb utf8_valid chunks = true ->
  encode_chunks chunks = (String.concat "" chunks, true).
Proof.
  intros H. destruct (encode_chunks chunks) as [text ok] eqn:E.
  assert (ok = true) as ->.
  { revert text ok E. induction chunks as [|c chunks IH]; simpl in *;
      intros text ok E.
    - now inversion E.
    - apply andb_true_iff in H as [H1 H2]. rewrite H1 in E.
      destruct (encode_chunks chunks) as [t ok'] eqn:E'. inversion E; subst.
      exact (IH H2 _ _ eq_refl). }
  now rewrite (encode_chunks_text _ _ E).
Qed.

End DiskFacts.

(** ** The JSON codec: what is written is read back *)

Module JsonFacts.
Import Json PathFacts.
Local Open Scope list_scope.
Local Open Scope string_scope.

Lemma pyval_nested_ind (P : pyval -> Prop) :
  P PNone -> (forall b, P (PBool b)) -> (forall z, P (PInt z)) ->
  (forall s, P (PStr s)) ->
  (forall l, Forall P l -> P (PList l)) ->
  (forall d, Forall (fun kv => P (snd kv)) d -> P (PDict d)) ->
  forall v, P v.
Proof.
  intros HN HB HI HS HL HD.
  fix IH 1. intros [ |b|z|s|l|d].
  - exact HN.
  - apply HB.
  - apply HI.
  - apply HS.
  - apply HL. induction l as [|x l IHl]; constructor; [apply IH | exact IHl].
  - apply HD. induction d as [|[k x] d IHd]; constructor; [apply IH | exact IHd].
Qed.

Lemma length_app (a b : string) :
  String.length (a ++ b) = String.length a + String.length b.
Proof. induction a as [|x a IH]; simpl; [reflexivity | now rewrite IH]. Qed.

Lemma concat_app (l1 l2 : list string) :
  String.concat "" (l1 ++ l2)%list = String.concat "" l1 ++ String.concat "" l2.
Proof.
  induction l1 as [|x l1 IH]; [reflexivity|].
  destruct l1 as [|y l1].
  - simpl. destruct l2; simpl; [now rewrite append_nil_r | reflexivity].
  - change (String.concat "" ((x :: y :: l1) ++ l2)%list)
      with (x ++ String.concat "" ((y :: l1) ++ l2)%list).
    rewrite IH. change (String.concat "" (x :: y :: l1))
      with (x ++ String.concat "" (y :: l1)).
    now rewrite append_assoc.
Qed.

Lemma concat_cons (x : string) (l : list string) :
  String.concat "" (x :: l) = x ++ String.concat "" l.
Proof. apply (concat_app [x] l). Qed.

(** *** The text of a value, piece by piece *)

Lemma scalar_chunks v text : scalar v = Some text -> iterencode v = [text].
Proof. destruct v as [ |[]| | | | ]; simpl; intros H; inversion H; reflexivity. Qed.

Lemma items_text buf v r :
  String.concat "" (iterencode_items iterencode buf (v :: r))
  = buf ++ dump v ++ tail_items r.
Proof.
  unfold tail_items, dump. cbn [iterencode_items].
  destruct (scalar v) as [text|] eqn:E.
  - rewrite (scalar_chunks _ _ E). rewrite concat_cons.
    cbn [String.concat]. now rewrite append_assoc.
  - rewrite concat_cons, concat_app. reflexivity.
Qed.

Lemma pairs_text first key v r :
  String.concat "" (iterencode_pairs iterencode first ((key, v) :: r))
  = (if first then "" else ", ")
      ++ encode_basestring key ++ ": " ++ dump v ++ tail_pairs r.
Proof.
  unfold tail_pairs, dump. cbn [iterencode_pairs].
  rewrite concat_app, !concat_cons, concat_app.
  destruct first; reflexivity.
Qed.

Lemma dump_list v r : dump (PList (v :: r)) = "[" ++ dump v ++ tail_items r.
Proof. unfold dump at 1. cbn [iterencode]. apply items_text. Qed.

Lemma dump_dict key v r :
  dump (PDict ((key, v) :: r))
  = "{" ++ encode_basestring key ++ ": " ++ dump v ++ tail_pairs r.
Proof.
  unfold dump at 1. cbn [iterencode]. rewrite concat_cons, pairs_text.
  reflexivity.
Qed.

Lemma tail_items_nil : tail_items [] = "]".
Proof. reflexivity. Qed.

Lemma tail_items_cons v r :
  tail_items (v :: r) = ", " ++ dump v ++ tail_items r.
Proof. apply items_text. Qed.

Lemma tail_pairs_nil : tail_pairs [] = "}".
Proof. reflexivity. Qed.

Lemma tail_pairs_cons key v r :
  tail_pairs ((key, v) :: r)
  = ", " ++ encode_basestring key ++ ": " ++ dump v ++ tail_pairs r.
Proof. apply pairs_text. Qed.


(** *** Reading back a text *)

Ltac each_char c :=
  destruct c as [[] [] [] [] [] [] [] []].

Lemma scanstring_char c a r acc :
  scanstring (escape_char c ++ String a r) acc
  = scanstring (String a r) (acc ++ String c "").
Proof. each_char c; reflexivity. Qed.

Lemma escape_quote_nonempty t k :
  exists a r, escape t ++ String dquote k = String a r.
Proof.
  destruct (escape t ++ String dquote k) as [|a r] eqn:E; [|eauto].
  apply (f_equal String.length) in E. rewrite length_app in E.
  simpl in E. lia.
Qed.

Lemma scanstring_escape t : forall acc k,
  scanstring (escape t ++ String dquote k) acc = Ok (acc ++ t, k).
Proof.
  induction t as [|c t IH]; intros acc k.
  - simpl. now rewrite append_nil_r.
  - cbn [escape]. rewrite append_assoc.
    destruct (escape_quote_nonempty t k) as (a & r & E).
    rewrite E, scanstring_char, <- E, IH, append_assoc. reflexivity.
Qed.

Lemma scan_string fuel t k :
  scan_once (S fuel) (encode_basestring t ++ k) = Ok (PStr t, k).
Proof.
  unfold encode_basestring. cbn [append]. rewrite append_assoc.
  cbn [append].
  change (scan_once (S fuel) (String dquote (escape t ++ String dquote k)))
    with (match scanstring (escape t ++ String dquote k) "" with
          | Ok (text, rest) => Ok (PStr text, rest)
          | Raise e => Raise e
          end).
  rewrite scanstring_escape. reflexivity.
Qed.


Lemma delim_not_digit k :
  delim k = true ->
  match k with String c _ => is_digit c = false | EmptyString => True end.
Proof.
  destruct k as [|c k]; [trivial|]. each_char c; vm_compute; congruence.
Qed.

Lemma delim_not_float k : delim k = true -> float_follows k = false.
Proof.
  destruct k as [|c k]; [reflexivity|].
  destruct k as [|d k]; [reflexivity|].
  each_char c; cbv [delim Ascii.eqb Bool.eqb orb andb];
    try discriminate; reflexivity.
Qed.

Lemma read_digits_stop k :
  match k with String c _ => is_digit c = false | EmptyString => True end ->
  read_digits k = (Decimal.Nil, k).
Proof. destruct k as [|c k]; simpl; [reflexivity|]. now intros ->. Qed.

Lemma read_digits_uint u : forall k,
  match k with String c _ => is_digit c = false | EmptyString => True end ->
  read_digits (NilEmpty.string_of_uint u ++ k) = (u, k).
Proof.
  induction u; intros k Hk; cbn [NilEmpty.string_of_uint append];
    try (change (read_digits (String ?c ?s))
           with (if is_digit c
                 then let (u, rest) := read_digits s in (digit c u, rest)
                 else (Decimal.Nil, String c s));
         cbn [is_digit between nat_of_ascii]; simpl Nat.leb;
         cbn [andb]; rewrite IHu by assumption; reflexivity).
  now apply read_digits_stop.
Qed.

(** The digits of a positive number: no leading zero. *)
Lemma to_uint_head p :
  exists c s, NilZero.string_of_uint (Pos.to_uint p) = String c s
              /\ is_digit c = true /\ Ascii.eqb c "0" = false
              /\ NilZero.string_of_uint (Pos.to_uint p)
                 = NilEmpty.string_of_uint (Pos.to_uint p).
Proof.
  pose proof (Unsigned.to_uint_nonzero p) as Hnz.
  pose proof (Unsigned.to_uint_nonnil p) as Hnn.
  pose proof (DecimalZ.to_of (Decimal.Pos (Pos.to_uint p))) as Hnorm.
  assert (Hz : Z.of_int (Decimal.Pos (Pos.to_uint p)) = Z.pos p).
  { apply (DecimalZ.of_to (Z.pos p)). }
  rewrite Hz in Hnorm. simpl in Hnorm.
  injection Hnorm as Hnorm.
  destruct (Pos.to_uint p) as [ |u|u|u|u|u|u|u|u|u|u] eqn:E;
    try (eexists _, _; repeat split; reflexivity).
  - congruence.
  - exfalso. rewrite unorm_D0 in Hnorm.
    unfold Decimal.unorm in Hnorm.
    destruct (Decimal.nzhead u) eqn:En; try discriminate.
    + injection Hnorm as Hu. subst u. now apply Hnz.
    + exact (nzhead_nonzero u _ En).
Qed.


Lemma scan_digit c s fuel :
  is_digit c = true ->
  scan_once (S fuel) (String c s) = match_number (String c s).
Proof. each_char c; try discriminate; reflexivity. Qed.

Lemma scan_minus c s fuel :
  is_digit c = true ->
  scan_once (S fuel) (String "-" (String c s))
  = match_number (String "-" (String c s)).
Proof. each_char c; try discriminate; reflexivity. Qed.

Lemma match_number_digits c s :
  is_digit c = true -> Ascii.eqb c "0" = false ->
  match_number (String c s)
  = let (u, rest) := read_digits (String c s) in
    if float_follows rest then a_float
    else Ok (PInt (Z.of_int (Decimal.Pos u)), rest).
Proof. each_char c; try discriminate; reflexivity. Qed.

Lemma match_number_minus c s :
  is_digit c = true -> Ascii.eqb c "0" = false ->
  match_number (String "-" (String c s))
  = let (u, rest) := read_digits (String c s) in
    if float_follows rest then a_float
    else Ok (PInt (Z.of_int (Decimal.Neg u)), rest).
Proof. each_char c; try discriminate; reflexivity. Qed.

Lemma scan_number fuel z k :
  delim k = true ->
  scan_once (S fuel) (intstr z ++ k) = Ok (PInt z, k).
Proof.
  intros Hk. pose proof (delim_not_float k Hk) as Hf.
  pose proof (delim_not_digit k Hk) as Hd.
  unfold intstr. destruct z as [|p|p].
  - change (NilZero.string_of_int (Z.to_int 0) ++ k) with (String "0" k).
    rewrite scan_digit by reflexivity.
    change (match_number (String "0" k))
      with (if float_follows k then a_float
            else Ok (PInt (Z.of_int (Decimal.Pos (Decimal.D0 Decimal.Nil))), k)).
    now rewrite Hf.
  - destruct (to_uint_head p) as (c & s & E & Hc & H0 & Eq).
    change (NilZero.string_of_int (Z.to_int (Z.pos p)))
      with (NilZero.string_of_uint (Pos.to_uint p)).
    rewrite E. cbn [append].
    rewrite scan_digit, match_number_digits by assumption.
    change (String c (s ++ k)) with (String c s ++ k).
    rewrite <- E, Eq, read_digits_uint by assumption.
    rewrite Hf. do 2 f_equal. f_equal.
    apply (DecimalZ.of_to (Z.pos p)).
  - destruct (to_uint_head p) as (c & s & E & Hc & H0 & Eq).
    change (NilZero.string_of_int (Z.to_int (Z.neg p)))
      with (String "-" (NilZero.string_of_uint (Pos.to_uint p))).
    rewrite E. cbn [append].
    rewrite scan_minus, match_number_minus by assumption.
    change (String c (s ++ k)) with (String c s ++ k).
    rewrite <- E, Eq, read_digits_uint by assumption.
    rewrite Hf. do 2 f_equal. f_equal.
    apply (DecimalZ.of_to (Z.neg p)).
Qed.

Lemma dump_head v :
  exists c s, dump v = String c s /\ value_start c = true.
Proof.
  destruct v as [ |[]|z|t|[|x r]|[|[key x] r]];
    try (eexists _, _; split; reflexivity).
  - unfold dump. cbn [iterencode String.concat]. unfold intstr.
    destruct z as [|p|p]; try (eexists _, _; split; reflexivity).
    destruct (to_uint_head p) as (c & s & E & Hc & _).
    exists c, s. split; [exact E|].
    unfold value_start. rewrite Hc. now rewrite !orb_true_r.
  - rewrite dump_list. eexists _, _; split; reflexivity.
Qed.

Lemma value_start_facts c :
  value_start c = true ->
  is_ws c = false /\ Ascii.eqb "]" c = false /\ Ascii.eqb "}" c = false.
Proof. each_char c; vm_compute; intros H; try discriminate H; auto. Qed.

Lemma skip_ws_dump v k : skip_ws (dump v ++ k) = dump v ++ k.
Proof.
  destruct (dump_head v) as (c & s & E & Hc).
  destruct (value_start_facts c Hc) as (Hw & _).
  rewrite E. cbn [append skip_ws]. now rewrite Hw.
Qed.

Lemma expect_close_dump v k :
  expect "]" (dump v ++ k) = None /\ expect "}" (dump v ++ k) = None.
Proof.
  destruct (dump_head v) as (c & s & E & Hc).
  destruct (value_start_facts c Hc) as (_ & H1 & H2).
  rewrite E. cbn [append expect]. now rewrite H1, H2.
Qed.

Lemma parse_elements_eq fuel s :
  parse_elements (S fuel) s
  = match scan_once fuel s with
    | Raise e => Raise e
    | Ok (v, rest) =>
        match skip_ws rest with
        | String c rest1 =>
            if Ascii.eqb c "]" then Ok ([v], rest1)
            else if Ascii.eqb c "," then
              match parse_elements fuel (skip_ws rest1) with
              | Ok (l, rest2) => Ok (v :: l, rest2)
              | Raise e => Raise e
              end
            else err "Expecting ',' delimiter"
        | EmptyString => err "Expecting ',' delimiter"
        end
    end.
Proof. reflexivity. Qed.

Lemma parse_members_eq fuel s1 :
  parse_members (S fuel) (String dquote s1)
  = match scanstring s1 "" with
    | Raise e => Raise e
    | Ok (key, rest) =>
        match expect ":" (skip_ws rest) with
        | Some rest1 =>
            match scan_once fuel (skip_ws rest1) with
            | Raise e => Raise e
            | Ok (v, rest2) =>
                match skip_ws rest2 with
                | String c rest3 =>
                    if Ascii.eqb c "}" then Ok ([(key, v)], rest3)
                    else if Ascii.eqb c "," then
                      match parse_members fuel (skip_ws rest3) with
                      | Ok (l, rest4) => Ok ((key, v) :: l, rest4)
                      | Raise e => Raise e
                      end
                    else err "Expecting ',' delimiter"
                | EmptyString => err "Expecting ',' delimiter"
                end
            end
        | None => err "Expecting ':' delimiter"
        end
    end.
Proof. reflexivity. Qed.

Lemma scan_list_eq fuel s :
  scan_once (S fuel) (String "[" s)
  = match expect "]" (skip_ws s) with
    | Some rest => Ok (PList [], rest)
    | None =>
        match parse_elements fuel (skip_ws s) with
        | Ok (l, rest) => Ok (PList l, rest)
        | Raise e => Raise e
        end
    end.
Proof. reflexivity. Qed.

Lemma scan_dict_eq fuel s :
  scan_once (S fuel) (String "{" s)
  = match expect "}" (skip_ws s) with
    | Some rest => Ok (PDict [], rest)
    | None =>
        match parse_members fuel (skip_ws s) with
        | Ok (pairs, rest) => Ok (PDict (dict_update [] pairs), rest)
        | Raise e => Raise e
        end
    end.
Proof. reflexivity. Qed.

Lemma delim_tail_items r k : delim (tail_items r ++ k) = true.
Proof.
  destruct r as [|v r]; [reflexivity|]. now rewrite tail_items_cons.
Qed.

Lemma delim_tail_pairs r k : delim (tail_pairs r ++ k) = true.
Proof.
  destruct r as [|[key v] r]; [reflexivity|]. now rewrite tail_pairs_cons.
Qed.

Lemma parse_elements_tail : forall r v fuel k,
  reads_back v -> Forall reads_back r ->
  1 + 2 * String.length (dump v) + 2 * String.length (tail_items r) <= fuel ->
  parse_elements fuel (dump v ++ tail_items r ++ k) = Ok (v :: r, k).
Proof.
  induction r as [|v2 r IH]; intros v fuel k Hv Hr Hfuel;
    (destruct fuel as [|f]; [lia|]); rewrite parse_elements_eq;
    rewrite (Hv f _ (delim_tail_items _ k)) by lia.
  - reflexivity.
  - inversion Hr as [|? ? Hv2 Hr']; subst.
    rewrite tail_items_cons in *. rewrite !append_assoc.
    cbn [append].
    change (skip_ws (String "," ?s)) with (String "," s).
    cbv beta iota. cbn [Ascii.eqb Bool.eqb andb].
    change (skip_ws (String " " ?s)) with (skip_ws s).
    rewrite skip_ws_dump. rewrite !length_app in Hfuel. simpl in Hfuel.
    rewrite (IH v2 f k Hv2 Hr') by lia. reflexivity.
Qed.

Lemma parse_members_key fuel key t :
  parse_members (S fuel) (encode_basestring key ++ ": " ++ t)
  = match scan_once fuel (skip_ws t) with
    | Raise e => Raise e
    | Ok (v, rest2) =>
        match skip_ws rest2 with
        | String c rest3 =>
            if Ascii.eqb c "}" then Ok ([(key, v)], rest3)
            else if Ascii.eqb c "," then
              match parse_members fuel (skip_ws rest3) with
              | Ok (l, rest4) => Ok ((key, v) :: l, rest4)
              | Raise e => Raise e
              end
            else err "Expecting ',' delimiter"
        | EmptyString => err "Expecting ',' delimiter"
        end
    end.
Proof.
  unfold encode_basestring. cbn [append]. rewrite append_assoc.
  cbn [append]. rewrite parse_members_eq, scanstring_escape.
  reflexivity.
Qed.

Lemma parse_members_tail : forall r key v fuel k,
  reads_back v -> Forall (fun kv => reads_back (snd kv)) r ->
  1 + 2 * String.length (dump v) + 2 * String.length (tail_pairs r) <= fuel ->
  parse_members fuel
    (encode_basestring key ++ ": " ++ dump v ++ tail_pairs r ++ k)
  = Ok ((key, v) :: r, k).
Proof.
  induction r as [|[key2 v2] r IH]; intros key v fuel k Hv Hr Hfuel;
    (destruct fuel as [|f]; [lia|]);
    rewrite parse_members_key, skip_ws_dump;
    rewrite (Hv f _ (delim_tail_pairs _ k)) by lia.
  - reflexivity.
  - inversion Hr as [|? ? Hv2 Hr']; subst. cbn [snd] in Hv2.
    rewrite tail_pairs_cons in *. rewrite !append_assoc.
    cbn [append].
    change (skip_ws (String "," ?s)) with (String "," s).
    cbv beta iota. cbn [Ascii.eqb Bool.eqb andb].
    change (skip_ws (String " " ?s)) with (skip_ws s).
    rewrite !length_app in Hfuel. simpl in Hfuel.
    assert (Hs : forall t, skip_ws (encode_basestring key2 ++ t)
                           = encode_basestring key2 ++ t) by reflexivity.
    change (String ":" (String " " ?t)) with (": " ++ t).
    rewrite Hs, (IH key2 v2 f k Hv2 Hr') by lia. reflexivity.
Qed.


Lemma mem_app k l1 l2 : mem k (l1 ++ l2)%list = mem k l1 || mem k l2.
Proof. apply existsb_app. Qed.

Lemma dict_set_fresh {V} k (v : V) d :
  mem k (dict_keys d) = false -> dict_set k v d = (d ++ [(k, v)])%list.
Proof.
  induction d as [|[k' v'] d IH]; simpl; [reflexivity|].
  intros H. apply orb_false_iff in H as [H1 H2].
  rewrite H1. now rewrite IH.
Qed.

Lemma dict_update_distinct {V} : forall (d acc : list (string * V)),
  (forall k, mem k (dict_keys d) = true -> mem k (dict_keys acc) = false) ->
  distinct (dict_keys d) = true ->
  dict_update acc d = (acc ++ d)%list.
Proof.
  induction d as [|[k v] d IH]; intros acc Hacc Hd.
  - simpl. now rewrite List.app_nil_r.
  - simpl in Hd. apply andb_true_iff in Hd as [Hk Hd].
    apply negb_true_iff in Hk.
    change (dict_update acc ((k, v) :: d))
      with (dict_update (dict_set k v acc) d).
    rewrite dict_set_fresh.
    + rewrite IH; [now rewrite <- List.app_assoc| |exact Hd].
      intros k' Hk'.
      assert (Hkeys : dict_keys (acc ++ [(k, v)])%list
                      = (dict_keys acc ++ [k])%list)
        by (unfold dict_keys; now rewrite List.map_app).
      rewrite Hkeys, mem_app.
      rewrite (Hacc k') by (simpl; rewrite Hk'; apply orb_true_r).
      simpl. rewrite orb_false_r.
      destruct (String.eqb k' k) eqn:E; [|reflexivity].
      apply String.eqb_eq in E. subst. congruence.
    + apply Hacc. simpl. now rewrite String.eqb_refl.
Qed.

Lemma dict_update_nil {V} (d : list (string * V)) :
  distinct (dict_keys d) = true -> dict_update [] d = d.
Proof. intros H. now apply (dict_update_distinct d []). Qed.

Lemma forall_reads_back (P := fun v => well_keyed v = true -> reads_back v) l :
  Forall P l -> forallb well_keyed l = true -> Forall reads_back l.
Proof.
  induction 1 as [|x l Hx _ IH]; simpl; intros H; constructor;
    apply andb_true_iff in H as [H1 H2]; auto.
Qed.

Lemma forall_reads_back_pairs
      (P := fun v => well_keyed v = true -> reads_back v)
      (d : list (string * pyval)) :
  Forall (fun kv => P (snd kv)) d ->
  forallb (fun kv => well_keyed (snd kv)) d = true ->
  Forall (fun kv => reads_back (snd kv)) d.
Proof.
  induction 1 as [|x l Hx _ IH]; simpl; intros H; constructor;
    apply andb_true_iff in H as [H1 H2]; auto.
Qed.

(** Every printed value is read back. *)
Lemma scan_dump v : well_keyed v = true -> reads_back v.
Proof.
  induction v as [ |b|z|t|l IHl|d IHd] using pyval_nested_ind;
    intros Hwk fuel k Hk Hfuel.
  - destruct fuel as [|f]; [simpl in Hfuel; lia | reflexivity].
  - destruct fuel as [|f]; [destruct b; simpl in Hfuel; lia|].
    destruct b; reflexivity.
  - destruct fuel as [|f].
    + destruct (dump_head (PInt z)) as (c & s & E & _).
      rewrite E in Hfuel. simpl in Hfuel. lia.
    + now apply scan_number.
  - destruct fuel as [|f].
    + destruct (dump_head (PStr t)) as (c & s & E & _).
      rewrite E in Hfuel. simpl in Hfuel. lia.
    + apply scan_string.
  - destruct l as [|x r].
    + destruct fuel as [|f]; [simpl in Hfuel; lia | reflexivity].
    + cbn [well_keyed] in Hwk.
      pose proof (forall_reads_back _ IHl Hwk) as Hall.
      inversion Hall as [|? ? Hx Hr]; subst.
      rewrite dump_list in *. rewrite !length_app in Hfuel.
      destruct fuel as [|f]; [simpl in Hfuel; lia|].
      rewrite !append_assoc. cbn [append].
      rewrite scan_list_eq, skip_ws_dump.
      rewrite (proj1 (expect_close_dump _ _)).
      rewrite parse_elements_tail; [reflexivity|assumption|assumption|].
      simpl in Hfuel. lia.
  - destruct d as [|[key x] r].
    + destruct fuel as [|f]; [simpl in Hfuel; lia | reflexivity].
    + cbn [well_keyed] in Hwk. apply andb_true_iff in Hwk as [Hdis Hwk].
      pose proof (forall_reads_back_pairs _ IHd Hwk) as Hall.
      inversion Hall as [|? ? Hx Hr]; subst. cbn [snd] in Hx.
      rewrite dump_dict in *. rewrite !length_app in Hfuel.
      destruct fuel as [|f]; [simpl in Hfuel; lia|].
      rewrite !append_assoc. cbn [append].
      rewrite scan_dict_eq.
      assert (Hs : forall t, skip_ws (encode_basestring key ++ t)
                             = encode_basestring key ++ t) by reflexivity.
      assert (He : forall t, expect "}" (encode_basestring key ++ t) = None)
        by reflexivity.
      rewrite Hs, He.
      change (String ":" (String " " ?t)) with (": " ++ t).
      rewrite parse_members_tail; [|assumption|assumption|].
      * now rewrite dict_update_nil.
      * simpl in Hfuel. lia.
Qed.

(** [loads] undoes [dump]. *)
Lemma loads_dump v : well_keyed v = true -> loads (dump v) = Ok v.
Proof.
  intros Hwk. unfold loads.
  destruct (dump_head v) as (c & s & E & Hc).
  assert (Hbom : String.prefix bom (dump v) = false).
  { rewrite E. revert Hc. each_char c; vm_compute; intros H;
      try discriminate H; reflexivity. }
  rewrite Hbom.
  pose proof (skip_ws_dump v "") as Hs. rewrite append_nil_r in Hs.
  rewrite Hs.
  pose proof (scan_dump v Hwk (2 * String.length (dump v) + 2) ""
                        eq_refl) as H.
  rewrite append_nil_r in H. rewrite H by lia. reflexivity.
Qed.


(** *** What [loads] returns is a value of Python *)

Lemma distinct_dict_set {V} k (v : V) d :
  distinct (dict_keys d) = true -> distinct (dict_keys (dict_set k v d)) = true.
Proof.
  assert (Hmem : forall k' d, mem k' (dict_keys (dict_set k v d))
                              = mem k' (dict_keys d) || String.eqb k' k).
  { intros k' d0. induction d0 as [|[k0 v0] d0 IH]; simpl.
    - now rewrite orb_false_r.
    - destruct (String.eqb k k0) eqn:E; simpl.
      + apply String.eqb_eq in E. subst.
        destruct (String.eqb k' k0); [reflexivity|]. simpl.
        now rewrite orb_false_r.
      + rewrite IH. now rewrite orb_assoc. }
  induction d as [|[k0 v0] d IH]; simpl; [reflexivity|].
  intros H. apply andb_true_iff in H as [H1 H2].
  destruct (String.eqb k k0) eqn:E; simpl.
  - apply String.eqb_eq in E. subst. now rewrite H1, H2.
  - rewrite Hmem, IH by assumption.
    apply negb_true_iff in H1. rewrite H1. simpl.
    rewrite String.eqb_sym, E. reflexivity.
Qed.

Lemma well_keyed_dict_update : forall pairs acc,
  well_keyed (PDict acc) = true ->
  forallb (fun kv => well_keyed (snd kv)) pairs = true ->
  well_keyed (PDict (dict_update acc pairs)) = true.
Proof.
  induction pairs as [|[k v] pairs IH]; intros acc Hacc Hp; [exact Hacc|].
  simpl in Hp. apply andb_true_iff in Hp as [Hv Hp].
  change (dict_update acc ((k, v) :: pairs))
    with (dict_update (dict_set k v acc) pairs).
  apply IH; [|exact Hp].
  cbn [well_keyed] in *. apply andb_true_iff in Hacc as [H1 H2].
  rewrite distinct_dict_set by exact H1.
  now rewrite DictFacts.forallb_dict_set.
Qed.

Ltac split_match H :=
  repeat match type of H with
         | context [match ?x with _ => _ end] =>
             let E := fresh "E" in destruct x eqn:E; try discriminate H
         end.

Lemma scan_well_keyed : forall fuel,
  (forall s v r, scan_once fuel s = Ok (v, r) -> well_keyed v = true)
  /\ (forall s l r, parse_elements fuel s = Ok (l, r) ->
                    forallb well_keyed l = true)
  /\ (forall s d r, parse_members fuel s = Ok (d, r) ->
                    forallb (fun kv => well_keyed (snd kv)) d = true).
Proof.
  induction fuel as [|f (IH1 & IH2 & IH3)];
    [repeat split; intros; discriminate|].
  repeat split.
  - intros s v r H. cbn [scan_once] in H.
    destruct s as [|c s]; [discriminate|].
    destruct (Ascii.eqb c dquote).
    { split_match H. now inversion H. }
    destruct (Ascii.eqb c "{").
    { destruct (expect "}" (skip_ws s)); [now inversion H|].
      destruct (parse_members f (skip_ws s)) as [[d r']|] eqn:E;
        [|discriminate].
      inversion H; subst. apply well_keyed_dict_update; [reflexivity|].
      exact (IH3 _ _ _ E). }
    destruct (Ascii.eqb c "[").
    { destruct (expect "]" (skip_ws s)); [now inversion H|].
      destruct (parse_elements f (skip_ws s)) as [[l r']|] eqn:E;
        [|discriminate].
      inversion H; subst. exact (IH2 _ _ _ E). }
    unfold match_number, a_float in H.
    split_match H; inversion H; reflexivity.
  - intros s l r H. cbn [parse_elements] in H.
    destruct (scan_once f s) as [[v r1]|] eqn:E; [|discriminate].
    pose proof (IH1 _ _ _ E) as Hv.
    destruct (skip_ws r1) as [|c r2]; [discriminate|].
    destruct (Ascii.eqb c "]"); [inversion H; subst; simpl; now rewrite Hv|].
    destruct (Ascii.eqb c ","); [|discriminate].
    destruct (parse_elements f (skip_ws r2)) as [[l' r3]|] eqn:E2;
      [|discriminate].
    inversion H; subst. simpl. rewrite Hv. exact (IH2 _ _ _ E2).
  - intros s d r H. cbn [parse_members] in H.
    destruct s as [|q s]; [discriminate|].
    destruct (Ascii.eqb q dquote); [|discriminate].
    destruct (scanstring s "") as [[key r0]|]; [|discriminate].
    destruct (expect ":" (skip_ws r0)) as [r1|]; [|discriminate].
    destruct (scan_once f (skip_ws r1)) as [[v r2]|] eqn:E; [|discriminate].
    pose proof (IH1 _ _ _ E) as Hv.
    destruct (skip_ws r2) as [|c r3]; [discriminate|].
    destruct (Ascii.eqb c "}"); [inversion H; subst; simpl; now rewrite Hv|].
    destruct (Ascii.eqb c ","); [|discriminate].
    destruct (parse_members f (skip_ws r3)) as [[l' r4]|] eqn:E2;
      [|discriminate].
    inversion H; subst. simpl. rewrite Hv. exact (IH3 _ _ _ E2).
Qed.

Lemma loads_well_keyed s v : loads s = Ok v -> well_keyed v = true.
Proof.
  unfold loads. destruct (String.prefix bom s); [discriminate|].
  destruct (scan_once _ _) as [[v' r]|] eqn:E; [|discriminate].
  destruct (skip_ws r); [|discriminate].
  intros H. inversion H; subst.
  exact (proj1 (scan_well_keyed _) _ _ _ E).
Qed.

(** *** The bytes of a text *)

Lemma urun_app a : forall st b,
  urun st (a ++ b)
  = match urun st a with Some st' => urun st' b | None => None end.
Proof.
  induction a as [|c a IH]; intros st b; simpl; [reflexivity|].
  destruct (ustep st c); [apply IH | reflexivity].
Qed.

Lemma utf8_valid_app a b :
  utf8_valid a = true -> utf8_valid (a ++ b) = utf8_valid b.
Proof.
  unfold utf8_valid. rewrite urun_app.
  destruct (urun U0 a) as [[]|]; try discriminate. reflexivity.
Qed.

Lemma utf8_valid_concat chunks :
  forallb utf8_valid chunks = true ->
  utf8_valid (String.concat "" chunks) = true.
Proof.
  induction chunks as [|c chunks IH]; [reflexivity|].
  simpl forallb. intros H. apply andb_true_iff in H as [H1 H2].
  rewrite concat_cons, utf8_valid_app by exact H1. now apply IH.
Qed.

(** [load] undoes [dump] on a value whose text can be encoded. *)
Lemma load_dump v :
  well_keyed v = true -> forallb utf8_valid (iterencode v) = true ->
  load (dump v) = Ok v.
Proof.
  intros Hwk Hu. unfold load. unfold dump at 1.
  rewrite utf8_valid_concat by exact Hu. now apply loads_dump.
Qed.

(** *** The fuel of the reader *)

Lemma skip_ws_length s : String.length (skip_ws s) <= String.length s.
Proof.
  induction s as [|c s IH]; simpl; [lia|].
  destruct (is_ws c); simpl; lia.
Qed.

Lemma expect_length w : forall s r,
  expect w s = Some r -> String.length r <= String.length s.
Proof.
  induction w as [|a w IH]; intros s r; simpl.
  - intros [= ->]. lia.
  - destruct s as [|b s]; [discriminate|].
    destruct (Ascii.eqb a b); [|discriminate].
    intros H. apply IH in H. simpl. lia.
Qed.

Lemma expect_length_lt a w s r :
  expect (String a w) s = Some r -> String.length r < String.length s.
Proof.
  simpl. destruct s as [|b s]; [discriminate|].
  destruct (Ascii.eqb a b); [|discriminate].
  intros H. apply expect_length in H. simpl. lia.
Qed.

Lemma scanstring_length : forall n s acc t r,
  String.length s <= n ->
  scanstring s acc = Ok (t, r) -> String.length r < String.length s.
Proof.
  induction n as [|n IH]; intros s acc t r Hn H.
  - destruct s; [discriminate | simpl in Hn; lia].
  - destruct s as [|c s1]; [discriminate|].
    cbn [scanstring] in H. simpl in Hn.
    destruct (Ascii.eqb c dquote); [inversion H; subst; simpl; lia|].
    destruct (Ascii.eqb c backslash).
    + destruct s1 as [|e s2]; [discriminate|].
      destruct (Ascii.eqb e "u").
      * destruct s2 as [|h1 [|h2 [|h3 [|h4 s6]]]]; try discriminate.
        destruct s6 as [|b s7]; [discriminate|].
        destruct (hex4 h1 h2 h3 h4) as [uni|]; [|discriminate].
        assert (Hs6 : forall acc',
                   scanstring (String b s7) acc' = Ok (t, r) ->
                   String.length r < String.length (String b s7)).
        { intros acc' H'. apply (IH _ acc' t r); [simpl in *; lia | exact H']. }
        destruct (is_high uni).
        -- destruct s7 as [|u [|g1 [|g2 [|g3 [|g4 [|c12 s13]]]]]];
             try (apply Hs6 in H; simpl in *; lia).
           destruct (Ascii.eqb b backslash && Ascii.eqb u "u");
             [|apply Hs6 in H; simpl in *; lia].
           destruct (hex4 g1 g2 g3 g4) as [uni2|]; [|discriminate].
           destruct (is_low uni2); [|apply Hs6 in H; simpl in *; lia].
           apply IH in H; simpl in *; lia.
        -- apply Hs6 in H. simpl in *. lia.
      * destruct (unescape e); [|discriminate].
        apply IH in H; simpl in *; lia.
    + destruct (nat_of_ascii c <? 32)%nat; [discriminate|].
      apply IH in H; simpl in *; lia.
Qed.

Ltac fuel_ok :=
  unfold err, a_float; cbn [in_fuel];
  first [exact I | discriminate | assumption].

Lemma scanstring_in_fuel : forall n s acc,
  String.length s <= n -> in_fuel (scanstring s acc).
Proof.
  induction n as [|n IH]; intros s acc Hn.
  - destruct s; [fuel_ok | simpl in Hn; lia].
  - destruct s as [|c s1]; [fuel_ok|].
    cbn [scanstring]. simpl in Hn.
    destruct (Ascii.eqb c dquote); [fuel_ok|].
    destruct (Ascii.eqb c backslash).
    + destruct s1 as [|e s2]; [fuel_ok|].
      destruct (Ascii.eqb e "u").
      * destruct s2 as [|h1 [|h2 [|h3 [|h4 s6]]]]; try fuel_ok.
        destruct s6 as [|b s7]; [fuel_ok|].
        destruct (hex4 h1 h2 h3 h4) as [uni|]; [|fuel_ok].
        assert (Hs6 : forall acc', in_fuel (scanstring (String b s7) acc')).
        { intros acc'. apply IH. simpl in *. lia. }
        destruct (is_high uni); [|apply Hs6].
        destruct s7 as [|u [|g1 [|g2 [|g3 [|g4 [|c12 s13]]]]]];
          try apply Hs6.
        destruct (Ascii.eqb b backslash && Ascii.eqb u "u"); [|apply Hs6].
        destruct (hex4 g1 g2 g3 g4) as [uni2|]; [|fuel_ok].
        destruct (is_low uni2); [|apply Hs6].
        apply IH. simpl in *. lia.
      * destruct (unescape e); [|fuel_ok].
        apply IH. simpl in *. lia.
    + destruct (nat_of_ascii c <? 32)%nat; [fuel_ok|].
      apply IH. simpl in *. lia.
Qed.

Lemma read_digits_length s :
  String.length (snd (read_digits s)) <= String.length s.
Proof.
  induction s as [|c s IH]; simpl; [lia|].
  destruct (is_digit c); [|simpl; lia].
  destruct (read_digits s) as [u r]. simpl in *. lia.
Qed.

Lemma match_number_length s v r :
  match_number s = Ok (v, r) -> String.length r < String.length s.
Proof.
  unfold match_number.
  assert (Hpos : forall s1 : string,
             match s1 with
             | EmptyString => err "Expecting value"
             | String c s2 =>
                 if is_digit c then
                   let (u, rest) :=
                     if Ascii.eqb c "0" then (Decimal.D0 Decimal.Nil, s2)
                     else read_digits s1 in
                   if float_follows rest then a_float
                   else Ok (PInt (Z.of_int (Decimal.Pos u)), rest)
                 else err "Expecting value"
             end = Ok (v, r) -> String.length r < String.length s1).
  { intros [|c s2]; [discriminate|]. destruct (is_digit c) eqn:Hd; [|discriminate].
    destruct (Ascii.eqb c "0").
    - destruct (float_follows s2); [discriminate|].
      intros [= _ <-]. simpl. lia.
    - pose proof (read_digits_length s2) as Hl.
      cbn [read_digits]. rewrite Hd.
      destruct (read_digits s2) as [u rest]. cbn [snd] in Hl.
      destruct (float_follows rest); [discriminate|].
      intros [= _ <-]. simpl. lia. }
  assert (Hneg : forall s1 : string,
             match s1 with
             | EmptyString => err "Expecting value"
             | String c s2 =>
                 if is_digit c then
                   let (u, rest) :=
                     if Ascii.eqb c "0" then (Decimal.D0 Decimal.Nil, s2)
                     else read_digits s1 in
                   if float_follows rest then a_float
                   else Ok (PInt (Z.of_int (Decimal.Neg u)), rest)
                 else err "Expecting value"
             end = Ok (v, r) -> String.length r < String.length s1).
  { intros [|c s2]; [discriminate|]. destruct (is_digit c) eqn:Hd; [|discriminate].
    destruct (Ascii.eqb c "0").
    - destruct (float_follows s2); [discriminate|].
      intros [= _ <-]. simpl. lia.
    - pose proof (read_digits_length s2) as Hl.
      cbn [read_digits]. rewrite Hd.
      destruct (read_digits s2) as [u rest]. cbn [snd] in Hl.
      destruct (float_follows rest); [discriminate|].
      intros [= _ <-]. simpl. lia. }
  destruct s as [|c s']; [discriminate|].
  destruct (Ascii.eqb c "-"); cbv beta iota.
  - intros H. apply Hneg in H. simpl. lia.
  - exact (Hpos (String c s')).
Qed.

Lemma match_number_in_fuel s : in_fuel (match_number s).
Proof.
  unfold match_number.
  destruct s as [|c s']; [fuel_ok|].
  destruct (Ascii.eqb c "-"); cbv beta iota.
  - destruct s' as [|d s2]; [fuel_ok|].
    destruct (is_digit d); [|fuel_ok].
    destruct (if Ascii.eqb d "0" then _ else _) as [u rest].
    destruct (float_follows rest); fuel_ok.
  - destruct (is_digit c); [|fuel_ok].
    destruct (if Ascii.eqb c "0" then _ else _) as [u rest].
    destruct (float_follows rest); fuel_ok.
Qed.

Lemma fuel_enough : forall fuel,
  (forall s, 2 * String.length s + 1 <= fuel ->
     in_fuel (scan_once fuel s)
     /\ forall v r, scan_once fuel s = Ok (v, r) ->
                    String.length r < String.length s)
  /\ (forall s, 2 * String.length s + 2 <= fuel ->
        in_fuel (parse_elements fuel s)
        /\ forall l r, parse_elements fuel s = Ok (l, r) ->
                       String.length r < String.length s)
  /\ (forall s, 2 * String.length s + 2 <= fuel ->
        in_fuel (parse_members fuel s)
        /\ forall l r, parse_members fuel s = Ok (l, r) ->
                       String.length r < String.length s).
Proof.
  induction fuel as [|f (IH1 & IH2 & IH3)];
    [repeat split; intros; lia|].
  assert (Hscan : forall s, 2 * String.length s + 1 <= S f ->
            in_fuel (scan_once (S f) s)
            /\ forall v r, scan_once (S f) s = Ok (v, r) ->
                           String.length r < String.length s).
  { intros s Hf. cbn [scan_once].
    destruct s as [|c s]; [split; [fuel_ok | intros; discriminate]|].
    simpl in Hf.
    destruct (Ascii.eqb c dquote).
    { pose proof (scanstring_in_fuel _ s "" (le_n _)) as Hin.
      destruct (scanstring s "") as [[t r']|e] eqn:E.
      - split; [fuel_ok|]. intros v r [= _ <-].
        apply (scanstring_length _ _ _ _ _ (le_n _)) in E. simpl. lia.
      - split; [exact Hin | intros; discriminate]. }
    pose proof (skip_ws_length s) as Hws.
    destruct (Ascii.eqb c "{").
    { destruct (expect "}" (skip_ws s)) as [rest|] eqn:Ex.
      - split; [fuel_ok|]. intros v r [= _ <-].
        apply expect_length in Ex. simpl. lia.
      - destruct (IH3 (skip_ws s)) as [Hin Hlen]; [lia|].
        destruct (parse_members f (skip_ws s)) as [[pairs r']|e] eqn:E.
        + split; [fuel_ok|]. intros v r [= _ <-].
          specialize (Hlen _ _ eq_refl). simpl. lia.
        + split; [exact Hin | intros; discriminate]. }
    destruct (Ascii.eqb c "[").
    { destruct (expect "]" (skip_ws s)) as [rest|] eqn:Ex.
      - split; [fuel_ok|]. intros v r [= _ <-].
        apply expect_length in Ex. simpl. lia.
      - destruct (IH2 (skip_ws s)) as [Hin Hlen]; [lia|].
        destruct (parse_elements f (skip_ws s)) as [[l r']|e] eqn:E.
        + split; [fuel_ok|]. intros v r [= _ <-].
          specialize (Hlen _ _ eq_refl). simpl. lia.
        + split; [exact Hin | intros; discriminate]. }
    destruct (expect "null" (String c s)) as [r1|] eqn:E1.
    { split; [fuel_ok|]. intros v r [= _ <-].
      now apply expect_length_lt in E1. }
    destruct (expect "true" (String c s)) as [r2|] eqn:E2.
    { split; [fuel_ok|]. intros v r [= _ <-].
      now apply expect_length_lt in E2. }
    destruct (expect "false" (String c s)) as [r3|] eqn:E3.
    { split; [fuel_ok|]. intros v r [= _ <-].
      now apply expect_length_lt in E3. }
    destruct (expect "NaN" (String c s));
      [split; [fuel_ok | intros; discriminate]|].
    destruct (expect "Infinity" (String c s));
      [split; [fuel_ok | intros; discriminate]|].
    destruct (expect "-Infinity" (String c s));
      [split; [fuel_ok | intros; discriminate]|].
    split; [apply match_number_in_fuel | apply match_number_length]. }
  split; [exact Hscan|]. split.
  - intros s Hf. cbn [parse_elements].
    destruct (IH1 s) as [Hin Hlen]; [lia|].
    destruct (scan_once f s) as [[v r1]|e] eqn:E;
      [|split; [exact Hin | intros; discriminate]].
    specialize (Hlen _ _ eq_refl).
    pose proof (skip_ws_length r1) as Hws.
    destruct (skip_ws r1) as [|c r2] eqn:Er;
      [split; [fuel_ok | intros; discriminate]|].
    simpl in Hws.
    destruct (Ascii.eqb c "]").
    { split; [fuel_ok|]. intros l r [= _ <-]. lia. }
    destruct (Ascii.eqb c ",");
      [|split; [fuel_ok | intros; discriminate]].
    pose proof (skip_ws_length r2) as Hws2.
    destruct (IH2 (skip_ws r2)) as [Hin2 Hlen2]; [lia|].
    destruct (parse_elements f (skip_ws r2)) as [[l' r3]|e] eqn:E2.
    + split; [fuel_ok|]. intros l r [= _ <-].
      specialize (Hlen2 _ _ eq_refl). lia.
    + split; [exact Hin2 | intros; discriminate].
  - intros s Hf. cbn [parse_members].
    destruct s as [|q s]; [split; [fuel_ok | intros; discriminate]|].
    simpl in Hf.
    destruct (Ascii.eqb q dquote);
      [|split; [fuel_ok | intros; discriminate]].
    pose proof (scanstring_in_fuel _ s "" (le_n _)) as Hin0.
    destruct (scanstring s "") as [[key r0]|e] eqn:E0;
      [|split; [exact Hin0 | intros; discriminate]].
    apply (scanstring_length _ _ _ _ _ (le_n _)) in E0.
    pose proof (skip_ws_length r0) as Hws0.
    destruct (expect ":" (skip_ws r0)) as [r1|] eqn:Ex;
      [|split; [fuel_ok | intros; discriminate]].
    apply expect_length_lt in Ex.
    pose proof (skip_ws_length r1) as Hws1.
    destruct (IH1 (skip_ws r1)) as [Hin Hlen]; [lia|].
    destruct (scan_once f (skip_ws r1)) as [[v r2]|e] eqn:E;
      [|split; [exact Hin | intros; discriminate]].
    specialize (Hlen _ _ eq_refl).
    pose proof (skip_ws_length r2) as Hws2.
    destruct (skip_ws r2) as [|c r3] eqn:Er;
      [split; [fuel_ok | intros; discriminate]|].
    simpl in Hws2.
    destruct (Ascii.eqb c "}").
    { split; [fuel_ok|]. intros l r [= _ <-]. simpl. lia. }
    destruct (Ascii.eqb c ",");
      [|split; [fuel_ok | intros; discriminate]].
    pose proof (skip_ws_length r3) as Hws3.
    destruct (IH3 (skip_ws r3)) as [Hin3 Hlen3]; [lia|].
    destruct (parse_members f (skip_ws r3)) as [[l' r4]|e] eqn:E3.
    + split; [fuel_ok|]. intros l r [= _ <-].
      specialize (Hlen3 _ _ eq_refl). simpl. lia.
    + split; [exact Hin3 | intros; discriminate].
Qed.

(** [loads] never runs out of fuel: what it answers is the answer of
    the scanner. *)
Lemma loads_in_fuel s : in_fuel (loads s).
Proof.
  unfold loads. destruct (String.prefix bom s); [fuel_ok|].
  pose proof (skip_ws_length s) as Hws.
  destruct (proj1 (fuel_enough (2 * String.length s + 2)) (skip_ws s))
    as [Hin _]; [lia|].
  destruct (scan_once _ _) as [[v rest]|e]; [|exact Hin].
  destruct (skip_ws rest); fuel_ok.
Qed.

Lemma load_in_fuel s : in_fuel (load s).
Proof.
  unfold load. destruct (utf8_valid s); [apply loads_in_fuel | fuel_ok].
Qed.

End JsonFacts.

(** ** The cache manager *)

Module CacheFacts.
Import Cache.
Import DiskFacts.
Local Open Scope py_scope.
Local Open Scope string_scope.

(** *** What a registry document looks like *)

Lemma dataset_of_inv d ds :
  dataset_of d = Some ds ->
  exists top, d = PDict top /\ dict_get "dataset" top = Some (PDict ds).
Proof.
  unfold dataset_of. destruct d as [| | | | |top]; try discriminate.
  destruct (dict_get "dataset" top) as [[| | | | |ds']|] eqn:E; try discriminate.
  intros [= ->]. eauto.
Qed.

Lemma wf_registry_inv d :
  wf_registry d = true ->
  exists top ds,
    d = PDict top /\ dict_get "dataset" top = Some (PDict ds)
    /\ dataset_of d = Some ds
    /\ forall c v, dict_get c ds = Some v ->
         exists m, v = PDict m
                   /\ forall n r, dict_get n m = Some r -> is_dict r = true.
Proof.
  unfold wf_registry. destruct (dataset_of d) as [ds|] eqn:E; [|discriminate].
  intros H. destruct (dataset_of_inv _ _ E) as [top [-> Htop]].
  exists top, ds. repeat split; auto.
  intros c v Hc. apply dict_get_in in Hc.
  rewrite forallb_forall in H. specialize (H _ Hc). simpl in H.
  destruct v as [| | | | |m]; try discriminate.
  exists m. split; [reflexivity|]. intros n r Hn. apply dict_get_in in Hn.
  rewrite forallb_forall in H. apply (H _ Hn).
Qed.

Lemma in_cat_names ds c name :
  in_cat ds c name = true ->
  exists m, dict_get c ds = Some (PDict m) /\ mem name (dict_keys m) = true.
Proof.
  unfold in_cat, names_of.
  destruct (dict_get c ds) as [[| | | | |m]|]; try discriminate. eauto.
Qed.

Lemma in_cat_key ds c name : in_cat ds c name = true -> In c (dict_keys ds).
Proof.
  intros H. destruct (in_cat_names _ _ _ H) as [m [Hm _]].
  apply mem_in. rewrite mem_keys_get, Hm. reflexivity.
Qed.

Lemma registered_iff d name :
  registered d name = true <-> exists c, in_category d c name = true.
Proof.
  unfold registered, in_category. destruct (dataset_of d) as [ds|].
  - rewrite existsb_exists. split.
    + intros [c [_ H]]. eauto.
    + intros [c H]. exists c. split; [eapply in_cat_key; eauto | assumption].
  - split; [discriminate | intros [c H]; discriminate].
Qed.

(** *** [get_category], read off the document *)

Section Lookup.
Variables (w : world) (top ds : list (string * pyval)).
Hypothesis Hdoc : data (self w) = PDict top.
Hypothesis Hds : dict_get "dataset" top = Some (PDict ds).
Hypothesis Hcats :
  forall c v, dict_get c ds = Some v -> exists m, v = PDict m.

Lemma get_category_loop_eq name categories :
  (forall c, In c categories -> In c (dict_keys ds)) ->
  get_category_loop name categories w
  = (Ok (find (fun c => in_cat ds c name) categories), w).
Proof.
  induction categories as [|c rest IH]; intros Hin; simpl; [reflexivity|].
  unfold bind, get_data, lift. rewrite Hdoc. simpl. rewrite Hds.
  destruct (in_keys_get c ds (Hin c (or_introl eq_refl))) as [v Hv].
  destruct (Hcats c v Hv) as [m ->]. simpl. rewrite Hv. simpl.
  unfold in_cat, names_of. rewrite Hv.
  destruct (mem name (dict_keys m)); [reflexivity|].
  apply IH. intros c' Hc'. apply Hin. now right.
Qed.

Lemma get_category_eq name :
  get_category name w
  = (Ok (find (fun c => in_cat ds c name) (dict_keys ds)), w).
Proof.
  unfold get_category, bind, get_data, lift. rewrite Hdoc. simpl.
  rewrite Hds. simpl. apply get_category_loop_eq. auto.
Qed.

Lemma category_of_eq name :
  category_of name w
  = match find (fun c => in_cat ds c name) (dict_keys ds) with
    | Some c =>
        match names_of ds c with
        | Some m => (Ok (Some c, PDict m), w)
        | None => (Raise (KeyError (Some c)), w)
        end
    | None => (Raise (KeyError None), w)
    end.
Proof.
  unfold category_of, bind, get_data, lift. rewrite Hdoc. simpl.
  rewrite Hds. rewrite get_category_eq.
  destruct (find _ _) as [c|] eqn:E; simpl; [|reflexivity].
  apply find_some in E as [_ E]. unfold names_of.
  destruct (in_cat_names _ _ _ E) as [m [-> _]]. reflexivity.
Qed.
End Lookup.

Lemma find_category_none ds name :
  find (fun c => in_cat ds c name) (dict_keys ds) = None
  <-> existsb (fun c => in_cat ds c name) (dict_keys ds) = false.
Proof.
  induction (dict_keys ds) as [|c l IH]; simpl; [tauto|].
  destruct (in_cat ds c name); simpl; [split; discriminate | exact IH].
Qed.


Lemma category_of_unregistered w name :
  wf_registry (data (self w)) = true ->
  registered (data (self w)) name = false ->
  category_of name w = (Raise (KeyError None), w).
Proof.
  intros Hwf Hreg.
  destruct (wf_registry_inv _ Hwf) as [top [ds [Hdoc [Hds [Hof Hrec]]]]].
  rewrite (category_of_eq w top ds Hdoc Hds).
  - unfold registered in Hreg. rewrite Hof in Hreg.
    apply find_category_none in Hreg. now rewrite Hreg.
  - intros c v Hv. destruct (Hrec c v Hv) as [m [-> _]]. eauto.
Qed.

Lemma category_of_registered w name :
  wf_registry (data (self w)) = true ->
  registered (data (self w)) name = true ->
  exists top ds c m r,
    data (self w) = PDict top
    /\ dict_get "dataset" top = Some (PDict ds)
    /\ first_category ds name = Some c
    /\ dict_get c ds = Some (PDict m)
    /\ dict_get name m = Some r
    /\ is_dict r = true
    /\ get_category name w = (Ok (Some c), w)
    /\ category_of name w = (Ok (Some c, PDict m), w).
Proof.
  intros Hwf Hreg.
  destruct (wf_registry_inv _ Hwf) as [top [ds [Hdoc [Hds [Hof Hrec]]]]].
  assert (Hcats : forall c v, dict_get c ds = Some v -> exists m, v = PDict m).
  { intros c v Hv. destruct (Hrec c v Hv) as [m [-> _]]. eauto. }
  unfold registered in Hreg. rewrite Hof in Hreg.
  destruct (find (fun c => in_cat ds c name) (dict_keys ds)) as [c|] eqn:E.
  - pose proof (find_some _ _ E) as [_ Hin].
    destruct (in_cat_names _ _ _ Hin) as [m [Hm Hmem]].
    rewrite mem_keys_get in Hmem.
    destruct (dict_get name m) as [r|] eqn:Hr; [|discriminate].
    destruct (Hrec c _ Hm) as [m' [Heq Hd]]. injection Heq as <-.
    exists top, ds, c, m, r. repeat split; auto.
    + eapply Hd; eauto.
    + rewrite (get_category_eq w top ds Hdoc Hds Hcats). now rewrite E.
    + rewrite (category_of_eq w top ds Hdoc Hds Hcats), E.
      unfold names_of. now rewrite Hm.
  - apply find_category_none in E. congruence.
Qed.

Lemma exists_dataset_eq w name :
  wf_registry (data (self w)) = true ->
  exists_dataset name w = (Ok (registered (data (self w)) name), w).
Proof.
  intros Hwf. destruct (registered (data (self w)) name) eqn:Hreg.
  - destruct (category_of_registered w name Hwf Hreg)
      as (top & ds & c & m & r & _ & _ & _ & _ & Hr & _ & _ & Hcat).
    unfold exists_dataset, catch, bind, lift. rewrite Hcat. simpl.
    rewrite mem_keys_get, Hr. reflexivity.
  - unfold exists_dataset, catch, bind.
    rewrite (category_of_unregistered w name Hwf Hreg). reflexivity.
Qed.

Lemma get_data_from_field_eq w name field :
  wf_registry (data (self w)) = true ->
  registered (data (self w)) name = true ->
  exists c r,
    get_category name w = (Ok (Some c), w)
    /\ record_of (data (self w)) c name = Some r
    /\ get_data_from_field name field w = (getitem r field, w).
Proof.
  intros Hwf Hreg.
  destruct (category_of_registered w name Hwf Hreg)
    as (top & ds & c & m & r & Hdoc & Hds & _ & Hm & Hr & _ & Hgc & Hcat).
  exists c, r. repeat split; auto.
  - unfold record_of, dataset_of, names_of. now rewrite Hdoc, Hds, Hm.
  - unfold get_data_from_field, catch, bind, lift. rewrite Hcat. simpl.
    rewrite Hr. destruct (getitem r field); reflexivity.
Qed.

(** *** C4: [get_dataset_data] *)

(** C4.  In a registry document, [get_dataset_data] on a name without a
    record raises the exception whose message names the dataset, and
    leaves the world as it was; on a registered name it returns the
    record stored under the category [get_category] finds, without
    raising. *)
Theorem get_dataset_data_spec w name :
  wf_registry (data (self w)) = true ->
  (registered (data (self w)) name = false ->
   get_dataset_data name w
   = (Raise (Exception ("Dataset " ++ name
                          ++ " does not exist in the cache file.")), w))
  /\ (registered (data (self w)) name = true ->
      exists c r,
        get_category name w = (Ok (Some c), w)
        /\ record_of (data (self w)) c name = Some r
        /\ get_dataset_data name w = (Ok r, w)).
Proof.
  intros Hwf. split; intros Hreg.
  - unfold get_dataset_data, catch, bind.
    rewrite (category_of_unregistered w name Hwf Hreg). reflexivity.
  - destruct (category_of_registered w name Hwf Hreg)
      as (top & ds & c & m & r & Hdoc & Hds & _ & Hm & Hr & _ & Hgc & Hcat).
    exists c, r. repeat split; auto.
    + unfold record_of, dataset_of, names_of. now rewrite Hdoc, Hds, Hm.
    + unfold get_dataset_data, catch, bind, lift. rewrite Hcat. simpl.
      now rewrite Hr.
Qed.


Lemma get_dataset_data_spec_witness :
  get_dataset_data "mnist" Samples.one
  = (Raise (Exception "Dataset mnist does not exist in the cache file."),
     Samples.one)
  /\ exists c r,
       get_category "m" Samples.one = (Ok (Some c), Samples.one)
       /\ record_of (data (self Samples.one)) c "m" = Some r
       /\ get_dataset_data "m" Samples.one = (Ok r, Samples.one).
Proof.
  split.
  - exact (proj1 (get_dataset_data_spec Samples.one "mnist" eq_refl) eq_refl).
  - exact (proj2 (get_dataset_data_spec Samples.one "m" eq_refl) eq_refl).
Defined.

(** *** C7: [get_dataset_storage_paths] *)

(** C7, as the claim has it, fails on an absolute name: for the
    unregistered name ["/etc"] the paths are ["/etc/cache"] and
    ["/etc/data"], and the default directory is a prefix of neither. *)
Lemma storage_paths_absolute_name :
  wf_registry (data (self Samples.fresh)) = true
  /\ registered (data (self Samples.fresh)) "/etc" = false
  /\ default_cache_dir (self Samples.fresh) = "/home/u/dbcollection"
  /\ default_data_dir (self Samples.fresh) = "/home/u/dbcollection"
  /\ get_dataset_storage_paths "/etc" Samples.fresh
     = (Ok (PDict [("cache_dir", PStr "/etc/cache");
                   ("data_dir", PStr "/etc/data")]), Samples.fresh)
  /\ String.prefix "/home/u/dbcollection" "/etc/cache" = false
  /\ String.prefix "/home/u/dbcollection" "/etc/data" = false.
Proof. vm_compute. repeat split; reflexivity. Qed.

(** C7, amended.  For a name without a record that does not start with
    the separator, [get_dataset_storage_paths] returns the default cache
    directory and the default data directory, each followed by the name
    and by ["cache"] or ["data"], with a separator wherever the text
    before is not empty and does not end in one: the default directory
    is a prefix of the path, a name that is a single component is one
    of its components, and the manager and the disk stay as they were. *)
Theorem storage_paths_default w name :
  wf_registry (data (self w)) = true ->
  registered (data (self w)) name = false ->
  startswith_sep name = false ->
  let c := with_sep (with_sep (default_cache_dir (self w)) ++ name) ++ "cache" in
  let dd := with_sep (with_sep (default_data_dir (self w)) ++ name) ++ "data" in
  get_dataset_storage_paths name w
  = (Ok (PDict [("cache_dir", PStr c); ("data_dir", PStr dd)]), w)
  /\ String.prefix (default_cache_dir (self w)) c = true
  /\ String.prefix (default_data_dir (self w)) dd = true
  /\ (plain_segment name = true ->
      In name (split_path c) /\ In name (split_path dd)).
Proof.
  intros Hwf Hreg Hrel c dd. subst c dd. repeat split.
  - unfold get_dataset_storage_paths, bind.
    rewrite (exists_dataset_eq w name Hwf), Hreg.
    unfold get_self, ret. cbv beta iota.
    rewrite !PathFacts.path_join_relative by (assumption || reflexivity).
    reflexivity.
  - apply PathFacts.prefix_joined.
  - apply PathFacts.prefix_joined.
  - now apply PathFacts.segment_of_joined.
  - now apply PathFacts.segment_of_joined.
Qed.

Lemma storage_paths_default_witness :
  get_dataset_storage_paths "mnist" Samples.one
  = (Ok (PDict [("cache_dir", PStr "/home/u/dbcollection/mnist/cache");
                ("data_dir", PStr "/home/u/dbcollection/mnist/data")]),
     Samples.one)
  /\ In "mnist" (split_path "/home/u/dbcollection/mnist/cache").
Proof.
  pose proof (storage_paths_default Samples.one "mnist"
                eq_refl eq_refl eq_refl) as (Hrun & _ & _ & Hseg).
  split; [exact Hrun | exact (proj1 (Hseg eq_refl))].
Defined.

(** *** C2: [delete_dataset] *)

(** C2, as the claim has it, fails: once ["m"] has been removed (its
    cache path is not on disk, which [delete_dataset] lets pass), a
    second [delete_dataset("m")] raises [KeyError]. *)
Lemma delete_dataset_twice_raises :
  registered (data (self Samples.one)) "m" = true
  /\ delete_dataset (codec := Json.codec) "m" false Samples.one
     = (Ok tt, Samples.removed)
  /\ registered (data (self Samples.removed)) "m" = false
  /\ delete_dataset (codec := Json.codec) "m" false Samples.removed
     = (Raise (KeyError None), Samples.removed).
Proof. vm_compute. repeat split; reflexivity. Qed.

Section Delete.
Context {codec : JsonCodec}.

Lemma delete_unregistered w name delete_data :
  wf_registry (data (self w)) = true ->
  registered (data (self w)) name = false ->
  delete_dataset name delete_data w = (Raise (KeyError None), w).
Proof.
  intros Hwf Hreg.
  unfold delete_dataset, get_dataset_storage_paths, bind.
  rewrite (exists_dataset_eq w name Hwf), Hreg. simpl.
  unfold delete_dataset_cache, bind.
  now rewrite (category_of_unregistered w name Hwf Hreg).
Qed.

End Delete.

(** C2, amended.  On a manager that holds a registry document,
    [delete_dataset] on a name without a record raises [KeyError],
    whatever [delete_data] is, and leaves the manager and the disk as
    they were: the lookup of the record fails before [os.remove] is
    reached, so a removal that is repeated raises every time. *)
Theorem delete_dataset_not_found {codec : JsonCodec} w name delete_data :
  wf_registry (data (self w)) = true ->
  registered (data (self w)) name = false ->
  delete_dataset name delete_data w = (Raise (KeyError None), w)
  /\ delete_dataset name delete_data
       (snd (delete_dataset name delete_data w))
     = (Raise (KeyError None), w).
Proof.
  intros Hwf Hreg.
  pose proof (delete_unregistered w name delete_data Hwf Hreg) as H.
  split; [exact H|]. rewrite H. exact H.
Qed.

Lemma delete_dataset_not_found_witness :
  delete_dataset (codec := Json.codec) "mnist" true Samples.one
  = (Raise (KeyError None), Samples.one)
  /\ delete_dataset (codec := Json.codec) "m" false Samples.removed
     = (Raise (KeyError None), Samples.removed).
Proof.
  split.
  - exact (proj1 (delete_dataset_not_found (codec := Json.codec)
                    Samples.one "mnist" true eq_refl eq_refl)).
  - exact (proj1 (delete_dataset_not_found (codec := Json.codec)
                    Samples.removed "m" false eq_refl eq_refl)).
Defined.


(** *** C1 and C10: [update] on a dataset that already has a record *)

Section Update.
Context {codec : JsonCodec}.

(** [write_data_cache], step by step. *)
Lemma write_data_cache_eq d fname w :
  write_data_cache d fname w
  = let filename := match fname with
                    | Some f => if String.eqb f "" then cache_fname (self w)
                                else f
                    | None => cache_fname (self w)
                    end in
    match open_for_writing (disk w) filename with
    | Raise e => (Raise e, w)
    | Ok _ =>
        let (text, complete) := encode_chunks (json_chunks d) in
        (if complete then Ok tt else Raise UnicodeEncodeError,
         with_disk w (dict_set filename (File text) (disk w)))
    end.
Proof.
  unfold write_data_cache, bind, catch, get_self, raise. cbv zeta.
  destruct (open_for_writing _ _); [|reflexivity].
  destruct (encode_chunks _) as [text []]; reflexivity.
Qed.

(** [write_data_cache] changes the file and returns or raises the
    error of the encoder, or raises the error of [open] with nothing
    changed. *)
Lemma write_data_cache_outcome d fname w :
  (exists r fs, write_data_cache d fname w = (r, with_disk w fs)
                /\ (r = Ok tt \/ r = Raise UnicodeEncodeError))
  \/ (exists errno, write_data_cache d fname w = (Raise (IOError errno), w)).
Proof.
  rewrite write_data_cache_eq. cbv zeta.
  match goal with
  | |- context [open_for_writing ?fs ?f] =>
      destruct (open_outcome fs f) as [-> | [errno ->]]
  end; [left | right; eauto].
  destruct (encode_chunks _) as [text []]; eauto.
Qed.

Lemma write_data_cache_self d fname w :
  self (snd (write_data_cache d fname w)) = self w.
Proof.
  destruct (write_data_cache_outcome d fname w)
    as [(r & fs & -> & _)|[errno ->]]; reflexivity.
Qed.

(** The record that [update] builds has no key ["cached_files"]. *)
Lemma new_info_has_no_cached_files data_dir cache_dir cache_info :
  getitem (PDict [("data_dir", data_dir); ("cache_dir", cache_dir);
                  ("cache_files", cache_info)]) "cached_files"
  = Raise (KeyError (Some "cached_files")).
Proof. reflexivity. Qed.

(** [add_data] with such a record either raises with nothing changed,
    or returns with only the document changed. *)
Lemma add_data_outcome w category name new_info :
  getitem new_info "cached_files" = Raise (KeyError (Some "cached_files")) ->
  (exists e, add_data category name new_info w = (Raise e, w))
  \/ (exists d', add_data category name new_info w = (Ok tt, with_data w d')).
Proof.
  intros Hnew. unfold add_data, bind, get_data, lift.
  destruct (data (self w)) as [| | | | |top] eqn:Hdoc;
    try (left; eexists; reflexivity).
  simpl. destruct (dict_get "dataset" top) as [ds|] eqn:Hds;
    [|left; eexists; reflexivity].
  destruct ds as [| | | | |dsl]; try (left; eexists; reflexivity).
  simpl. destruct (mem category (dict_keys dsl)) eqn:Hcat.
  - rewrite mem_keys_get in Hcat.
    destruct (dict_get category dsl) as [v|] eqn:Hv; [|discriminate].
    destruct v as [| | | | |m]; try (left; eexists; reflexivity).
    simpl. destruct (mem name (dict_keys m)) eqn:Hname.
    + rewrite mem_keys_get in Hname.
      destruct (dict_get name m) as [old|] eqn:Hold; [|discriminate].
      left. destruct (getitem old "cached_files") as [cf|e];
        [|eexists; reflexivity].
      destruct (has_update cf); [|eexists; reflexivity].
      rewrite Hnew. eexists; reflexivity.
    + right. unfold ret. rewrite Hdoc. simpl. rewrite Hds. simpl.
      rewrite Hv. simpl.
      unfold store_category, bind, get_data, lift, set_data.
      rewrite Hdoc. simpl. rewrite Hds. simpl. eexists; reflexivity.
  - right. unfold store_category, bind, get_data, lift, set_data, ret.
    rewrite Hdoc. simpl. rewrite Hds. simpl.
    rewrite !dict_get_set_same. simpl. rewrite !dict_get_set_same. simpl.
    eexists; reflexivity.
Qed.

(** [update] on a name that has a record under the category: the
    merge step raises, and nothing is stored or written. *)
Lemma update_existing w name category data_dir cache_dir cache_info :
  wf_registry (data (self w)) = true ->
  in_category (data (self w)) category name = true ->
  exists e,
    update name category data_dir cache_dir cache_info w = (Raise e, w)
    /\ (e = KeyError (Some "cached_files") \/ e = AttributeError "update").
Proof.
  intros Hwf Hin.
  destruct (wf_registry_inv _ Hwf) as (top & ds & Hdoc & Hds & Hof & Hrec).
  unfold in_category in Hin. rewrite Hof in Hin.
  destruct (in_cat_names _ _ _ Hin) as (m & Hm & Hname).
  pose proof Hname as Hname'. rewrite mem_keys_get in Hname'.
  destruct (dict_get name m) as [old|] eqn:Hold; [|discriminate].
  unfold update, add_data, bind, get_data, lift.
  rewrite Hdoc. simpl. rewrite Hds. simpl.
  assert (Hc : mem category (dict_keys ds) = true)
    by (rewrite mem_keys_get, Hm; reflexivity).
  rewrite Hc, Hm. simpl. rewrite Hname, Hold.
  destruct (getitem old "cached_files") as [cf|e] eqn:Hcf.
  - destruct cf; simpl; eauto.
  - destruct (Hrec _ _ Hm) as (m' & Heq & Hd). injection Heq as <-.
    pose proof (Hd _ _ Hold) as Hdict.
    destruct old as [| | | | |rl]; try discriminate.
    simpl in Hcf. destruct (dict_get "cached_files" rl); [discriminate|].
    injection Hcf as <-. eauto.
Qed.
End Update.

Lemma update_existing_keyerror {codec : JsonCodec}
      w name category data_dir cache_dir cache_info :
  wf_registry (data (self w)) = true ->
  in_category (data (self w)) category name = true ->
  (forall r, record_of (data (self w)) category name = Some r ->
             getitem r "cached_files" = Raise (KeyError (Some "cached_files"))) ->
  update name category data_dir cache_dir cache_info w
  = (Raise (KeyError (Some "cached_files")), w).
Proof.
  intros Hwf Hin Hrec.
  destruct (wf_registry_inv _ Hwf) as (top & ds & Hdoc & Hds & Hof & _).
  unfold in_category in Hin. rewrite Hof in Hin.
  destruct (in_cat_names _ _ _ Hin) as (m & Hm & Hname).
  pose proof Hname as Hname'. rewrite mem_keys_get in Hname'.
  destruct (dict_get name m) as [old|] eqn:Hold; [|discriminate].
  specialize (Hrec old). unfold record_of, names_of in Hrec.
  rewrite Hof, Hm in Hrec. specialize (Hrec Hold).
  unfold update, add_data, bind, get_data, lift.
  rewrite Hdoc. simpl. rewrite Hds. simpl.
  assert (Hc : mem category (dict_keys ds) = true)
    by (rewrite mem_keys_get, Hm; reflexivity).
  rewrite Hc, Hm. simpl. now rewrite Hname, Hold, Hrec.
Qed.

(** C1.  The merge of [add_data] is never carried out by [update]: when
    the name already has a record under the category, the call raises
    and the document and the registry file stay as they were, so the
    new [cache_files] are not merged in.  The exception is the lookup of
    ["cached_files"], a key that the record built by [update] never has
    (it stores ["cache_files"]); on a stored record whose
    ["cached_files"] is no dictionary the call raises [AttributeError]
    at [cache_files.update] instead. *)
Theorem update_existing_raises {codec : JsonCodec}
        w name category data_dir cache_dir cache_info :
  wf_registry (data (self w)) = true ->
  in_category (data (self w)) category name = true ->
  (exists e,
      update name category data_dir cache_dir cache_info w = (Raise e, w)
      /\ (e = KeyError (Some "cached_files") \/ e = AttributeError "update"))
  /\ ((forall r, record_of (data (self w)) category name = Some r ->
                 getitem r "cached_files"
                 = Raise (KeyError (Some "cached_files"))) ->
      update name category data_dir cache_dir cache_info w
      = (Raise (KeyError (Some "cached_files")), w)).
Proof.
  intros Hwf Hin. split.
  - now apply update_existing.
  - now apply update_existing_keyerror.
Qed.

(** The second of two calls for the same dataset, the first with
    [{"train": ..}], the second with [{"test": ..}]: it raises, and the
    record still has the first call's files only. *)
Lemma update_existing_raises_witness :
  update (codec := Json.codec) "m" "cat" (PStr "/d") (PStr "/c")
         (PDict [("test", PStr "/c/test.bin")]) Samples.one
  = (Raise (KeyError (Some "cached_files")), Samples.one)
  /\ get_cache_path "m" "test" Samples.one
     = (Raise (KeyError (Some "test")), Samples.one).
Proof.
  split.
  - apply (update_existing_raises (codec := Json.codec)
             Samples.one "m" "cat" (PStr "/d") (PStr "/c")
             (PDict [("test", PStr "/c/test.bin")]) eq_refl eq_refl).
    intros r Hr. vm_compute in Hr. injection Hr as <-. reflexivity.
  - reflexivity.
Defined.

(** C10.  When [update] raises a [KeyError], the manager and the disk
    are as before the call: the lookup that fails comes before the first
    assignment to the document and before [write_data_cache]. *)
Theorem update_keyerror_atomic {codec : JsonCodec}
        w w' name category data_dir cache_dir cache_info k :
  update name category data_dir cache_dir cache_info w
  = (Raise (KeyError k), w') ->
  w' = w.
Proof.
  unfold update, bind.
  destruct (add_data_outcome w category name _
              (new_info_has_no_cached_files data_dir cache_dir cache_info))
    as [[e He]|[d' Hd']].
  - rewrite He. now intros [= _ <-].
  - rewrite Hd'. unfold get_data.
    destruct (write_data_cache_outcome (data (self (with_data w d'))) None
                (with_data w d')) as [(r & fs & Hw & [-> | ->])|[errno Hw]];
      rewrite Hw; discriminate.
Qed.

Lemma update_keyerror_atomic_witness :
  snd (update (codec := Json.codec) "m" "cat" (PStr "/d") (PStr "/c")
              (PDict [("test", PStr "/c/test.bin")]) Samples.one)
  = Samples.one.
Proof.
  apply (update_keyerror_atomic (codec := Json.codec) Samples.one _
           "m" "cat" (PStr "/d") (PStr "/c")
           (PDict [("test", PStr "/c/test.bin")]) (Some "cached_files")).
  reflexivity.
Defined.


(** *** C3: names and categories under sequences of [update] *)

Lemma in_category_insert d ds c n r c' n' :
  dataset_of d = Some ds ->
  in_category (insert_record d c n r) c' n'
  = (String.eqb c' c && String.eqb n' n) || in_category d c' n'.
Proof.
  intros Hof. destruct (dataset_of_inv _ _ Hof) as (top & -> & Hds).
  unfold in_category. rewrite Hof. unfold insert_record. rewrite Hds.
  unfold dataset_of. rewrite dict_get_set_same. unfold in_cat, names_of.
  rewrite dict_get_set.
  destruct (String.eqb_spec c' c) as [->|Hne]; simpl; [|reflexivity].
  destruct (dict_get c ds) as [[| | | | |m]|];
    rewrite mem_keys_set; simpl; try reflexivity;
    now rewrite orb_false_r.
Qed.

Lemma wf_registry_insert d c n r :
  wf_registry d = true -> is_dict r = true ->
  wf_registry (insert_record d c n r) = true.
Proof.
  intros Hwf Hr.
  destruct (wf_registry_inv _ Hwf) as (top & ds & -> & Hds & Hof & Hrec).
  unfold wf_registry in *. rewrite Hof in Hwf.
  unfold insert_record. rewrite Hds. unfold dataset_of.
  rewrite dict_get_set_same.
  apply forallb_dict_set; [assumption|]. simpl.
  apply forallb_dict_set; [|assumption].
  unfold names_of. destruct (dict_get c ds) as [v|] eqn:Hv; [|reflexivity].
  destruct (Hrec _ _ Hv) as (m & -> & Hm).
  apply forallb_forall. intros [n0 r0] Hin. simpl.
  rewrite forallb_forall in Hwf. apply dict_get_in in Hv.
  specialize (Hwf _ Hv). simpl in Hwf. rewrite forallb_forall in Hwf.
  apply (Hwf _ Hin).
Qed.

Section Sequences.
Context {codec : JsonCodec}.

Lemma add_data_new w category name new_info :
  wf_registry (data (self w)) = true ->
  in_category (data (self w)) category name = false ->
  add_data category name new_info w
  = (Ok tt, with_data w (insert_record (data (self w)) category name new_info)).
Proof.
  intros Hwf Hin.
  destruct (wf_registry_inv _ Hwf) as (top & ds & Hdoc & Hds & Hof & Hrec).
  unfold in_category in Hin. rewrite Hof in Hin.
  unfold in_cat, names_of in Hin.
  unfold add_data, bind, get_data, lift. rewrite Hdoc. simpl.
  rewrite Hds. simpl. unfold names_of.
  rewrite mem_keys_get.
  destruct (dict_get category ds) as [v|] eqn:Hv.
  - destruct (Hrec _ _ Hv) as (m & -> & _). simpl. rewrite Hin.
    unfold ret. rewrite Hdoc. simpl. rewrite Hds. simpl. rewrite Hv. simpl.
    unfold store_category, bind, get_data, lift, set_data.
    rewrite Hdoc. simpl. rewrite Hds. reflexivity.
  - unfold store_category, bind, get_data, lift, set_data, ret.
    rewrite Hdoc. simpl. rewrite Hds. simpl.
    rewrite !dict_get_set_same. simpl. rewrite !dict_get_set_same. simpl.
    now rewrite !dict_set_set.
Qed.

(** The document after [update], in a registry document: as it was
    when the name has a record under the category, with the new record
    otherwise, whether or not the file could be written. *)
Lemma update_data w name category data_dir cache_dir cache_info :
  wf_registry (data (self w)) = true ->
  data (self (snd (update name category data_dir cache_dir cache_info w)))
  = if in_category (data (self w)) category name
    then data (self w)
    else insert_record (data (self w)) category name
           (PDict [("data_dir", data_dir); ("cache_dir", cache_dir);
                   ("cache_files", cache_info)]).
Proof.
  intros Hwf. destruct (in_category (data (self w)) category name) eqn:Hin.
  - destruct (update_existing w name category data_dir cache_dir cache_info
                Hwf Hin) as (e & -> & _). reflexivity.
  - unfold update, bind. rewrite (add_data_new w _ _ _ Hwf Hin).
    unfold get_data.
    match goal with
    | |- context [write_data_cache ?d None ?w1] =>
        destruct (write_data_cache_outcome d None w1)
          as [(r & fs & -> & _)|[errno ->]]
    end; reflexivity.
Qed.

Lemma call_update_step cat_of u w :
  wf_registry (data (self w)) = true ->
  sorted_by cat_of (data (self w)) ->
  u_category u = cat_of (u_name u) ->
  let d' := data (self (snd (call_update u w))) in
  wf_registry d' = true
  /\ sorted_by cat_of d'
  /\ in_category d' (u_category u) (u_name u) = true
  /\ (forall c n, in_category (data (self w)) c n = true ->
                  in_category d' c n = true).
Proof.
  intros Hwf Hs Hu d'. subst d'. unfold call_update.
  rewrite (update_data w _ _ _ _ _ Hwf).
  destruct (in_category (data (self w)) (u_category u) (u_name u)) eqn:Hin.
  - repeat split; auto.
  - destruct (wf_registry_inv _ Hwf) as (top & ds & _ & _ & Hof & _).
    repeat split.
    + now apply wf_registry_insert.
    + intros c n. rewrite (in_category_insert _ ds) by assumption.
      intros H. apply orb_prop in H as [H|H]; [|now apply Hs].
      apply andb_prop in H as [Hc Hn].
      apply String.eqb_eq in Hc, Hn. subst. assumption.
    + rewrite (in_category_insert _ ds) by assumption.
      now rewrite !String.eqb_refl.
    + intros c n H. rewrite (in_category_insert _ ds) by assumption.
      rewrite H. apply orb_true_r.
Qed.

Lemma run_updates_invariant cat_of calls w :
  wf_registry (data (self w)) = true ->
  sorted_by cat_of (data (self w)) ->
  (forall u, In u calls -> u_category u = cat_of (u_name u)) ->
  let d' := data (self (run_updates calls w)) in
  wf_registry d' = true
  /\ sorted_by cat_of d'
  /\ (forall c n, in_category (data (self w)) c n = true ->
                  in_category d' c n = true)
  /\ (forall u, In u calls ->
                in_category d' (u_category u) (u_name u) = true).
Proof.
  revert w. induction calls as [|u rest IH]; intros w Hwf Hs Hcalls; simpl.
  - repeat split; auto; intros u [].
  - destruct (call_update_step cat_of u w Hwf Hs)
      as (Hwf1 & Hs1 & Hin1 & Hmono1); [apply Hcalls; now left|].
    destruct (IH _ Hwf1 Hs1) as (Hwf2 & Hs2 & Hmono2 & Hin2);
      [intros u' Hu'; apply Hcalls; now right|].
    repeat split; auto.
    intros u' [<-|Hu']; auto.
Qed.

Lemma get_category_sorted cat_of w c n :
  wf_registry (data (self w)) = true ->
  sorted_by cat_of (data (self w)) ->
  in_category (data (self w)) c n = true ->
  get_category n w = (Ok (Some c), w).
Proof.
  intros Hwf Hs Hin.
  assert (Hreg : registered (data (self w)) n = true)
    by (apply registered_iff; eauto).
  destruct (category_of_registered w n Hwf Hreg)
    as (top & ds & c0 & m & r & Hdoc & Hds & Hfirst & Hm & Hr & _ & Hgc & _).
  rewrite Hgc. replace c0 with c; [reflexivity|].
  rewrite (Hs _ _ Hin). symmetry. apply Hs.
  unfold in_category, dataset_of. rewrite Hdoc, Hds.
  unfold in_cat, names_of. rewrite Hm, mem_keys_get, Hr. reflexivity.
Qed.
End Sequences.

(** C3, as the claim has it, fails: [update] never looks for the name
    under another category.  After [update("m", "cat", ..)] and
    [update("m", "cat2", ..)], both of which return, ["m"] has a record
    under both categories, and [get_category] answers the first one. *)
Lemma update_two_categories :
  fst (update (codec := Json.codec) "m" "cat" (PStr "/d") (PStr "/c")
              (PDict [("train", PStr "/c/train.bin")]) Samples.fresh) = Ok tt
  /\ update (codec := Json.codec) "m" "cat2" (PStr "/d") (PStr "/c")
            (PDict [("test", PStr "/c/test.bin")]) Samples.one
     = (Ok tt, Samples.two_cats)
  /\ in_category (data (self Samples.two_cats)) "cat" "m" = true
  /\ in_category (data (self Samples.two_cats)) "cat2" "m" = true
  /\ ~ unique_names (data (self Samples.two_cats))
  /\ get_category "m" Samples.two_cats = (Ok (Some "cat"), Samples.two_cats).
Proof.
  repeat split; try (vm_compute; reflexivity).
  intros H. specialize (H "cat" "cat2" "m" eq_refl eq_refl). discriminate H.
Qed.

(** C3, amended.  Take any assignment [cat_of] of a category to every
    dataset name, a registry document that follows it, and any sequence
    of calls of [update] each of which passes its name with the category
    [cat_of] gives it.  After the calls (each run on the world the one
    before left) no name has a record under two categories, and for
    every call of the sequence [get_category] returns the category that
    call passed. *)
Theorem update_sequence_categories {codec : JsonCodec}
        (cat_of : string -> string) calls w :
  wf_registry (data (self w)) = true ->
  (forall c n, in_category (data (self w)) c n = true -> c = cat_of n) ->
  (forall u, In u calls -> u_category u = cat_of (u_name u)) ->
  let w' := run_updates calls w in
  unique_names (data (self w'))
  /\ forall u, In u calls ->
       get_category (u_name u) w' = (Ok (Some (u_category u)), w').
Proof.
  intros Hwf Hs Hcalls w'.
  destruct (run_updates_invariant cat_of calls w Hwf Hs Hcalls)
    as (Hwf' & Hs' & _ & Hin').
  split.
  - intros c1 c2 n H1 H2. rewrite (Hs' _ _ H1), (Hs' _ _ H2). reflexivity.
  - intros u Hu. apply (get_category_sorted cat_of); auto.
Qed.


Lemma update_sequence_categories_witness :
  let w' := run_updates (codec := Json.codec) Samples.calls Samples.fresh in
  unique_names (data (self w'))
  /\ get_category "m" w' = (Ok (Some "cat"), w')
  /\ get_category "n" w' = (Ok (Some "cat2"), w').
Proof.
  assert (H1 : forall c n,
             in_category (data (self Samples.fresh)) c n = true ->
             c = Samples.cat_of n)
    by (intros c n H; vm_compute in H; discriminate H).
  assert (H2 : forall u, In u Samples.calls ->
                         u_category u = Samples.cat_of (u_name u))
    by (intros u [<-|[<-|[<-|[]]]]; reflexivity).
  destruct (update_sequence_categories (codec := Json.codec)
              Samples.cat_of Samples.calls Samples.fresh eq_refl H1 H2)
    as [Huniq Hget].
  split; [exact Huniq|]. split.
  - apply (Hget Samples.call_m_train). simpl. auto.
  - apply (Hget Samples.call_n). simpl. auto.
Defined.

(** *** C9: [change_field] *)

Lemma get_category_loop_pure name categories w :
  snd (get_category_loop name categories w) = w.
Proof.
  induction categories as [|c rest IH]; simpl; [reflexivity|].
  unfold bind, get_data, lift.
  destruct (getitem (data (self w)) "dataset") as [ds|]; [|reflexivity].
  destruct (getitem ds c) as [v|]; [|reflexivity].
  destruct (keys v) as [ks|]; [|reflexivity].
  destruct (mem name ks); [reflexivity | exact IH].
Qed.

Lemma category_of_pure name w : snd (category_of name w) = w.
Proof.
  unfold category_of, get_category, bind, get_data, lift.
  destruct (getitem (data (self w)) "dataset") as [ds|]; [|reflexivity].
  destruct (keys ds) as [cats|]; [|reflexivity].
  pose proof (get_category_loop_pure name cats w) as H.
  destruct (get_category_loop name cats w) as [[c|e] w1]; simpl in H; subst w1;
    [|reflexivity].
  destruct (getitem_opt ds c); reflexivity.
Qed.

Lemma store_category_disk c v w : disk (snd (store_category c v w)) = disk w.
Proof.
  unfold store_category, bind, get_data, lift, set_data.
  destruct (getitem (data (self w)) "dataset") as [ds|]; [|reflexivity].
  destruct (setitem ds c v) as [ds'|]; [|reflexivity].
  destruct (setitem (data (self w)) "dataset" ds'); reflexivity.
Qed.

(** [change_field] never touches the disk, whatever it is called on. *)
Lemma change_field_disk name field val w :
  disk (snd (change_field name field val w)) = disk w.
Proof.
  unfold change_field, catch, bind, lift.
  pose proof (category_of_pure name w) as H.
  destruct (category_of name w) as [[cv|e] w1]; simpl in H; subst w1;
    [|reflexivity].
  destruct (getitem (snd cv) name) as [r|]; [|reflexivity].
  destruct (setitem r field val) as [r'|]; [|reflexivity].
  destruct (setitem (snd cv) name r') as [v'|]; [|reflexivity].
  destruct (fst cv) as [c|]; simpl; [|reflexivity].
  pose proof (store_category_disk c v' w) as Hs.
  destruct (store_category c v' w) as [[u|e] w1]; exact Hs.
Qed.

Lemma find_pointwise {A} (f g : A -> bool) l :
  (forall a, f a = g a) -> find f l = find g l.
Proof.
  intros H. induction l as [|a l IH]; simpl; [reflexivity|].
  now rewrite H, IH.
Qed.

(** On a registered name [change_field] returns, and the field then
    reads as the new value. *)
Lemma change_field_registered name field val w :
  wf_registry (data (self w)) = true ->
  registered (data (self w)) name = true ->
  exists d',
    change_field name field val w = (Ok tt, with_data w d')
    /\ get_data_from_field name field (with_data w d')
       = (Ok val, with_data w d').
Proof.
  intros Hwf Hreg.
  destruct (wf_registry_inv _ Hwf) as (top0 & ds0 & Hdoc0 & Hds0 & _ & Hrec).
  destruct (category_of_registered w name Hwf Hreg)
    as (top & ds & c & m & r & Hdoc & Hds & Hfirst & Hm & Hr & Hdict
        & _ & Hcat).
  assert (top0 = top) as -> by congruence.
  assert (ds0 = ds) as -> by congruence.
  destruct r as [| | | | |rl]; try discriminate.
  set (m' := dict_set name (PDict (dict_set field val rl)) m).
  set (ds' := dict_set c (PDict m') ds).
  set (top' := dict_set "dataset" (PDict ds') top).
  exists (PDict top'). split.
  - unfold change_field, catch, bind, lift. rewrite Hcat. simpl.
    rewrite Hr. simpl.
    unfold store_category, bind, get_data, lift, set_data.
    rewrite Hdoc. simpl. rewrite Hds. reflexivity.
  - assert (Hcats' : forall c0 v, dict_get c0 ds' = Some v ->
                                  exists m0, v = PDict m0).
    { intros c0 v. unfold ds'. rewrite dict_get_set.
      destruct (String.eqb c0 c); [intros [= <-]; eauto|].
      intros Hv. destruct (Hrec _ _ Hv) as (m0 & -> & _). eauto. }
    assert (Hin : forall c0, in_cat ds' c0 name = in_cat ds c0 name).
    { intros c0. unfold in_cat, names_of, ds'. rewrite dict_get_set.
      destruct (String.eqb_spec c0 c) as [->|]; [|reflexivity].
      rewrite Hm. unfold m'. rewrite mem_keys_set, String.eqb_refl.
      now rewrite mem_keys_get, Hr. }
    assert (Hkeys : dict_keys ds' = dict_keys ds).
    { apply dict_keys_set_present. now rewrite mem_keys_get, Hm. }
    unfold get_data_from_field, catch, bind, lift.
    rewrite (category_of_eq (with_data w (PDict top')) top' ds' eq_refl
               (dict_get_set_same _ _ _) Hcats').
    rewrite Hkeys, (find_pointwise _ _ _ Hin).
    unfold first_category in Hfirst. rewrite Hfirst.
    unfold names_of, ds'. rewrite dict_get_set_same. simpl.
    unfold m'. rewrite dict_get_set_same. simpl.
    now rewrite dict_get_set_same.
Qed.

(** C9.  [change_field] leaves the disk as it was, whatever the
    outcome; on a registered name of a registry document it returns,
    only the document of the manager differs afterwards, the field
    reads as the new value, and the registry file still has the text it
    had before the call. *)
Theorem change_field_in_memory_only name field val w :
  disk (snd (change_field name field val w)) = disk w
  /\ (wf_registry (data (self w)) = true ->
      registered (data (self w)) name = true ->
      exists d',
        change_field name field val w = (Ok tt, with_data w d')
        /\ get_data_from_field name field (with_data w d')
           = (Ok val, with_data w d')
        /\ read_file (disk (with_data w d')) (cache_fname (self (with_data w d')))
           = read_file (disk w) (cache_fname (self w))).
Proof.
  split; [apply change_field_disk|].
  intros Hwf Hreg.
  destruct (change_field_registered name field val w Hwf Hreg)
    as (d' & Hrun & Hget).
  exists d'. repeat split; assumption.
Qed.

Lemma change_field_in_memory_only_witness :
  exists d',
    change_field "m" "data_dir" (PStr "/elsewhere") Samples.one
    = (Ok tt, with_data Samples.one d')
    /\ get_data_from_field "m" "data_dir" (with_data Samples.one d')
       = (Ok (PStr "/elsewhere"), with_data Samples.one d')
    /\ read_file (disk (with_data Samples.one d'))
                 (cache_fname (self (with_data Samples.one d')))
       = read_file (disk Samples.one) (cache_fname (self Samples.one)).
Proof.
  exact (proj2 (change_field_in_memory_only "m" "data_dir" (PStr "/elsewhere")
                  Samples.one) eq_refl eq_refl).
Defined.

(** What [update] writes when it returns: the document of the manager,
    serialised, in the registry file. *)
Lemma update_persists {codec : JsonCodec}
      w w' name category data_dir cache_dir cache_info :
  update name category data_dir cache_dir cache_info w = (Ok tt, w') ->
  read_file (disk w') (cache_fname (self w'))
  = Ok (json_dump (data (self w'))).
Proof.
  unfold update, bind.
  destruct (add_data_outcome w category name _
              (new_info_has_no_cached_files data_dir cache_dir cache_info))
    as [[e He]|[d' Hd']].
  - rewrite He. discriminate.
  - rewrite Hd'. unfold get_data. rewrite write_data_cache_eq. cbv zeta.
    destruct (open_for_writing _ _); [|discriminate].
    destruct (encode_chunks _) as [text []] eqn:E; [|discriminate].
    intros [= <-]. cbn [disk self with_disk with_data cache_fname data].
    rewrite (read_file_found _ _ text) by apply dict_get_set_same.
    unfold json_dump. now rewrite (encode_chunks_text _ _ E).
Qed.

(** *** C5: [read_data_cache] and [write_data_cache] *)

(** C5, as the claim has it, fails.  The registry file of
    [Samples.escaped] holds a path written with the escape of a lone
    surrogate; [read_data_cache] returns the document, and
    [write_data_cache] on that document raises [UnicodeEncodeError]
    when the text with the surrogate is to be encoded, leaving the file
    with what was written before it, which [read_data_cache] can no
    longer read. *)
Lemma persist_surrogate_raises :
  read_data_cache (codec := Json.codec) Samples.escaped
  = (Ok (data (self Samples.escaped)), Samples.escaped)
  /\ write_data_cache (codec := Json.codec)
       (data (self Samples.escaped)) None Samples.escaped
     = (Raise UnicodeEncodeError, Samples.escaped_cut)
  /\ read_file (disk Samples.escaped_cut) "/home/u/.dbcollection.json"
     = Ok Samples.escaped_prefix
  /\ fst (read_data_cache (codec := Json.codec) Samples.escaped_cut)
     = Raise (ValueError "Expecting value").
Proof. vm_compute. repeat split; reflexivity. Qed.

(** C5, amended.  When [read_data_cache] returns the document [d] from
    the registry file that exists and every text of [d] can be encoded
    (none has a lone surrogate), then [write_data_cache(d)] returns,
    changes nothing of the manager, and [read_data_cache] returns [d]
    again.  The codec is the one of the Python library, over the
    values without floats. *)
Theorem persist_load_roundtrip w d :
  path_exists (disk w) (cache_fname (self w)) = true ->
  fst (read_data_cache (codec := Json.codec) w) = Ok d ->
  Json.encodable d = true ->
  exists w',
    write_data_cache (codec := Json.codec) d None w = (Ok tt, w')
    /\ self w' = self w
    /\ read_data_cache (codec := Json.codec) w' = (Ok d, w').
Proof.
  intros Hex Hread Henc.
  unfold read_data_cache, bind, get_self, os_path_exists in Hread.
  cbn [fst] in Hread. rewrite Hex in Hread.
  unfold read_data_cache_file, catch, bind, get_self, lift, raise in Hread.
  destruct (read_file (disk w) (cache_fname (self w))) as [text|] eqn:E;
    [|discriminate].
  cbn [json_load Json.codec] in Hread.
  destruct (Json.load text) as [d0|] eqn:Hload; [|discriminate].
  cbn [fst] in Hread. injection Hread as ->.
  apply read_file_ok in E.
  assert (Hwk : well_keyed d = true).
  { unfold Json.load in Hload.
    destruct (utf8_valid text); [|discriminate].
    exact (JsonFacts.loads_well_keyed _ _ Hload). }
  eexists. split; [|split].
  - rewrite write_data_cache_eq. cbv zeta.
    rewrite (open_file _ _ _ E).
    cbn [json_chunks Json.codec].
    rewrite (encode_chunks_complete _ Henc). reflexivity.
  - reflexivity.
  - unfold read_data_cache, bind, get_self, os_path_exists.
    cbn [disk self with_disk].
    rewrite (path_exists_found _ _ _ (dict_get_set_same _ _ _)).
    unfold read_data_cache_file, catch, bind, get_self, lift, raise.
    cbn [disk self with_disk].
    rewrite (read_file_found _ _ _ (dict_get_set_same _ _ _)).
    cbn [json_load Json.codec].
    change (String.concat "" (Json.iterencode d)) with (Json.dump d).
    now rewrite (JsonFacts.load_dump d Hwk Henc).
Qed.

Lemma persist_load_roundtrip_witness :
  exists w',
    write_data_cache (codec := Json.codec) (data (self Samples.one)) None
                     Samples.one = (Ok tt, w')
    /\ self w' = self Samples.one
    /\ read_data_cache (codec := Json.codec) w'
       = (Ok (data (self Samples.one)), w').
Proof.
  apply (persist_load_roundtrip Samples.one (data (self Samples.one))).
  - reflexivity.
  - vm_compute. reflexivity.
  - vm_compute. reflexivity.
Defined.

End CacheFacts.

(** ** The dataset loader *)

Module LoaderFacts.
Import Loader.
Local Open Scope string_scope.

Lemma translate_index_nat len n :
  (n < len)%nat -> translate_index len (Z.of_nat n) = Some n.
Proof.
  intros H. unfold translate_index.
  destruct (Z.ltb_spec (Z.of_nat n) 0); [lia|].
  destruct (Z.leb_spec 0 (Z.of_nat n)); [|lia].
  destruct (Z.ltb_spec (Z.of_nat n) (Z.of_nat len)); [|lia].
  simpl. now rewrite Nat2Z.id.
Qed.

Lemma translate_index_range len z :
  (0 <= z < Z.of_nat len)%Z -> translate_index len z = Some (Z.to_nat z).
Proof.
  intros H. unfold translate_index.
  destruct (Z.ltb_spec z 0); [lia|].
  destruct (Z.leb_spec 0 z); [|lia].
  destruct (Z.ltb_spec z (Z.of_nat len)); [|lia].
  reflexivity.
Qed.

Lemma array_index_nat l n x :
  nth_error l n = Some x -> array_index (NArr l) (Z.of_nat n) = Ok x.
Proof.
  intros H. unfold array_index.
  rewrite translate_index_nat by (apply nth_error_Some; congruence).
  now rewrite H.
Qed.

Lemma column_getitem ld dir_path f col :
  column ld dir_path f = Some col ->
  file_getitem ld (dir_path ++ f) = Ok (H5Dataset (NArr col)).
Proof.
  unfold column.
  destruct (file_getitem ld (dir_path ++ f)) as [[|[| |l]]|]; try discriminate.
  now intros [= ->].
Qed.

(** The inner loop on a valid row computes the tuple of the
    specification, one value per field. *)
Lemma object_data_valid ld dir_path fields :
  forall pre suf,
    ids_in_range ld dir_path fields suf = true ->
    exists t,
      spec_tuple ld dir_path fields suf = Some t
      /\ length t = length fields
      /\ object_data ld dir_path (NArr (pre ++ suf)%list) (length pre) fields
         = Ok t.
Proof.
  induction fields as [|f fs IH]; intros pre suf Hv.
  - exists []. auto.
  - simpl in Hv. cbn [spec_tuple object_data].
    destruct suf as [|[pos| |] rest]; try discriminate.
    destruct (column ld dir_path f) as [col|] eqn:Hcol; [|discriminate].
    apply andb_prop in Hv as [Hv Hrest]. apply andb_prop in Hv as [Hlo Hhi].
    apply Z.leb_le in Hlo. apply Z.ltb_lt in Hhi.
    destruct (nth_error col (Z.to_nat pos)) as [x|] eqn:Hx;
      [|apply nth_error_None in Hx; lia].
    destruct (IH (pre ++ [NInt pos])%list rest Hrest) as (t & Hspec & Hlen & Hrun).
    exists (x :: t). rewrite Hspec. repeat split; [simpl; now rewrite Hlen|].
    rewrite (column_getitem _ _ _ _ Hcol). unfold rbind at 1.
    rewrite (array_index_nat _ _ (NInt pos))
      by (rewrite nth_error_app2, Nat.sub_diag by lia; reflexivity).
    unfold rbind at 1. simpl as_index. unfold rbind at 1.
    unfold dataset_at, array_index.
    rewrite translate_index_range, Hx by lia. unfold rbind at 1.
    rewrite <- app_assoc, length_app, Nat.add_1_r in Hrun. simpl in Hrun.
    now rewrite Hrun.
Qed.


(** One round of the outer loop on a valid row. *)
Lemma object_output_valid ld dir_path fields rows i ids rest :
  column ld dir_path "object_ids" = Some rows ->
  nth_error rows i = Some (NArr ids) ->
  ids_in_range ld dir_path fields ids = true ->
  exists t,
    spec_tuple ld dir_path fields ids = Some t
    /\ length t = length fields
    /\ object_output ld dir_path (dir_path ++ "object_ids") fields
                     (Z.of_nat i :: rest)
       = rbind (object_output ld dir_path (dir_path ++ "object_ids")
                              fields rest)
               (fun output => Ok (t :: output)).
Proof.
  intros Hcol Hrow Hv.
  destruct (object_data_valid ld dir_path fields [] ids Hv)
    as (t & Hspec & Hlen & Hrun).
  exists t. repeat split; auto.
  cbn [object_output]. rewrite (column_getitem _ _ _ _ Hcol).
  unfold rbind at 1. unfold dataset_at.
  rewrite (array_index_nat _ _ _ Hrow). unfold rbind at 1.
  simpl in Hrun. now rewrite Hrun.
Qed.

(** *** C6: the shape of what [object] returns *)

(** C6.  Let the loader have its field list, the set an [object_ids]
    array, and the rows [i] and [j] of it be valid for the field list.
    With [is_value] set, [object] on the list [[i]] returns the tuple of
    row [i] itself, a list with one value per field and not a list
    holding that list, and on the list [[i, j]] it returns the list of
    the two tuples, row [i] first. *)
Theorem object_return_shape ld set_name fields rows i j ids_i ids_j :
  let dir_path := root_path ld ++ set_name ++ "/" in
  object_fields ld = Some fields ->
  column ld dir_path "object_ids" = Some rows ->
  nth_error rows i = Some (NArr ids_i) ->
  nth_error rows j = Some (NArr ids_j) ->
  ids_in_range ld dir_path fields ids_i = true ->
  ids_in_range ld dir_path fields ids_j = true ->
  exists ti tj,
    spec_tuple ld dir_path fields ids_i = Some ti
    /\ spec_tuple ld dir_path fields ids_j = Some tj
    /\ length ti = length fields
    /\ length tj = length fields
    /\ object ld set_name (IdxList [Z.of_nat i]) true
       = Ok (LList (map LArr ti))
    /\ object ld set_name (IdxList [Z.of_nat i]) true
       <> Ok (LList [LList (map LArr ti)])
    /\ object ld set_name (IdxList [Z.of_nat i; Z.of_nat j]) true
       = Ok (LList [LList (map LArr ti); LList (map LArr tj)]).
Proof.
  intros dir_path Hf Hcol Hi Hj Hvi Hvj.
  destruct (object_output_valid ld dir_path fields rows i ids_i []
              Hcol Hi Hvi) as (ti & Hsi & Hli & Hri).
  destruct (object_output_valid ld dir_path fields rows i ids_i [Z.of_nat j]
              Hcol Hi Hvi) as (ti' & Hsi' & _ & Hrij).
  destruct (object_output_valid ld dir_path fields rows j ids_j []
              Hcol Hj Hvj) as (tj & Hsj & Hlj & Hrj).
  assert (ti' = ti) as -> by congruence.
  assert (Hone : object ld set_name (IdxList [Z.of_nat i]) true
                 = Ok (LList (map LArr ti))).
  { unfold object, get_object_fields. rewrite Hf. simpl negb. cbv iota.
    unfold rbind at 1. fold dir_path. rewrite Hri. reflexivity. }
  exists ti, tj. repeat split; auto.
  - rewrite Hone. intros [= H]. destruct ti; discriminate H.
  - unfold object, get_object_fields. rewrite Hf. simpl negb. cbv iota.
    unfold rbind at 1. fold dir_path. rewrite Hrij, Hrj. reflexivity.
Qed.

Lemma object_return_shape_witness :
  Loader.object Samples.loader_a "train" (IdxList [0%Z]) true
  = Ok (LList [LArr (NStr "a.png"); LArr (NInt 9)])
  /\ Loader.object Samples.loader_a "train" (IdxList [0%Z; 2%Z]) true
     = Ok (LList [LList [LArr (NStr "a.png"); LArr (NInt 9)];
                  LList [LArr (NStr "c.png"); LArr (NInt 9)]]).
Proof.
  destruct (object_return_shape Samples.loader_a "train"
              ["filenames"; "labels"]
              [NArr [NInt 0; NInt 1]; NArr [NInt 1; NInt 0];
               NArr [NInt 2; NInt 1]]
              0 2 [NInt 0; NInt 1] [NInt 2; NInt 1]
              eq_refl eq_refl eq_refl eq_refl eq_refl eq_refl)
    as (ti & tj & Hsi & Hsj & _ & _ & Hone & _ & Htwo).
  vm_compute in Hsi, Hsj.
  injection Hsi as <-. injection Hsj as <-.
  split; [exact Hone | exact Htwo].
Defined.

(** *** C8: a container without a top-level [train] *)

(** C8.  When the container opens and ["train"] is not among its
    top-level names, the constructor returns a loader on which
    [object_fields] was never assigned; on it [object_field_id] raises
    [AttributeError] for every field name, and so does [object] with
    [is_value] set, for every set and index. *)
Theorem init_without_train convert_ascii_to_str containers
        name task data_dir cache_path file :
  dict_get cache_path containers = Some file ->
  mem "train" (dict_keys file) = false ->
  exists ld,
    init convert_ascii_to_str containers name task data_dir cache_path = Ok ld
    /\ Loader.file ld = file
    /\ object_fields ld = None
    /\ (forall field_name,
          object_field_id ld field_name
          = Raise (AttributeError "object_fields"))
    /\ (forall set_name idx,
          object ld set_name idx true
          = Raise (AttributeError "object_fields")).
Proof.
  intros Hopen Htrain. unfold init. rewrite Hopen. simpl rbind.
  rewrite Htrain. eexists. repeat split.
Qed.

Lemma init_without_train_witness :
  exists ld,
    init Samples.decode_names Samples.containers
         "mnist" "classification" "/d" "/c/b.h5" = Ok ld
    /\ Loader.file ld = Samples.container_default_only
    /\ object_fields ld = None
    /\ (forall field_name,
          object_field_id ld field_name
          = Raise (AttributeError "object_fields"))
    /\ (forall set_name idx,
          object ld set_name idx true
          = Raise (AttributeError "object_fields")).
Proof.
  exact (init_without_train Samples.decode_names Samples.containers
           "mnist" "classification" "/d" "/c/b.h5"
           Samples.container_default_only eq_refl eq_refl).
Defined.

(** With the top-level [train] group the constructor reads the field
    list, and [object_field_id] answers positions or the [ValueError]
    of the documentation. *)
Example init_with_train :
  init Samples.decode_names Samples.containers
       "mnist" "classification" "/d" "/c/a.h5" = Ok Samples.loader_a
  /\ object_field_id Samples.loader_a "labels" = Ok 1%nat
  /\ object_field_id Samples.loader_a "boxes"
     = Raise (ValueError "Field name 'boxes' does not exist.").
Proof. repeat split. Qed.

End LoaderFacts.

(** ** The cache manager: further properties *)

Module CacheExtra.
Import Cache CacheFacts.
Local Open Scope py_scope.
Local Open Scope string_scope.

(** *** The constructor *)

(** The empty template for a home directory. *)
Lemma empty_data_setup home fs :
  empty_data {| self := setup_paths home; disk := fs |}
  = (Ok (PDict [("info",
                 PDict [("default_cache_dir",
                         PStr (path_join home ["dbcollection"]));
                        ("default_data_dir",
                         PStr (path_join home ["dbcollection"]))]);
                ("dataset", PDict [])]),
     {| self := setup_paths home; disk := fs |}).
Proof. reflexivity. Qed.

(** On a disk without the registry file on which the file can be
    created (its directory is there) and for a home directory whose
    name can be encoded, the constructor writes the empty template to
    [<home>/.dbcollection.json] and holds what the JSON library reads
    back from it. *)
Theorem init_creates_registry {codec : JsonCodec} home fs d :
  let template :=
    PDict [("info",
            PDict [("default_cache_dir", PStr (path_join home ["dbcollection"]));
                   ("default_data_dir", PStr (path_join home ["dbcollection"]))]);
           ("dataset", PDict [])] in
  let fname := path_join home [".dbcollection.json"] in
  path_exists fs fname = false ->
  open_for_writing fs fname = Ok tt ->
  forallb utf8_valid (json_chunks template) = true ->
  json_load (json_dump template) = Ok d ->
  init home fs
  = (Ok tt,
     with_data
       (with_disk {| self := setup_paths home; disk := fs |}
                  (dict_set fname (File (json_dump template)) fs))
       d).
Proof.
  intros template fname Habsent Hopen Henc Hload.
  unfold init, bind, os_path_exists.
  cbn [disk self setup_paths cache_fname]. fold fname. rewrite Habsent.
  cbn [negb]. unfold create_cache_file_disk, bind.
  rewrite empty_data_setup. fold template.
  rewrite write_data_cache_eq. cbv zeta.
  cbn [disk self setup_paths cache_fname]. fold fname.
  assert (Hf : (if String.eqb fname "" then fname else fname) = fname)
    by (destruct (String.eqb fname ""); reflexivity).
  rewrite Hf, Hopen, (DiskFacts.encode_chunks_complete _ Henc).
  fold (json_dump template).
  unfold read_data_cache, bind, get_self, os_path_exists.
  cbn [disk self with_disk setup_paths cache_fname]. fold fname.
  rewrite (DiskFacts.path_exists_found _ _ _
             (DictFacts.dict_get_set_same _ _ _)).
  unfold read_data_cache_file, catch, bind, get_self, lift.
  cbn [disk self with_disk setup_paths cache_fname]. fold fname.
  rewrite (DiskFacts.read_file_found _ _ _
             (DictFacts.dict_get_set_same _ _ _)), Hload.
  reflexivity.
Qed.

Lemma init_creates_registry_witness :
  init (codec := Json.codec) "/home/u" Samples.home_disk
  = (Ok tt, Samples.fresh)
  /\ read_file (disk Samples.fresh) "/home/u/.dbcollection.json"
     = Ok (Json.dump (data (self Samples.fresh))).
Proof.
  split.
  - rewrite (init_creates_registry (codec := Json.codec) "/home/u"
               Samples.home_disk (data (self Samples.fresh))
               eq_refl eq_refl eq_refl);
      [reflexivity | vm_compute; reflexivity].
  - reflexivity.
Defined.

(** On a disk that has the registry file, the constructor writes
    nothing: it holds the decoded file, or fails with the error of the
    JSON library. *)
Theorem init_reads_existing_registry {codec : JsonCodec} home fs text :
  dict_get (path_join home [".dbcollection.json"]) fs = Some (File text) ->
  init home fs
  = match json_load text with
    | Ok d => (Ok tt, with_data {| self := setup_paths home; disk := fs |} d)
    | Raise e => (Raise e, {| self := setup_paths home; disk := fs |})
    end.
Proof.
  intros Hfile.
  unfold init, bind, os_path_exists.
  cbn [disk self setup_paths cache_fname].
  rewrite (DiskFacts.path_exists_found _ _ _ Hfile). cbn [negb].
  unfold ret, read_data_cache, bind, get_self, os_path_exists.
  cbn [disk self setup_paths cache_fname].
  rewrite (DiskFacts.path_exists_found _ _ _ Hfile).
  unfold read_data_cache_file, catch, bind, get_self, lift.
  cbn [disk self setup_paths cache_fname].
  rewrite (DiskFacts.read_file_found _ _ _ Hfile).
  destruct (json_load text); reflexivity.
Qed.

Lemma init_reads_existing_registry_witness :
  init (codec := Json.codec) "/home/u" (disk Samples.one) = (Ok tt, Samples.one)
  /\ fst (init (codec := Json.codec) "/home/u"
               [("/home/u/.dbcollection.json", File "{oops")])
     = Raise (ValueError "Expecting property name enclosed in double quotes").
Proof.
  split.
  - rewrite (init_reads_existing_registry (codec := Json.codec) "/home/u"
               (disk Samples.one) _ eq_refl).
    vm_compute. reflexivity.
  - rewrite (init_reads_existing_registry (codec := Json.codec) "/home/u"
               [("/home/u/.dbcollection.json", File "{oops")] "{oops" eq_refl).
    vm_compute. reflexivity.
Defined.


(** *** Lookups *)

Lemma find_first {A} (p : A -> bool) l x :
  find p l = Some x ->
  exists pre post,
    l = (pre ++ x :: post)%list /\ p x = true
    /\ forall y, In y pre -> p y = false.
Proof.
  induction l as [|a l IH]; simpl; [discriminate|].
  destruct (p a) eqn:E.
  - intros [= ->]. exists [], l. repeat split; auto. intros y [].
  - intros H. destruct (IH H) as (pre & post & -> & Hx & Hpre).
    exists (a :: pre), post. repeat split; auto.
    intros y [<-|Hy]; auto.
Qed.

Lemma in_category_in_cat d ds c n :
  dataset_of d = Some ds -> in_category d c n = in_cat ds c n.
Proof. intros H. unfold in_category. now rewrite H. Qed.

(** [get_category] answers [None] exactly for the names without a
    record, and otherwise the first category, in the order of the
    document, that holds the name. *)
Theorem get_category_spec w name :
  wf_registry (data (self w)) = true ->
  (registered (data (self w)) name = false ->
   get_category name w = (Ok None, w))
  /\ (registered (data (self w)) name = true ->
      exists c ds before after,
        get_category name w = (Ok (Some c), w)
        /\ dataset_of (data (self w)) = Some ds
        /\ dict_keys ds = (before ++ c :: after)%list
        /\ in_category (data (self w)) c name = true
        /\ forall c', In c' before ->
                      in_category (data (self w)) c' name = false).
Proof.
  intros Hwf.
  destruct (wf_registry_inv _ Hwf) as (top & ds & Hdoc & Hds & Hof & Hrec).
  assert (Hcats : forall c v, dict_get c ds = Some v -> exists m, v = PDict m).
  { intros c v Hv. destruct (Hrec c v Hv) as [m [-> _]]. eauto. }
  rewrite (get_category_eq w top ds Hdoc Hds Hcats). split; intros Hreg.
  - unfold registered in Hreg. rewrite Hof in Hreg.
    apply find_category_none in Hreg. now rewrite Hreg.
  - unfold registered in Hreg. rewrite Hof in Hreg.
    destruct (find (fun c => in_cat ds c name) (dict_keys ds)) as [c|] eqn:E;
      [|apply find_category_none in E; congruence].
    destruct (find_first _ _ _ E) as (pre & post & Hk & Hc & Hpre).
    exists c, ds, pre, post. repeat split; auto.
    + now rewrite (in_category_in_cat _ ds).
    + intros c' Hc'. rewrite (in_category_in_cat _ ds) by assumption. auto.
Qed.

Lemma get_category_spec_witness :
  get_category "zz" Samples.two_cats = (Ok None, Samples.two_cats)
  /\ exists c ds before after,
       get_category "m" Samples.two_cats = (Ok (Some c), Samples.two_cats)
       /\ dataset_of (data (self Samples.two_cats)) = Some ds
       /\ dict_keys ds = (before ++ c :: after)%list
       /\ in_category (data (self Samples.two_cats)) c "m" = true
       /\ forall c', In c' before ->
                     in_category (data (self Samples.two_cats)) c' "m" = false.
Proof.
  split.
  - exact (proj1 (get_category_spec Samples.two_cats "zz" eq_refl) eq_refl).
  - exact (proj2 (get_category_spec Samples.two_cats "m" eq_refl) eq_refl).
Defined.

(** [check_dataset_name] tests the name against the keys of
    ["dataset"], which are the category names: it answers [True] for
    every category that holds a dataset, and for a dataset name only
    when a category has the same name.  A document without ["dataset"]
    gives [False], not an error. *)
Theorem check_dataset_name_tests_categories w name :
  (forall ds, dataset_of (data (self w)) = Some ds ->
              check_dataset_name name w = (Ok (mem name (dict_keys ds)), w))
  /\ (forall n, in_category (data (self w)) name n = true ->
                check_dataset_name name w = (Ok true, w))
  /\ (forall top, data (self w) = PDict top ->
                  dict_get "dataset" top = None ->
                  check_dataset_name name w = (Ok false, w)).
Proof.
  assert (H1 : forall ds, dataset_of (data (self w)) = Some ds ->
               check_dataset_name name w = (Ok (mem name (dict_keys ds)), w)).
  { intros ds Hof. destruct (dataset_of_inv _ _ Hof) as (top & Hdoc & Hds).
    unfold check_dataset_name, catch, bind, get_data, lift.
    rewrite Hdoc. simpl. now rewrite Hds. }
  repeat split; auto.
  - intros n Hin. unfold in_category in Hin.
    destruct (dataset_of (data (self w))) as [ds|] eqn:Hof; [|discriminate].
    rewrite (H1 ds eq_refl). apply in_cat_key in Hin.
    apply DictFacts.mem_in in Hin. now rewrite Hin.
  - intros top Hdoc Hnone.
    unfold check_dataset_name, catch, bind, get_data, lift.
    rewrite Hdoc. simpl. now rewrite Hnone.
Qed.

Lemma check_dataset_name_tests_categories_witness :
  check_dataset_name "cat" Samples.one = (Ok true, Samples.one)
  /\ check_dataset_name "m" Samples.one = (Ok false, Samples.one)
  /\ check_dataset_name "m"
       (with_data Samples.one (PDict [("info", PDict [])]))
     = (Ok false, with_data Samples.one (PDict [("info", PDict [])])).
Proof.
  pose proof (check_dataset_name_tests_categories Samples.one "cat")
    as (_ & Hcat & _).
  pose proof (check_dataset_name_tests_categories Samples.one "m")
    as (Hm & _ & _).
  pose proof (check_dataset_name_tests_categories
                (with_data Samples.one (PDict [("info", PDict [])])) "m")
    as (_ & _ & Hnone).
  split; [exact (Hcat "m" eq_refl)|]. split.
  - exact (Hm _ eq_refl).
  - exact (Hnone _ eq_refl eq_refl).
Defined.

(** [exists_dataset] and [exists] answer with a boolean and raise no
    [KeyError]: [exists_dataset] is true exactly for the registered
    names; [exists] is false for a name without a record and for a
    record without ["cache_files"], and otherwise tells whether the
    task is a key of the record's ["cache_files"]. *)
Theorem exists_is_boolean w name task :
  wf_registry (data (self w)) = true ->
  exists_dataset name w = (Ok (registered (data (self w)) name), w)
  /\ (registered (data (self w)) name = false ->
      exists_ name task w = (Ok false, w))
  /\ (forall c rl,
        get_category name w = (Ok (Some c), w) ->
        record_of (data (self w)) c name = Some (PDict rl) ->
        (dict_get "cache_files" rl = None ->
         exists_ name task w = (Ok false, w))
        /\ (forall files,
              dict_get "cache_files" rl = Some (PDict files) ->
              exists_ name task w = (Ok (mem task (dict_keys files)), w))).
Proof.
  intros Hwf. split; [now apply exists_dataset_eq|]. split.
  - intros Hreg. unfold exists_, catch, bind.
    now rewrite (category_of_unregistered w name Hwf Hreg).
  - intros c rl Hgc Hrec.
    assert (Hreg : registered (data (self w)) name = true).
    { apply registered_iff. exists c. unfold record_of in Hrec.
      unfold in_category, in_cat.
      destruct (dataset_of (data (self w))) as [ds|]; [|discriminate].
      destruct (names_of ds c) as [m|]; [|discriminate].
      now rewrite DictFacts.mem_keys_get, Hrec. }
    destruct (category_of_registered w name Hwf Hreg)
      as (top & ds & c0 & m & r & Hdoc & Hds & _ & Hm & Hr & _ & Hgc' & Hcat).
    assert (c0 = c) as -> by congruence.
    unfold record_of, dataset_of, names_of in Hrec.
    rewrite Hdoc, Hds, Hm, Hr in Hrec. injection Hrec as ->.
    split.
    + intros Hnone. unfold exists_, catch, bind, lift. rewrite Hcat. simpl.
      rewrite Hr. simpl. now rewrite Hnone.
    + intros files Hfiles. unfold exists_, catch, bind, lift.
      rewrite Hcat. simpl. rewrite Hr. simpl. now rewrite Hfiles.
Qed.

Lemma exists_is_boolean_witness :
  exists_dataset "m" Samples.one = (Ok true, Samples.one)
  /\ exists_ "zz" "train" Samples.one = (Ok false, Samples.one)
  /\ exists_ "m" "train" Samples.one = (Ok true, Samples.one)
  /\ exists_ "m" "test" Samples.one = (Ok false, Samples.one).
Proof.
  pose proof (exists_is_boolean Samples.one "m" "train" eq_refl)
    as (Hd & _ & Htrain).
  pose proof (exists_is_boolean Samples.one "zz" "train" eq_refl)
    as (_ & Hzz & _).
  pose proof (exists_is_boolean Samples.one "m" "test" eq_refl)
    as (_ & _ & Htest).
  split; [exact Hd|]. split; [exact (Hzz eq_refl)|]. split.
  - exact (proj2 (Htrain "cat" _ eq_refl eq_refl) _ eq_refl).
  - exact (proj2 (Htest "cat" _ eq_refl eq_refl) _ eq_refl).
Defined.


(** [get_cache_path] lets the exception of [get_dataset_data] through
    for a name without a record; whenever it returns a path, [exists]
    answers [True] for the same name and task. *)
Theorem get_cache_path_agrees_with_exists w name task :
  wf_registry (data (self w)) = true ->
  (registered (data (self w)) name = false ->
   get_cache_path name task w
   = (Raise (Exception ("Dataset " ++ name
                          ++ " does not exist in the cache file.")), w))
  /\ (forall p, get_cache_path name task w = (Ok p, w) ->
                exists_ name task w = (Ok true, w)).
Proof.
  intros Hwf. split.
  - intros Hreg. unfold get_cache_path, get_dataset_data, catch, bind.
    now rewrite (category_of_unregistered w name Hwf Hreg).
  - intros p Hp.
    destruct (registered (data (self w)) name) eqn:Hreg.
    + destruct (category_of_registered w name Hwf Hreg)
        as (top & ds & c & m & r & _ & _ & _ & _ & Hr & _ & _ & Hcat).
      unfold get_cache_path, get_dataset_data, catch, bind, lift in Hp.
      rewrite Hcat in Hp. simpl in Hp. rewrite Hr in Hp.
      unfold exists_, catch, bind, lift. rewrite Hcat. simpl. rewrite Hr.
      destruct (getitem r "cache_files") as [files|e]; [|discriminate].
      destruct files as [| | | | |fl]; try discriminate.
      simpl in Hp. simpl. rewrite DictFacts.mem_keys_get.
      destruct (dict_get task fl); [reflexivity | discriminate].
    + unfold get_cache_path, get_dataset_data, catch, bind in Hp.
      rewrite (category_of_unregistered w name Hwf Hreg) in Hp. discriminate.
Qed.

Lemma get_cache_path_agrees_with_exists_witness :
  get_cache_path "zz" "train" Samples.one
  = (Raise (Exception "Dataset zz does not exist in the cache file."),
     Samples.one)
  /\ exists_ "m" "train" Samples.one = (Ok true, Samples.one).
Proof.
  split.
  - exact (proj1 (get_cache_path_agrees_with_exists Samples.one "zz" "train"
                    eq_refl) eq_refl).
  - exact (proj2 (get_cache_path_agrees_with_exists Samples.one "m" "train"
                    eq_refl) (PStr "/c/train.bin") eq_refl).
Defined.

(** [get_data_from_field] re-raises the [KeyError] as it is: the key
    [None] for a name without a record (not the exception of
    [get_dataset_data]), the field name for a record without the
    field; otherwise it returns the value stored under the field. *)
Theorem get_data_from_field_spec w name field :
  wf_registry (data (self w)) = true ->
  (registered (data (self w)) name = false ->
   get_data_from_field name field w = (Raise (KeyError None), w))
  /\ (registered (data (self w)) name = true ->
      exists c rl,
        get_category name w = (Ok (Some c), w)
        /\ record_of (data (self w)) c name = Some (PDict rl)
        /\ get_data_from_field name field w
           = (match dict_get field rl with
              | Some v => Ok v
              | None => Raise (KeyError (Some field))
              end, w)).
Proof.
  intros Hwf. split; intros Hreg.
  - unfold get_data_from_field, catch, bind.
    now rewrite (category_of_unregistered w name Hwf Hreg).
  - destruct (category_of_registered w name Hwf Hreg)
      as (top & ds & c & m & r & Hdoc & Hds & _ & Hm & Hr & Hdict & Hgc & Hcat).
    destruct r as [| | | | |rl]; try discriminate.
    exists c, rl. repeat split; auto.
    + unfold record_of, dataset_of, names_of. now rewrite Hdoc, Hds, Hm.
    + unfold get_data_from_field, catch, bind, lift. rewrite Hcat. simpl.
      rewrite Hr. simpl. destruct (dict_get field rl); reflexivity.
Qed.

Lemma get_data_from_field_spec_witness :
  get_data_from_field "zz" "data_dir" Samples.one
  = (Raise (KeyError None), Samples.one)
  /\ exists c rl,
       get_category "m" Samples.one = (Ok (Some c), Samples.one)
       /\ record_of (data (self Samples.one)) c "m" = Some (PDict rl)
       /\ get_data_from_field "m" "size" Samples.one
          = (match dict_get "size" rl with
             | Some v => Ok v
             | None => Raise (KeyError (Some "size"))
             end, Samples.one).
Proof.
  split.
  - exact (proj1 (get_data_from_field_spec Samples.one "zz" "data_dir" eq_refl)
             eq_refl).
  - exact (proj2 (get_data_from_field_spec Samples.one "m" "size" eq_refl)
             eq_refl).
Defined.


(** *** [change_field]: what it leaves alone *)

(** [get_data_from_field], read off a document whose categories are
    dictionaries. *)
Lemma get_data_from_field_pure w top ds n f :
  data (self w) = PDict top ->
  dict_get "dataset" top = Some (PDict ds) ->
  (forall c v, dict_get c ds = Some v -> exists m, v = PDict m) ->
  get_data_from_field n f w
  = (match first_category ds n with
     | Some c =>
         match names_of ds c with
         | Some m =>
             match dict_get n m with
             | Some r => getitem r f
             | None => Raise (KeyError (Some n))
             end
         | None => Raise (KeyError (Some c))
         end
     | None => Raise (KeyError None)
     end, w).
Proof.
  intros Hdoc Hds Hcats.
  unfold get_data_from_field, catch, bind, lift.
  rewrite (category_of_eq w top ds Hdoc Hds Hcats). unfold first_category.
  destruct (find (fun c => in_cat ds c n) (dict_keys ds)) as [c|];
    [|reflexivity].
  destruct (names_of ds c) as [m|]; [|reflexivity].
  simpl. destruct (dict_get n m) as [r|]; [|reflexivity].
  destruct (getitem r f); reflexivity.
Qed.

(** What [change_field] stores for a registered name. *)
Lemma change_field_result name field val w :
  wf_registry (data (self w)) = true ->
  registered (data (self w)) name = true ->
  exists top ds c m rl,
    data (self w) = PDict top
    /\ dict_get "dataset" top = Some (PDict ds)
    /\ (forall c0 v, dict_get c0 ds = Some v -> exists m0, v = PDict m0)
    /\ dict_get c ds = Some (PDict m)
    /\ dict_get name m = Some (PDict rl)
    /\ change_field name field val w
       = (Ok tt,
          with_data w
            (PDict (dict_set "dataset"
                      (PDict (dict_set c
                                (PDict (dict_set name
                                          (PDict (dict_set field val rl)) m))
                                ds))
                      top))).
Proof.
  intros Hwf Hreg.
  destruct (wf_registry_inv _ Hwf) as (top0 & ds0 & Hdoc0 & Hds0 & _ & Hrec).
  destruct (category_of_registered w name Hwf Hreg)
    as (top & ds & c & m & r & Hdoc & Hds & _ & Hm & Hr & Hdict & _ & Hcat).
  assert (top0 = top) as -> by congruence.
  assert (ds0 = ds) as -> by congruence.
  destruct r as [| | | | |rl]; try discriminate.
  exists top, ds, c, m, rl. repeat split; auto.
  - intros c0 v Hv. destruct (Hrec _ _ Hv) as (m0 & -> & _). eauto.
  - unfold change_field, catch, bind, lift. rewrite Hcat. simpl.
    rewrite Hr. simpl.
    unfold store_category, bind, get_data, lift, set_data.
    rewrite Hdoc. simpl. rewrite Hds. reflexivity.
Qed.

(** [change_field] on a name without a record raises [KeyError] and
    changes nothing.  On a registered name it assigns that one key of
    the record: every other field of the dataset reads as before. *)
Theorem change_field_frame name field val w :
  wf_registry (data (self w)) = true ->
  (registered (data (self w)) name = false ->
   change_field name field val w = (Raise (KeyError None), w))
  /\ (registered (data (self w)) name = true ->
      forall f',
        f' <> field ->
        fst (get_data_from_field name f' (snd (change_field name field val w)))
        = fst (get_data_from_field name f' w)).
Proof.
  intros Hwf. split; intros Hreg.
  - unfold change_field, catch, bind.
    now rewrite (category_of_unregistered w name Hwf Hreg).
  - intros f' Hdiff.
    destruct (change_field_result name field val w Hwf Hreg)
      as (top & ds & c & m & rl & Hdoc & Hds & Hcats & Hm & Hr & Hrun).
    rewrite Hrun. cbn [snd].
    set (m' := dict_set name (PDict (dict_set field val rl)) m).
    set (ds' := dict_set c (PDict m') ds).
    set (top' := dict_set "dataset" (PDict ds') top).
    assert (Hcats' : forall c0 v, dict_get c0 ds' = Some v ->
                                  exists m0, v = PDict m0).
    { intros c0 v. unfold ds'. rewrite DictFacts.dict_get_set.
      destruct (String.eqb c0 c); [intros [= <-]; eauto | apply Hcats]. }
    assert (Hin : forall c0, in_cat ds' c0 name = in_cat ds c0 name).
    { intros c0. unfold in_cat, names_of, ds'. rewrite DictFacts.dict_get_set.
      destruct (String.eqb_spec c0 c) as [->|]; [|reflexivity].
      rewrite Hm. unfold m'. rewrite DictFacts.mem_keys_set.
      rewrite String.eqb_refl. now rewrite DictFacts.mem_keys_get, Hr. }
    assert (Hkeys : dict_keys ds' = dict_keys ds).
    { apply DictFacts.dict_keys_set_present.
      now rewrite DictFacts.mem_keys_get, Hm. }
    rewrite (get_data_from_field_pure (with_data w (PDict top')) top' ds'
               name f' eq_refl (DictFacts.dict_get_set_same _ _ _) Hcats').
    rewrite (get_data_from_field_pure w top ds name f' Hdoc Hds Hcats).
    cbn [fst]. unfold first_category.
    rewrite Hkeys, (find_pointwise _ _ _ Hin).
    destruct (find (fun c0 => in_cat ds c0 name) (dict_keys ds)) as [c0|];
      [|reflexivity].
    unfold names_of, ds'. rewrite DictFacts.dict_get_set.
    destruct (String.eqb_spec c0 c) as [->|]; [|reflexivity].
    rewrite Hm. unfold m'. rewrite DictFacts.dict_get_set.
    rewrite String.eqb_refl, Hr. simpl. rewrite DictFacts.dict_get_set.
    destruct (String.eqb_spec f' field) as [->|]; [|reflexivity].
    now elim Hdiff.
Qed.

Lemma change_field_frame_witness :
  change_field "zz" "data_dir" (PStr "/x") MoreSamples.two
  = (Raise (KeyError None), MoreSamples.two)
  /\ fst (get_data_from_field "m" "cache_dir"
            (snd (change_field "m" "data_dir" (PStr "/x") MoreSamples.two)))
     = Ok (PStr "/c").
Proof.
  pose proof (change_field_frame "zz" "data_dir" (PStr "/x") MoreSamples.two
                eq_refl) as [Hzz _].
  pose proof (change_field_frame "m" "data_dir" (PStr "/x") MoreSamples.two
                eq_refl) as [_ Hm].
  split; [exact (Hzz eq_refl)|].
  rewrite (Hm eq_refl "cache_dir"); [reflexivity | discriminate].
Defined.


(** *** [update] on a dataset without a record *)

Lemma unregistered_not_in_category d category name :
  registered d name = false -> in_category d category name = false.
Proof.
  intros H. destruct (in_category d category name) eqn:E; [|reflexivity].
  assert (registered d name = true) by (apply registered_iff; eauto).
  congruence.
Qed.

Lemma getitem_found m k v :
  dict_get k m = Some v -> getitem (PDict m) k = Ok v.
Proof. intros H. unfold getitem. now rewrite H. Qed.

Section NewDataset.
Context {codec : JsonCodec}.

(** [update] when the name has no record under the category: the
    record is stored, then the document is written. *)
Lemma update_new_world w name category data_dir cache_dir cache_info :
  wf_registry (data (self w)) = true ->
  in_category (data (self w)) category name = false ->
  let d' := insert_record (data (self w)) category name
              (PDict [("data_dir", data_dir); ("cache_dir", cache_dir);
                      ("cache_files", cache_info)]) in
  update name category data_dir cache_dir cache_info w
  = write_data_cache d' None (with_data w d').
Proof.
  intros Hwf Hin d'. unfold update, bind.
  rewrite (add_data_new w _ _ _ Hwf Hin). fold d'. reflexivity.
Qed.

(** The document after it, whatever the write does. *)
Lemma update_new_data w name category data_dir cache_dir cache_info :
  wf_registry (data (self w)) = true ->
  registered (data (self w)) name = false ->
  data (self (snd (update name category data_dir cache_dir cache_info w)))
  = insert_record (data (self w)) category name
      (PDict [("data_dir", data_dir); ("cache_dir", cache_dir);
              ("cache_files", cache_info)]).
Proof.
  intros Hwf Hreg.
  rewrite (update_new_world w name category data_dir cache_dir cache_info
             Hwf (unregistered_not_in_category _ category _ Hreg)).
  cbv zeta. now rewrite write_data_cache_self.
Qed.

(** Looking the name up in a world whose document is the one after the
    insertion. *)
Lemma category_of_inserted w' d category name r :
  wf_registry d = true ->
  registered d name = false ->
  is_dict r = true ->
  data (self w') = insert_record d category name r ->
  exists m,
    dict_get name m = Some r
    /\ get_category name w' = (Ok (Some category), w')
    /\ category_of name w' = (Ok (Some category, PDict m), w')
    /\ wf_registry (data (self w')) = true
    /\ registered (data (self w')) name = true.
Proof.
  intros Hwf Hreg Hr Hdata.
  destruct (wf_registry_inv _ Hwf) as (top0 & ds0 & Hdoc0 & Hds0 & Hof0 & _).
  assert (Hwf' : wf_registry (data (self w')) = true)
    by (rewrite Hdata; now apply wf_registry_insert).
  assert (Hin' : in_category (data (self w')) category name = true).
  { rewrite Hdata, (in_category_insert _ ds0) by assumption.
    now rewrite !String.eqb_refl. }
  assert (Hreg' : registered (data (self w')) name = true)
    by (apply registered_iff; eauto).
  destruct (category_of_registered w' name Hwf' Hreg')
    as (top & ds & c & m & r0 & Hdoc & Hds & _ & Hm & Hr0 & _ & Hgc & Hcat).
  assert (Hc : in_category (data (self w')) c name = true).
  { unfold in_category, dataset_of. rewrite Hdoc, Hds.
    unfold in_cat, names_of. now rewrite Hm, DictFacts.mem_keys_get, Hr0. }
  rewrite Hdata, (in_category_insert _ ds0) in Hc by assumption.
  rewrite (unregistered_not_in_category _ c _ Hreg), orb_false_r in Hc.
  apply andb_prop in Hc as [Hc _]. apply String.eqb_eq in Hc. subst c.
  exists m. repeat split; auto.
  rewrite Hdata, Hdoc0 in Hdoc. unfold insert_record in Hdoc.
  rewrite Hds0 in Hdoc. injection Hdoc as <-.
  rewrite DictFacts.dict_get_set_same in Hds. injection Hds as <-.
  rewrite DictFacts.dict_get_set_same in Hm. injection Hm as <-.
  apply DictFacts.dict_get_set_same.
Qed.
End NewDataset.

(** Insert, then look up.  After [update] on a name that has no
    record, whether or not the registry file could be written,
    [get_category] answers the category that was passed,
    [get_dataset_data] the record with the three values that were
    passed, and [get_dataset_storage_paths] the two directories that
    were passed, not the default ones. *)
Theorem update_new_dataset {codec : JsonCodec}
        w name category data_dir cache_dir cache_info :
  wf_registry (data (self w)) = true ->
  registered (data (self w)) name = false ->
  let w' := snd (update name category data_dir cache_dir cache_info w) in
  get_category name w' = (Ok (Some category), w')
  /\ get_dataset_data name w'
     = (Ok (PDict [("data_dir", data_dir); ("cache_dir", cache_dir);
                   ("cache_files", cache_info)]), w')
  /\ get_dataset_storage_paths name w'
     = (Ok (PDict [("cache_dir", cache_dir); ("data_dir", data_dir)]), w').
Proof.
  intros Hwf Hreg w'.
  pose proof (update_new_data w name category data_dir cache_dir cache_info
                Hwf Hreg) as Hdata.
  fold w' in Hdata.
  destruct (category_of_inserted w' (data (self w)) category name
              (PDict [("data_dir", data_dir); ("cache_dir", cache_dir);
                      ("cache_files", cache_info)]) Hwf Hreg eq_refl Hdata)
    as (m & Hm & Hgc & Hcat & Hwf' & Hreg').
  assert (Hfield : forall f,
             get_data_from_field name f w'
             = (getitem (PDict [("data_dir", data_dir);
                                ("cache_dir", cache_dir);
                                ("cache_files", cache_info)]) f, w')).
  { intros f. unfold get_data_from_field, catch, bind, lift.
    rewrite Hcat. cbn [snd]. rewrite (getitem_found _ _ _ Hm).
    destruct (getitem _ f); reflexivity. }
  repeat split; auto.
  - unfold get_dataset_data, catch, bind, lift. rewrite Hcat.
    cbn [snd]. now rewrite (getitem_found _ _ _ Hm).
  - unfold get_dataset_storage_paths, bind.
    rewrite (exists_dataset_eq w' name Hwf'), Hreg', !Hfield. reflexivity.
Qed.

Lemma update_new_dataset_witness :
  get_category "m" Samples.one = (Ok (Some "cat"), Samples.one)
  /\ get_dataset_data "m" Samples.one = (Ok MoreSamples.record_m, Samples.one)
  /\ get_dataset_storage_paths "m" Samples.one
     = (Ok (PDict [("cache_dir", PStr "/c"); ("data_dir", PStr "/d")]),
        Samples.one).
Proof.
  exact (update_new_dataset (codec := Json.codec) Samples.fresh "m" "cat"
           (PStr "/d") (PStr "/c") (PDict [("train", PStr "/c/train.bin")])
           eq_refl eq_refl).
Defined.

(** After [update] of a dataset without a record, with a dictionary
    of task files, [get_cache_path] returns the path that was passed
    for a task, fails with [KeyError] on a task that was not passed,
    and [exists] tells the two apart. *)
Theorem update_then_cache_path {codec : JsonCodec}
        w name category data_dir cache_dir files task :
  wf_registry (data (self w)) = true ->
  registered (data (self w)) name = false ->
  let w' := snd (update name category data_dir cache_dir (PDict files) w) in
  get_cache_path name task w'
  = (match dict_get task files with
     | Some p => Ok p
     | None => Raise (KeyError (Some task))
     end, w')
  /\ exists_ name task w' = (Ok (mem task (dict_keys files)), w').
Proof.
  intros Hwf Hreg w'.
  pose proof (update_new_data w name category data_dir cache_dir (PDict files)
                Hwf Hreg) as Hdata.
  fold w' in Hdata.
  destruct (category_of_inserted w' (data (self w)) category name
              (PDict [("data_dir", data_dir); ("cache_dir", cache_dir);
                      ("cache_files", PDict files)])
              Hwf Hreg eq_refl Hdata) as (m & Hm & _ & Hcat & _ & _).
  split.
  - unfold get_cache_path, get_dataset_data, catch, bind, lift.
    rewrite Hcat. cbn [snd]. rewrite (getitem_found _ _ _ Hm). simpl.
    destruct (dict_get task files); reflexivity.
  - unfold exists_, catch, bind, lift. rewrite Hcat.
    cbn [snd]. rewrite (getitem_found _ _ _ Hm). reflexivity.
Qed.

Lemma update_then_cache_path_witness :
  get_cache_path "m" "train" Samples.one
  = (Ok (PStr "/c/train.bin"), Samples.one)
  /\ exists_ "m" "train" Samples.one = (Ok true, Samples.one).
Proof.
  exact (update_then_cache_path (codec := Json.codec) Samples.fresh "m" "cat"
           (PStr "/d") (PStr "/c") [("train", PStr "/c/train.bin")] "train"
           eq_refl eq_refl).
Defined.

(** A write that fails leaves the memory ahead of the disk: when the
    registry path is a directory, [update] of a dataset without a
    record raises the error of [open] after the record has been stored
    in the document of the manager. *)
Theorem update_write_failure_keeps_record {codec : JsonCodec}
        w name category data_dir cache_dir cache_info :
  wf_registry (data (self w)) = true ->
  in_category (data (self w)) category name = false ->
  dict_get (cache_fname (self w)) (disk w) = Some Dir ->
  let w' := snd (update name category data_dir cache_dir cache_info w) in
  fst (update name category data_dir cache_dir cache_info w)
  = Raise (IOError EISDIR)
  /\ disk w' = disk w
  /\ in_category (data (self w')) category name = true.
Proof.
  intros Hwf Hin Hdir w'. subst w'.
  rewrite (update_new_world w name category data_dir cache_dir cache_info
             Hwf Hin).
  cbv zeta. rewrite write_data_cache_eq. cbv zeta.
  cbn [disk with_data self cache_fname].
  rewrite (DiskFacts.open_dir _ _ Hdir).
  cbn [fst snd disk with_data self data]. repeat split.
  destruct (wf_registry_inv _ Hwf) as (top & ds & _ & _ & Hof & _).
  rewrite (in_category_insert _ ds) by assumption.
  now rewrite !String.eqb_refl.
Qed.

Lemma update_write_failure_keeps_record_witness :
  fst (update (codec := Json.codec) "m" "cat" (PStr "/d") (PStr "/c")
              (PDict []) MoreSamples.registry_is_dir)
  = Raise (IOError EISDIR)
  /\ in_category
       (data (self (snd (update (codec := Json.codec) "m" "cat" (PStr "/d")
                                (PStr "/c") (PDict [])
                                MoreSamples.registry_is_dir))))
       "cat" "m" = true.
Proof.
  destruct (update_write_failure_keeps_record (codec := Json.codec)
              MoreSamples.registry_is_dir "m" "cat" (PStr "/d") (PStr "/c")
              (PDict []) eq_refl eq_refl eq_refl) as (Hraise & _ & Hin).
  split; [exact Hraise | exact Hin].
Defined.

Lemma update_persists_witness :
  read_file (disk Samples.one) (cache_fname (self Samples.one))
  = Ok (Json.dump (data (self Samples.one))).
Proof.
  apply (update_persists (codec := Json.codec) Samples.fresh Samples.one
           "m" "cat" (PStr "/d") (PStr "/c")
           (PDict [("train", PStr "/c/train.bin")])).
  vm_compute. reflexivity.
Defined.


(** *** [update]: what it leaves alone *)

Lemma find_app {A} (p : A -> bool) l l' :
  find p (l ++ l')%list
  = match find p l with Some x => Some x | None => find p l' end.
Proof.
  induction l as [|a l IH]; simpl; [reflexivity|].
  destruct (p a); auto.
Qed.

Lemma dict_keys_set_absent {V} k (v : V) d :
  mem k (dict_keys d) = false ->
  dict_keys (dict_set k v d) = (dict_keys d ++ [k])%list.
Proof.
  induction d as [|[k0 v0] d IH]; simpl; [reflexivity|].
  destruct (String.eqb k k0); simpl; [discriminate|].
  intros H. now rewrite IH.
Qed.

Lemma record_of_names d ds c n :
  dataset_of d = Some ds ->
  record_of d c n
  = match names_of ds c with Some m => dict_get n m | None => None end.
Proof. intros H. unfold record_of. now rewrite H. Qed.

Lemma in_cat_record d ds c n :
  dataset_of d = Some ds ->
  in_cat ds c n = match record_of d c n with Some _ => true | None => false end.
Proof.
  intros H. rewrite (record_of_names _ _ _ _ H). unfold in_cat.
  destruct (names_of ds c); [apply DictFacts.mem_keys_get | reflexivity].
Qed.

(** [get_dataset_data], read off a document whose categories are
    dictionaries. *)
Lemma get_dataset_data_pure w top ds n :
  data (self w) = PDict top ->
  dict_get "dataset" top = Some (PDict ds) ->
  (forall c v, dict_get c ds = Some v -> exists m, v = PDict m) ->
  fst (get_dataset_data n w)
  = match first_category ds n with
    | Some c =>
        match record_of (data (self w)) c n with
        | Some r => Ok r
        | None =>
            Raise (Exception ("Dataset " ++ n
                                ++ " does not exist in the cache file."))
        end
    | None =>
        Raise (Exception ("Dataset " ++ n
                            ++ " does not exist in the cache file."))
    end.
Proof.
  intros Hdoc Hds Hcats.
  assert (Hof : dataset_of (data (self w)) = Some ds)
    by (unfold dataset_of; now rewrite Hdoc, Hds).
  unfold get_dataset_data, catch, bind, lift.
  rewrite (category_of_eq w top ds Hdoc Hds Hcats). unfold first_category.
  destruct (find (fun c => in_cat ds c n) (dict_keys ds)) as [c|];
    [|reflexivity].
  rewrite (record_of_names _ _ _ _ Hof).
  destruct (names_of ds c) as [m|]; [|reflexivity].
  simpl. destruct (dict_get n m) as [r|]; reflexivity.
Qed.

(** [update] of one dataset leaves the records of the others as they
    were: for every other name, [get_dataset_data] gives after the call
    what it gave before, whatever the outcome of the call. *)
Theorem update_frame {codec : JsonCodec}
        w name category data_dir cache_dir cache_info n' :
  wf_registry (data (self w)) = true ->
  n' <> name ->
  fst (get_dataset_data n'
         (snd (update name category data_dir cache_dir cache_info w)))
  = fst (get_dataset_data n' w).
Proof.
  intros Hwf Hne.
  destruct (in_category (data (self w)) category name) eqn:Hin.
  - destruct (update_existing w name category data_dir cache_dir cache_info
                Hwf Hin) as (e & -> & _). reflexivity.
  - set (r := PDict [("data_dir", data_dir); ("cache_dir", cache_dir);
                     ("cache_files", cache_info)]).
    set (w' := snd (update name category data_dir cache_dir cache_info w)).
    assert (Hdata : data (self w')
                    = insert_record (data (self w)) category name r).
    { subst w'. rewrite (update_new_world w _ _ _ _ _ Hwf Hin).
      cbv zeta. now rewrite write_data_cache_self. }
    destruct (wf_registry_inv _ Hwf) as (top & ds & Hdoc & Hds & Hof & Hrec).
    assert (Hcats : forall c v, dict_get c ds = Some v -> exists m, v = PDict m).
    { intros c v Hv. destruct (Hrec c v Hv) as [m [-> _]]. eauto. }
    set (m0 := match names_of ds category with Some m => m | None => [] end).
    set (ds' := dict_set category (PDict (dict_set name r m0)) ds).
    assert (Hdoc' : data (self w')
                    = PDict (dict_set "dataset" (PDict ds') top)).
    { rewrite Hdata, Hdoc. unfold insert_record. now rewrite Hds. }
    assert (Hof' : dataset_of (data (self w')) = Some ds').
    { rewrite Hdoc'. unfold dataset_of.
      now rewrite DictFacts.dict_get_set_same. }
    assert (Hcats' : forall c v, dict_get c ds' = Some v ->
                                 exists m, v = PDict m).
    { intros c v. unfold ds'. rewrite DictFacts.dict_get_set.
      destruct (String.eqb c category); [intros [= <-]; eauto | apply Hcats]. }
    assert (Hrecs : forall c,
               record_of (data (self w')) c n' = record_of (data (self w)) c n').
    { intros c. rewrite (record_of_names _ _ _ _ Hof'),
        (record_of_names _ _ _ _ Hof).
      unfold names_of at 1. unfold ds'. rewrite DictFacts.dict_get_set.
      destruct (String.eqb_spec c category) as [->|]; [|reflexivity].
      rewrite DictFacts.dict_get_set.
      destruct (String.eqb_spec n' name) as [->|]; [now elim Hne|].
      unfold m0. destruct (names_of ds category); reflexivity. }
    assert (Hin' : forall c, in_cat ds' c n' = in_cat ds c n').
    { intros c. now rewrite (in_cat_record _ _ _ _ Hof'),
        (in_cat_record _ _ _ _ Hof), Hrecs. }
    assert (Hfirst : first_category ds' n' = first_category ds n').
    { unfold first_category. rewrite (find_pointwise _ _ _ Hin').
      unfold ds'. destruct (mem category (dict_keys ds)) eqn:Hmem.
      - now rewrite DictFacts.dict_keys_set_present.
      - rewrite dict_keys_set_absent, find_app by assumption.
        destruct (find (fun c => in_cat ds c n') (dict_keys ds));
          [reflexivity|].
        simpl. unfold in_cat, names_of.
        rewrite DictFacts.mem_keys_get in Hmem.
        destruct (dict_get category ds); [discriminate | reflexivity]. }
    rewrite (get_dataset_data_pure w' _ ds' n' Hdoc'
               (DictFacts.dict_get_set_same _ _ _) Hcats').
    rewrite (get_dataset_data_pure w top ds n' Hdoc Hds Hcats), Hfirst.
    destruct (first_category ds n') as [c|]; [|reflexivity].
    now rewrite Hrecs.
Qed.

Lemma update_frame_witness :
  fst (get_dataset_data "m"
         (snd (update (codec := Json.codec) "n" "cat" (PStr "/e") (PStr "/f")
                      (PDict []) Samples.one)))
  = Ok MoreSamples.record_m.
Proof.
  rewrite (update_frame (codec := Json.codec) Samples.one "n" "cat"
             (PStr "/e") (PStr "/f") (PDict []) "m" eq_refl).
  - reflexivity.
  - discriminate.
Defined.


(** *** Writing the document *)

(** [write_data_cache] with the empty name, as with none, writes the
    registry file; with another name, when that file can be opened
    for writing and every text of the document can be encoded, it
    returns with the document, serialised, in that file and the
    manager as it was. *)
Theorem write_data_cache_target {codec : JsonCodec} d f w :
  write_data_cache d (Some "") w = write_data_cache d None w
  /\ (f <> "" ->
      open_for_writing (disk w) f = Ok tt ->
      forallb utf8_valid (json_chunks d) = true ->
      exists w',
        write_data_cache d (Some f) w = (Ok tt, w')
        /\ self w' = self w
        /\ read_file (disk w') f = Ok (json_dump d)).
Proof.
  split; [reflexivity|].
  intros Hne Hopen Henc.
  rewrite write_data_cache_eq. cbv zeta.
  destruct (String.eqb_spec f "") as [->|_]; [now elim Hne|].
  rewrite Hopen, (DiskFacts.encode_chunks_complete _ Henc).
  eexists. split; [reflexivity|]. split; [reflexivity|].
  cbn [disk with_disk].
  now rewrite (DiskFacts.read_file_found _ _ _
                 (DictFacts.dict_get_set_same _ _ _)).
Qed.

Lemma write_data_cache_target_witness :
  exists w',
    write_data_cache (codec := Json.codec) (PDict []) (Some "/home/u/copy.json")
                     Samples.one = (Ok tt, w')
    /\ self w' = self Samples.one
    /\ read_file (disk w') "/home/u/copy.json" = Ok "{}".
Proof.
  apply (proj2 (write_data_cache_target (codec := Json.codec) (PDict [])
                  "/home/u/copy.json" Samples.one));
    [discriminate | reflexivity | reflexivity].
Defined.

(** *** [delete_dataset] *)

Lemma bind_ok {A B} (m : M A) (k : A -> M B) w b w' :
  bind m k w = (Ok b, w') ->
  exists a w1, m w = (Ok a, w1) /\ k a w1 = (Ok b, w').
Proof.
  unfold bind. destruct (m w) as [[a|e] w1]; [eauto | discriminate].
Qed.

Lemma registered_of_record d c name r :
  record_of d c name = Some r -> registered d name = true.
Proof.
  intros Hrec. apply registered_iff. exists c. unfold record_of in Hrec.
  unfold in_category, in_cat.
  destruct (dataset_of d) as [ds|]; [|discriminate].
  destruct (names_of ds c) as [m|]; [|discriminate].
  now rewrite DictFacts.mem_keys_get, Hrec.
Qed.

Section DeleteMore.
Context {codec : JsonCodec}.

(** Whenever [delete_dataset_cache] returns, and so whenever
    [delete_dataset] without [delete_data] returns, the registry file
    holds the document of the manager. *)
Theorem delete_persists name w w' :
  (delete_dataset_cache name w = (Ok tt, w') ->
   read_file (disk w') (cache_fname (self w'))
   = Ok (json_dump (data (self w'))))
  /\ (delete_dataset name false w = (Ok tt, w') ->
      read_file (disk w') (cache_fname (self w'))
      = Ok (json_dump (data (self w')))).
Proof.
  assert (Hcache : forall w0 w1,
             delete_dataset_cache name w0 = (Ok tt, w1) ->
             read_file (disk w1) (cache_fname (self w1))
             = Ok (json_dump (data (self w1)))).
  { intros w0 w1 H. unfold delete_dataset_cache in H.
    do 7 (apply bind_ok in H; destruct H as (? & ? & _ & H)).
    apply bind_ok in H. destruct H as (d & w5 & Hget & H).
    unfold get_data in Hget. injection Hget as <- <-.
    rewrite write_data_cache_eq in H. cbv zeta in H.
    destruct (open_for_writing _ _); [|discriminate].
    destruct (encode_chunks _) as [text []] eqn:E; [|discriminate].
    injection H as <-. cbn [disk with_disk self].
    rewrite (DiskFacts.read_file_found _ _ _
               (DictFacts.dict_get_set_same _ _ _)).
    unfold json_dump. now rewrite (DiskFacts.encode_chunks_text _ _ E). }
  split; [apply Hcache|].
  intros H. unfold delete_dataset in H.
  apply bind_ok in H. destruct H as (paths & w0 & _ & H).
  apply bind_ok in H. destruct H as ([] & w1 & Hdel & H).
  unfold ret in H. injection H as <-. now apply (Hcache w0).
Qed.

(** [delete_dataset] up to the removal of the cache path, for a
    registered dataset whose record has both directories. *)
Lemma delete_dataset_start w name c r p dd delete_data :
  wf_registry (data (self w)) = true ->
  get_category name w = (Ok (Some c), w) ->
  record_of (data (self w)) c name = Some r ->
  getitem r "cache_dir" = Ok (PStr p) ->
  getitem r "data_dir" = Ok dd ->
  delete_dataset name delete_data w
  = match os_remove (disk w) p with
    | Raise (OSError errno) =>
        if negb (Z.eqb errno ENOENT) then (Raise (OSError errno), w)
        else
          ((cv' <- category_of name ;;
            v' <- lift (pop (snd cv') name) ;;
            store_category_opt (fst cv') v' ;;
            d <- get_data ;;
            write_data_cache d None) ;;
           (if delete_data then
              catch (os_remove_path dd)
                    (fun e => match e with
                              | OSError errno =>
                                  if negb (Z.eqb errno ENOENT)
                                  then raise e else ret tt
                              | _ => raise e
                              end)
            else ret tt)) w
    | Raise e => (Raise e, w)
    | Ok fs =>
        ((cv' <- category_of name ;;
          v' <- lift (pop (snd cv') name) ;;
          store_category_opt (fst cv') v' ;;
          d <- get_data ;;
          write_data_cache d None) ;;
         (if delete_data then
            catch (os_remove_path dd)
                  (fun e => match e with
                            | OSError errno =>
                                if negb (Z.eqb errno ENOENT)
                                then raise e else ret tt
                            | _ => raise e
                            end)
          else ret tt)) (with_disk w fs)
    end.
Proof.
  intros Hwf Hgc Hrec Hp Hdd.
  pose proof (registered_of_record _ _ _ _ Hrec) as Hreg.
  destruct (category_of_registered w name Hwf Hreg)
    as (top & ds & c0 & m & r0 & Hdoc & Hds & _ & Hm & Hr & _ & Hgc' & Hcat).
  assert (c0 = c) as -> by congruence.
  assert (r0 = r) as ->.
  { unfold record_of, dataset_of, names_of in Hrec.
    rewrite Hdoc, Hds, Hm in Hrec. congruence. }
  assert (Hfield : forall f,
             get_data_from_field name f w = (getitem r f, w)).
  { intros f. unfold get_data_from_field, catch, bind, lift.
    rewrite Hcat. cbn [snd]. rewrite (getitem_found _ _ _ Hr).
    destruct (getitem r f); reflexivity. }
  unfold delete_dataset, get_dataset_storage_paths.
  unfold bind at 1. unfold bind at 1.
  rewrite (exists_dataset_eq w name Hwf), Hreg.
  unfold bind at 1. rewrite Hfield, Hp.
  unfold bind at 1. rewrite Hfield, Hdd. unfold ret at 1.
  unfold delete_dataset_cache.
  unfold bind at 1. unfold bind at 1. rewrite Hcat.
  unfold bind at 1. unfold lift at 1. cbn [snd].
  rewrite (getitem_found _ _ _ Hr).
  unfold bind at 1. unfold lift at 1. rewrite Hp.
  unfold bind at 1. unfold catch at 1. unfold os_remove_path at 1.
  destruct (os_remove (disk w) p) as [fs|e].
  - destruct delete_data; reflexivity.
  - destruct e; try reflexivity.
    destruct (negb (errno =? ENOENT)%Z); [reflexivity|].
    unfold ret at 1. destruct delete_data; reflexivity.
Qed.

(** A cache path that is a directory stops [delete_dataset]: [os.remove]
    refuses it, the error is not the one that is let pass, and the
    record, the document and the disk stay as they were. *)
Theorem delete_cache_directory_raises w name c r p dd delete_data :
  wf_registry (data (self w)) = true ->
  get_category name w = (Ok (Some c), w) ->
  record_of (data (self w)) c name = Some r ->
  getitem r "cache_dir" = Ok (PStr p) ->
  getitem r "data_dir" = Ok dd ->
  dict_get p (disk w) = Some Dir ->
  delete_dataset name delete_data w = (Raise (OSError EISDIR), w).
Proof.
  intros Hwf Hgc Hrec Hp Hdd Hdir.
  rewrite (delete_dataset_start w name c r p dd delete_data Hwf Hgc Hrec Hp Hdd).
  now rewrite (DiskFacts.os_remove_dir _ _ Hdir).
Qed.
End DeleteMore.

Lemma delete_cache_directory_raises_witness :
  delete_dataset (codec := Json.codec) "m" true MoreSamples.cache_is_dir
  = (Raise (OSError EISDIR), MoreSamples.cache_is_dir).
Proof.
  exact (delete_cache_directory_raises (codec := Json.codec)
           MoreSamples.cache_is_dir "m" "cat" MoreSamples.record_m
           "/c" (PStr "/d") true eq_refl eq_refl eq_refl eq_refl eq_refl
           eq_refl).
Defined.

Lemma delete_persists_witness :
  read_file (disk Samples.removed) (cache_fname (self Samples.removed))
  = Ok (Json.dump (data (self Samples.removed))).
Proof.
  apply (proj2 (delete_persists (codec := Json.codec) "m" Samples.one
                  Samples.removed)).
  vm_compute. reflexivity.
Defined.


(** With [delete_data] set, the data path is removed last, and it is
    the path the record had before it was taken out.  When
    [delete_dataset_cache] raises, so does [delete_dataset], with
    nothing more done; when it returns, the record is gone and the
    registry file written when [os.remove] runs on the data path: a
    missing path is let pass, any other error is raised after the
    registry has changed. *)
Theorem delete_with_data {codec : JsonCodec} w name c r cd q :
  wf_registry (data (self w)) = true ->
  get_category name w = (Ok (Some c), w) ->
  record_of (data (self w)) c name = Some r ->
  getitem r "cache_dir" = Ok cd ->
  getitem r "data_dir" = Ok (PStr q) ->
  delete_dataset name true w
  = match delete_dataset_cache name w with
    | (Ok _, w1) =>
        match os_remove (disk w1) q with
        | Ok fs => (Ok tt, with_disk w1 fs)
        | Raise (OSError errno) =>
            if Z.eqb errno ENOENT then (Ok tt, w1)
            else (Raise (OSError errno), w1)
        | Raise e => (Raise e, w1)
        end
    | (Raise e, w1) => (Raise e, w1)
    end.
Proof.
  intros Hwf Hgc Hrec Hcd Hq.
  pose proof (registered_of_record _ _ _ _ Hrec) as Hreg.
  destruct (category_of_registered w name Hwf Hreg)
    as (top & ds & c0 & m & r0 & Hdoc & Hds & _ & Hm & Hr & _ & Hgc' & Hcat).
  assert (c0 = c) as -> by congruence.
  assert (r0 = r) as ->.
  { unfold record_of, dataset_of, names_of in Hrec.
    rewrite Hdoc, Hds, Hm in Hrec. congruence. }
  assert (Hfield : forall f,
             get_data_from_field name f w = (getitem r f, w)).
  { intros f. unfold get_data_from_field, catch, bind, lift.
    rewrite Hcat. cbn [snd]. rewrite (getitem_found _ _ _ Hr).
    destruct (getitem r f); reflexivity. }
  unfold delete_dataset, get_dataset_storage_paths.
  unfold bind at 1. unfold bind at 1.
  rewrite (exists_dataset_eq w name Hwf), Hreg.
  unfold bind at 1. rewrite Hfield, Hcd.
  unfold bind at 1. rewrite Hfield, Hq. unfold ret at 1.
  unfold bind at 1.
  destruct (delete_dataset_cache name w) as [[[]|e] w1]; [|reflexivity].
  unfold catch, bind, lift, os_remove_path.
  change (getitem (PDict [("cache_dir", cd); ("data_dir", PStr q)]) "data_dir")
    with (Ok (PStr q)).
  cbv iota beta.
  destruct (os_remove (disk w1) q) as [fs|e]; [reflexivity|].
  destruct e as [ | | | | |errno| | | | ]; try reflexivity.
  destruct (Z.eqb errno ENOENT); reflexivity.
Qed.

Lemma delete_with_data_witness :
  fst (delete_dataset (codec := Json.codec) "m" true MoreSamples.data_is_file)
  = Ok tt
  /\ dict_get "/d"
       (disk (snd (delete_dataset (codec := Json.codec) "m" true
                                  MoreSamples.data_is_file))) = None
  /\ fst (delete_dataset (codec := Json.codec) "m" true MoreSamples.data_is_dir)
     = Raise (OSError EISDIR)
  /\ registered
       (data (self (snd (delete_dataset (codec := Json.codec) "m" true
                                        MoreSamples.data_is_dir)))) "m"
     = false.
Proof.
  rewrite (delete_with_data (codec := Json.codec) MoreSamples.data_is_file
             "m" "cat" MoreSamples.record_m (PStr "/c") "/d"
             eq_refl eq_refl eq_refl eq_refl eq_refl).
  rewrite (delete_with_data (codec := Json.codec) MoreSamples.data_is_dir
             "m" "cat" MoreSamples.record_m (PStr "/c") "/d"
             eq_refl eq_refl eq_refl eq_refl eq_refl).
  vm_compute. repeat split; reflexivity.
Defined.

(** *** Removing, then looking up *)

Lemma dict_get_pop_same {V} k (d : list (string * V)) :
  NoDup (dict_keys d) -> dict_get k (dict_pop k d) = None.
Proof.
  induction d as [|[k0 v0] d IH]; simpl; [reflexivity|].
  intros Hnd. inversion Hnd as [|? ? Hnotin Hnd']; subst.
  destruct (String.eqb_spec k k0) as [->|Hne].
  - destruct (dict_get k0 d) eqn:E; [|reflexivity].
    apply DictFacts.dict_get_in in E. elim Hnotin.
    change k0 with (fst (k0, v)). now apply in_map.
  - simpl. destruct (String.eqb_spec k k0); [contradiction | auto].
Qed.

Lemma forallb_dict_pop {V} (P : string * V -> bool) k d :
  forallb P d = true -> forallb P (dict_pop k d) = true.
Proof.
  induction d as [|[k0 v0] d IH]; simpl; [reflexivity|].
  intros H. apply andb_prop in H as [H0 Hd].
  destruct (String.eqb k k0); simpl; [assumption|].
  now rewrite H0, IH.
Qed.

(** The document after the removal of the one record of a name. *)
Lemma remove_record_absent d ds c m name :
  wf_registry d = true ->
  unique_names d ->
  dataset_of d = Some ds ->
  names_of ds c = Some m ->
  mem name (dict_keys m) = true ->
  NoDup (dict_keys m) ->
  wf_registry (remove_record d c name) = true
  /\ registered (remove_record d c name) name = false.
Proof.
  intros Hwf Huniq Hof Hm Hmem Hnd.
  destruct (dataset_of_inv _ _ Hof) as (top & -> & Hds).
  assert (Hof' : dataset_of (remove_record (PDict top) c name)
                 = Some (dict_set c (PDict (dict_pop name m)) ds)).
  { unfold remove_record. rewrite Hds, Hm. unfold dataset_of.
    now rewrite DictFacts.dict_get_set_same. }
  split.
  - unfold wf_registry in *. rewrite Hof'. rewrite Hof in Hwf.
    apply DictFacts.forallb_dict_set; [assumption|]. simpl.
    apply forallb_dict_pop.
    unfold names_of in Hm.
    destruct (dict_get c ds) as [[| | | | |m0]|] eqn:Hc; try discriminate.
    injection Hm as ->. apply DictFacts.dict_get_in in Hc.
    rewrite forallb_forall in Hwf. apply (Hwf _ Hc).
  - destruct (registered (remove_record (PDict top) c name) name) eqn:E;
      [|reflexivity].
    apply registered_iff in E. destruct E as [c0 Hc0].
    unfold in_category in Hc0. rewrite Hof' in Hc0.
    unfold in_cat, names_of in Hc0. rewrite DictFacts.dict_get_set in Hc0.
    destruct (String.eqb_spec c0 c) as [Heq|Hne].
    + rewrite DictFacts.mem_keys_get, dict_get_pop_same in Hc0 by assumption.
      discriminate.
    + elim Hne. apply (Huniq c0 c name).
      * unfold in_category. rewrite Hof. exact Hc0.
      * unfold in_category. rewrite Hof. unfold in_cat. now rewrite Hm.
Qed.

Lemma category_of_with_disk w fs name :
  wf_registry (data (self w)) = true ->
  category_of name (with_disk w fs)
  = (fst (category_of name w), with_disk w fs).
Proof.
  intros Hwf.
  destruct (wf_registry_inv _ Hwf) as (top & ds & Hdoc & Hds & _ & Hrec).
  assert (Hcats : forall c v, dict_get c ds = Some v -> exists m, v = PDict m).
  { intros c v Hv. destruct (Hrec c v Hv) as [m [-> _]]. eauto. }
  rewrite (category_of_eq (with_disk w fs) top ds Hdoc Hds Hcats).
  rewrite (category_of_eq w top ds Hdoc Hds Hcats).
  destruct (find _ _) as [c|]; [|reflexivity].
  destruct (names_of ds c); reflexivity.
Qed.

(** The second half of [delete_dataset_cache], on a world where the
    name has a record: the record is taken out of its category, then
    the document is written. *)
Lemma delete_block {codec : JsonCodec} w0 name c m r top ds :
  data (self w0) = PDict top ->
  dict_get "dataset" top = Some (PDict ds) ->
  dict_get c ds = Some (PDict m) ->
  dict_get name m = Some r ->
  category_of name w0 = (Ok (Some c, PDict m), w0) ->
  let d' := remove_record (data (self w0)) c name in
  (cv' <- category_of name ;;
   v' <- lift (pop (snd cv') name) ;;
   store_category_opt (fst cv') v' ;;
   d <- get_data ;;
   write_data_cache d None) w0
  = write_data_cache d' None (with_data w0 d').
Proof.
  intros Hdoc Hds Hm Hr Hcat d'.
  unfold bind at 1. rewrite Hcat. cbn [snd fst].
  unfold bind at 1. unfold lift at 1. unfold pop. rewrite Hr.
  unfold bind at 1. unfold store_category_opt, store_category.
  unfold bind, get_data, lift, set_data. rewrite Hdoc.
  cbn [getitem]. rewrite Hds. cbn [setitem].
  subst d'. unfold remove_record, names_of. rewrite Hdoc, Hds, Hm.
  reflexivity.
Qed.

(** The document after [delete_dataset] of a registered dataset, when
    [os.remove] on the cache path returned or raised the error that is
    let pass: the record is gone, whatever the write does. *)
Lemma delete_data_after {codec : JsonCodec} w name c r p dd :
  wf_registry (data (self w)) = true ->
  get_category name w = (Ok (Some c), w) ->
  record_of (data (self w)) c name = Some r ->
  getitem r "cache_dir" = Ok (PStr p) ->
  getitem r "data_dir" = Ok dd ->
  let_pass (os_remove (disk w) p) = true ->
  data (self (snd (delete_dataset name false w)))
  = remove_record (data (self w)) c name.
Proof.
  intros Hwf Hgc Hrec Hp Hdd Hpass.
  pose proof (registered_of_record _ _ _ _ Hrec) as Hreg.
  destruct (category_of_registered w name Hwf Hreg)
    as (top & ds & c0 & m & r0 & Hdoc & Hds & _ & Hm & Hr & _ & Hgc' & Hcat).
  assert (c0 = c) as -> by congruence.
  assert (Hafter : forall w0,
             self w0 = self w ->
             category_of name w0 = (Ok (Some c, PDict m), w0) ->
             data (self (snd
               (((cv' <- category_of name ;;
                  v' <- lift (pop (snd cv') name) ;;
                  store_category_opt (fst cv') v' ;;
                  d <- get_data ;;
                  write_data_cache d None) ;; ret tt) w0)))
             = remove_record (data (self w)) c name).
  { intros w0 Hself Hcat0. unfold bind at 1.
    assert (Hdoc0 : data (self w0) = PDict top) by now rewrite Hself.
    rewrite (delete_block w0 name c m r0 top ds Hdoc0 Hds Hm Hr Hcat0).
    cbv zeta. rewrite Hself.
    match goal with
    | |- context [write_data_cache ?d None ?w1] =>
        pose proof (write_data_cache_self d None w1) as Hs;
        destruct (write_data_cache d None w1) as [[[]|e] w2]
    end; cbn [snd] in *; unfold ret; cbn [snd]; now rewrite Hs. }
  rewrite (delete_dataset_start w name c r p dd false Hwf Hgc Hrec Hp Hdd).
  destruct (os_remove (disk w) p) as [fs|e].
  - apply Hafter; [reflexivity|].
    now rewrite (category_of_with_disk w fs name Hwf), Hcat.
  - destruct e as [ | | | | |errno| | | | ]; try discriminate.
    cbn [let_pass] in Hpass. rewrite Hpass. cbn [negb].
    now apply Hafter.
Qed.

(** Remove, then look up.  In a registry document where no name sits
    under two categories, after [delete_dataset] of a registered dataset
    on whose cache path [os.remove] returned or raised the error that
    is let pass, the name has no record, whether or not the registry
    file could be written: [exists_dataset] answers [False],
    [get_dataset_data] raises its exception, and a second
    [delete_dataset] raises [KeyError]. *)
Theorem delete_then_absent {codec : JsonCodec} w name c r p dd ds m :
  wf_registry (data (self w)) = true ->
  unique_names (data (self w)) ->
  get_category name w = (Ok (Some c), w) ->
  record_of (data (self w)) c name = Some r ->
  getitem r "cache_dir" = Ok (PStr p) ->
  getitem r "data_dir" = Ok dd ->
  let_pass (os_remove (disk w) p) = true ->
  dataset_of (data (self w)) = Some ds ->
  names_of ds c = Some m ->
  NoDup (dict_keys m) ->
  let w' := snd (delete_dataset name false w) in
  exists_dataset name w' = (Ok false, w')
  /\ get_dataset_data name w'
     = (Raise (Exception ("Dataset " ++ name
                            ++ " does not exist in the cache file.")), w')
  /\ delete_dataset name false w' = (Raise (KeyError None), w').
Proof.
  intros Hwf Huniq Hgc Hrec Hp Hdd Hpass Hof Hm Hnd w'.
  pose proof (delete_data_after w name c r p dd Hwf Hgc Hrec Hp Hdd Hpass)
    as Hdata.
  fold w' in Hdata.
  assert (Hmem : mem name (dict_keys m) = true).
  { rewrite (record_of_names _ _ _ _ Hof), Hm in Hrec.
    now rewrite DictFacts.mem_keys_get, Hrec. }
  destruct (remove_record_absent _ ds c m name Hwf Huniq Hof Hm Hmem Hnd)
    as [Hwf' Hreg'].
  rewrite <- Hdata in Hwf', Hreg'.
  repeat split.
  - now rewrite (exists_dataset_eq w' name Hwf'), Hreg'.
  - unfold get_dataset_data, catch, bind.
    now rewrite (category_of_unregistered w' name Hwf' Hreg').
  - now apply delete_unregistered.
Qed.

Lemma delete_then_absent_witness :
  exists_dataset "m" Samples.removed = (Ok false, Samples.removed)
  /\ get_dataset_data "m" Samples.removed
     = (Raise (Exception "Dataset m does not exist in the cache file."),
        Samples.removed)
  /\ delete_dataset (codec := Json.codec) "m" false Samples.removed
     = (Raise (KeyError None), Samples.removed).
Proof.
  assert (Huniq : unique_names (data (self Samples.one))).
  { intros c1 c2 n H1 H2.
    unfold in_category in H1, H2. cbn in H1, H2.
    apply in_cat_key in H1. apply in_cat_key in H2.
    destruct H1 as [<-|[]]. destruct H2 as [<-|[]]. reflexivity. }
  assert (Hnd : NoDup (dict_keys [("m", MoreSamples.record_m)])).
  { constructor; [intros [] | constructor]. }
  exact (delete_then_absent (codec := Json.codec) Samples.one "m" "cat"
           MoreSamples.record_m "/c" (PStr "/d")
           [("cat", PDict [("m", MoreSamples.record_m)])]
           [("m", MoreSamples.record_m)]
           eq_refl Huniq eq_refl eq_refl eq_refl eq_refl eq_refl
           eq_refl eq_refl Hnd).
Defined.


(** *** The merge of [add_data] *)

Lemma dict_update_get_absent {V} k (old new : list (string * V)) :
  dict_get k new = None ->
  dict_get k (dict_update old new) = dict_get k old.
Proof.
  revert old. induction new as [|[k0 v0] new IH]; intros old H;
    [reflexivity|].
  simpl in H. destruct (String.eqb_spec k k0) as [->|Hne]; [discriminate|].
  unfold dict_update in *. simpl. rewrite IH by assumption.
  rewrite DictFacts.dict_get_set.
  destruct (String.eqb_spec k k0); [contradiction | reflexivity].
Qed.

Lemma dict_update_get_new {V} k v (old new : list (string * V)) :
  NoDup (dict_keys new) ->
  dict_get k new = Some v ->
  dict_get k (dict_update old new) = Some v.
Proof.
  revert old. induction new as [|[k0 v0] new IH]; intros old Hnd H;
    [discriminate|].
  simpl in H. inversion Hnd as [|? ? Hnotin Hnd']; subst.
  unfold dict_update in *. simpl.
  destruct (String.eqb_spec k k0) as [->|Hne].
  - injection H as ->.
    assert (Hnone : dict_get k0 new = None).
    { destruct (dict_get k0 new) as [x|] eqn:E; [|reflexivity].
      apply DictFacts.dict_get_in in E. elim Hnotin.
      change k0 with (fst (k0, x)). now apply in_map. }
    pose proof (dict_update_get_absent k0 (dict_set k0 v old) new Hnone) as Ha.
    unfold dict_update in Ha. rewrite Ha.
    apply DictFacts.dict_get_set_same.
  - now apply IH.
Qed.

(** The merge of [add_data], on the key it reads.  When the stored
    record and the new one both carry a dictionary under
    ["cached_files"], [add_data] returns and stores the new record with
    the merged dictionary: every task of the new dictionary has the new
    path, every other task keeps the old one. *)
Theorem add_data_merges w category name r old nl new :
  wf_registry (data (self w)) = true ->
  record_of (data (self w)) category name = Some r ->
  getitem r "cached_files" = Ok (PDict old) ->
  dict_get "cached_files" nl = Some (PDict new) ->
  NoDup (dict_keys new) ->
  let merged := dict_update old new in
  add_data category name (PDict nl) w
  = (Ok tt,
     with_data w
       (insert_record (data (self w)) category name
          (PDict (dict_set "cached_files" (PDict merged) nl))))
  /\ (forall task path, dict_get task new = Some path ->
                        dict_get task merged = Some path)
  /\ (forall task, dict_get task new = None ->
                   dict_get task merged = dict_get task old).
Proof.
  intros Hwf Hrec Hold Hnew Hnd merged. split; [|split].
  - destruct (wf_registry_inv _ Hwf) as (top & ds & Hdoc & Hds & Hof & _).
    rewrite (record_of_names _ _ _ _ Hof) in Hrec.
    destruct (names_of ds category) as [m|] eqn:Hm; [|discriminate].
    unfold names_of in Hm.
    destruct (dict_get category ds) as [[| | | | |m0]|] eqn:Hc;
      try discriminate.
    injection Hm as ->.
    destruct r as [| | | | |rl]; try discriminate.
    unfold add_data, bind, get_data, lift. rewrite Hdoc. simpl.
    rewrite Hds. simpl.
    assert (Hcat : mem category (dict_keys ds) = true)
      by (rewrite DictFacts.mem_keys_get, Hc; reflexivity).
    assert (Hname : mem name (dict_keys m) = true)
      by (rewrite DictFacts.mem_keys_get, Hrec; reflexivity).
    rewrite Hcat, Hc. simpl. rewrite Hname, Hrec. simpl in Hold.
    destruct (dict_get "cached_files" rl) as [cf|] eqn:Hcf; [|discriminate].
    injection Hold as ->. simpl. rewrite Hnew. simpl.
    unfold store_category, bind, get_data, lift, set_data.
    rewrite Hdoc. simpl. rewrite Hds. simpl. rewrite Hcf. simpl.
    rewrite !DictFacts.dict_get_set_same. simpl.
    rewrite !DictFacts.dict_get_set_same. simpl.
    unfold names_of. rewrite ?Hds, ?Hc.
    now rewrite !DictFacts.dict_set_set.
  - intros task path H. now apply dict_update_get_new.
  - intros task H. now apply dict_update_get_absent.
Qed.

Lemma add_data_merges_witness :
  exists d',
    add_data "cat" "m"
             (PDict [("cached_files", PDict [("test", PStr "/c/test.bin")])])
             MoreSamples.with_cached_files
    = (Ok tt, with_data MoreSamples.with_cached_files d')
    /\ record_of d' "cat" "m"
       = Some (PDict [("cached_files",
                       PDict [("train", PStr "/c/train.bin");
                              ("test", PStr "/c/test.bin")])]).
Proof.
  assert (Hnd : NoDup (dict_keys [("test", PStr "/c/test.bin")]))
    by (constructor; [intros [] | constructor]).
  destruct (add_data_merges MoreSamples.with_cached_files "cat" "m"
              (PDict [("data_dir", PStr "/d"); ("cache_dir", PStr "/c");
                      ("cache_files", PDict [("train", PStr "/c/train.bin")]);
                      ("cached_files", PDict [("train", PStr "/c/train.bin")])])
              [("train", PStr "/c/train.bin")]
              [("cached_files", PDict [("test", PStr "/c/test.bin")])]
              [("test", PStr "/c/test.bin")]
              eq_refl eq_refl eq_refl eq_refl Hnd) as (Hrun & _ & _).
  eexists. split; [exact Hrun | reflexivity].
Defined.

End CacheExtra.

(** ** The dataset loader: further properties *)

Module LoaderExtra.
Import Loader LoaderFacts.
Local Open Scope string_scope.

(** The path of a field, as [get] and [size] build it and as [object]
    builds it. *)
Lemma field_path_eq (root set_name field_name : string) :
  root ++ set_name ++ "/" ++ field_name
  = (root ++ set_name ++ "/") ++ field_name.
Proof. now rewrite !PathFacts.append_assoc. Qed.

(** *** [object_field_id] *)

Lemma list_index_some f fields i :
  list_index f fields = Some i ->
  nth_error fields i = Some f
  /\ forall j, (j < i)%nat -> nth_error fields j <> Some f.
Proof.
  revert i. induction fields as [|g fields IH]; intros i; simpl;
    [discriminate|].
  destruct (String.eqb_spec g f) as [->|Hne].
  - intros [= <-]. split; [reflexivity | intros j Hj; lia].
  - destruct (list_index f fields) as [i'|]; [|discriminate].
    intros [= <-]. destruct (IH i' eq_refl) as [Hnth Hfirst].
    split; [exact Hnth|].
    intros [|j] Hj; simpl; [congruence | apply Hfirst; lia].
Qed.

Lemma list_index_none f fields :
  list_index f fields = None -> ~ In f fields.
Proof.
  induction fields as [|g fields IH]; simpl; [tauto|].
  destruct (String.eqb_spec g f) as [->|Hne]; [discriminate|].
  destruct (list_index f fields); [discriminate|].
  intros _ [H|H]; [contradiction | now apply IH].
Qed.

(** On a loader that has its field list, [object_field_id] returns the
    first position of the name in the list, and raises the
    [ValueError] that names the field when the list does not have it. *)
Theorem object_field_id_spec ld fields f :
  object_fields ld = Some fields ->
  (In f fields ->
   exists i,
     object_field_id ld f = Ok i
     /\ nth_error fields i = Some f
     /\ forall j, (j < i)%nat -> nth_error fields j <> Some f)
  /\ (~ In f fields ->
      object_field_id ld f
      = Raise (ValueError ("Field name '" ++ f ++ "' does not exist."))).
Proof.
  intros Hf. unfold object_field_id, get_object_fields. rewrite Hf.
  cbn [rbind]. split; intros Hin.
  - destruct (list_index f fields) as [i|] eqn:E.
    + exists i. split; [reflexivity | now apply list_index_some].
    + now apply list_index_none in E.
  - destruct (list_index f fields) as [i|] eqn:E; [|reflexivity].
    apply list_index_some in E as [E _]. apply nth_error_In in E.
    contradiction.
Qed.

Lemma object_field_id_spec_witness :
  (exists i,
      object_field_id Samples.loader_a "labels" = Ok i
      /\ nth_error ["filenames"; "labels"] i = Some "labels"
      /\ forall j, (j < i)%nat ->
                   nth_error ["filenames"; "labels"] j <> Some "labels")
  /\ object_field_id Samples.loader_a "boxes"
     = Raise (ValueError "Field name 'boxes' does not exist.").
Proof.
  pose proof (object_field_id_spec Samples.loader_a ["filenames"; "labels"]
                "labels" eq_refl) as [Hin _].
  pose proof (object_field_id_spec Samples.loader_a ["filenames"; "labels"]
                "boxes" eq_refl) as [_ Hout].
  split.
  - apply Hin. simpl. auto.
  - apply Hout. simpl. intros [H|[H|[]]]; discriminate H.
Defined.

(** *** [get] *)

Lemma get_none_inv ld set_name field_name a :
  get ld set_name field_name None = Ok a ->
  file_getitem ld (root_path ld ++ set_name ++ "/" ++ field_name)
  = Ok (H5Dataset a).
Proof.
  unfold get, rbind.
  destruct (file_getitem ld _) as [[ms|a0]|]; try discriminate.
  now intros [= ->].
Qed.

Lemma array_index_past_end l i :
  (length l <= i)%nat -> array_index (NArr l) (Z.of_nat i) = Raise IndexError.
Proof.
  intros H. unfold array_index, translate_index.
  destruct (Z.ltb_spec (Z.of_nat i) 0); [lia|].
  destruct (Z.ltb_spec (Z.of_nat i) (Z.of_nat (length l))); [lia|].
  now rewrite andb_false_r.
Qed.

(** [get] with an integer index is the element of the array that [get]
    without an index returns, and fails past its end. *)
Theorem get_index_of_array ld set_name field_name l i :
  get ld set_name field_name None = Ok (NArr l) ->
  (forall x, nth_error l i = Some x ->
             get ld set_name field_name (Some (IdxInt (Z.of_nat i))) = Ok x)
  /\ (nth_error l i = None ->
      exists e,
        get ld set_name field_name (Some (IdxInt (Z.of_nat i))) = Raise e).
Proof.
  intros Hall. apply get_none_inv in Hall.
  unfold get. rewrite Hall. cbn [rbind dataset_index dataset_at]. split.
  - intros x Hx. now apply array_index_nat.
  - intros Hnone. apply nth_error_None in Hnone.
    rewrite array_index_past_end by assumption. eauto.
Qed.

Lemma get_index_of_array_witness :
  get Samples.loader_a "train" "filenames" (Some (IdxInt 1)) = Ok (NStr "b.png")
  /\ exists e,
       get Samples.loader_a "train" "filenames" (Some (IdxInt 3)) = Raise e.
Proof.
  pose proof (get_index_of_array Samples.loader_a "train" "filenames"
                [NStr "a.png"; NStr "b.png"; NStr "c.png"] 1 eq_refl)
    as [Hin _].
  pose proof (get_index_of_array Samples.loader_a "train" "filenames"
                [NStr "a.png"; NStr "b.png"; NStr "c.png"] 3 eq_refl)
    as [_ Hout].
  split; [exact (Hin _ eq_refl) | exact (Hout eq_refl)].
Defined.





(** *** [object] *)

(** Without [is_value], [object] is [get] on the field ["object_ids"]
    with the same index. *)
Theorem object_raw_is_get ld set_name idx :
  object ld set_name idx false
  = rbind (get ld set_name "object_ids" (Some idx)) (fun a => Ok (LArr a)).
Proof.
  unfold object, get. cbn [negb]. rewrite field_path_eq.
  unfold rbind. destruct (file_getitem ld _) as [node|]; [|reflexivity].
  destruct (dataset_index node idx); reflexivity.
Qed.

Lemma spec_tuple_nth ld dir_path fields :
  forall ids t,
    spec_tuple ld dir_path fields ids = Some t ->
    ids_in_range ld dir_path fields ids = true ->
    forall k f,
      nth_error fields k = Some f ->
      exists pos col x,
        nth_error ids k = Some (NInt pos)
        /\ column ld dir_path f = Some col
        /\ (0 <= pos < Z.of_nat (length col))%Z
        /\ nth_error col (Z.to_nat pos) = Some x
        /\ nth_error t k = Some x.
Proof.
  induction fields as [|g fs IH]; intros ids t Hs Hv k f Hk.
  - destruct k; discriminate.
  - simpl in Hs, Hv. destruct ids as [|[pos| |] rest]; try discriminate.
    destruct (column ld dir_path g) as [col|] eqn:Hcol; [|discriminate].
    destruct (nth_error col (Z.to_nat pos)) as [x|] eqn:Hx; [|discriminate].
    destruct (spec_tuple ld dir_path fs rest) as [t'|] eqn:Ht; [|discriminate].
    injection Hs as <-.
    apply andb_prop in Hv as [Hv Hrest]. apply andb_prop in Hv as [Hlo Hhi].
    apply Z.leb_le in Hlo. apply Z.ltb_lt in Hhi.
    destruct k as [|k]; simpl in Hk.
    + injection Hk as <-. exists pos, col, x. repeat split; auto.
    + destruct (IH rest t' Ht Hrest k f Hk)
        as (pos' & col' & x' & H1 & H2 & H3 & H4 & H5).
      exists pos', col', x'. repeat split; auto; apply H3.
Qed.

(** With [is_value], [object] groups what [get] returns field by field,
    as its documentation says: on a valid row, the value at the position
    of a field name is [get] on that field at the id the row has at
    that position.  An integer index is treated as the list that holds
    it. *)
Theorem object_values_are_gets ld set_name fields rows i ids :
  let dir_path := root_path ld ++ set_name ++ "/" in
  object_fields ld = Some fields ->
  column ld dir_path "object_ids" = Some rows ->
  nth_error rows i = Some (NArr ids) ->
  ids_in_range ld dir_path fields ids = true ->
  exists t,
    object ld set_name (IdxInt (Z.of_nat i)) true = Ok (LList (map LArr t))
    /\ object ld set_name (IdxList [Z.of_nat i]) true = Ok (LList (map LArr t))
    /\ length t = length fields
    /\ forall k f,
         nth_error fields k = Some f ->
         exists pos x,
           nth_error ids k = Some (NInt pos)
           /\ get ld set_name f (Some (IdxInt pos)) = Ok x
           /\ nth_error t k = Some x.
Proof.
  intros dir_path Hf Hcol Hi Hv.
  destruct (object_output_valid ld dir_path fields rows i ids []
              Hcol Hi Hv) as (t & Hs & Hlen & Hrun).
  assert (Hone : object ld set_name (IdxList [Z.of_nat i]) true
                 = Ok (LList (map LArr t))).
  { unfold object, get_object_fields. rewrite Hf. simpl negb. cbv iota.
    unfold rbind at 1. fold dir_path. rewrite Hrun. reflexivity. }
  exists t. repeat split; auto.
  intros k f Hk.
  destruct (spec_tuple_nth ld dir_path fields ids t Hs Hv k f Hk)
    as (pos & col & x & Hpos & Hc & Hrange & Hx & Ht).
  exists pos, x. repeat split; auto.
  unfold get. rewrite field_path_eq. fold dir_path.
  rewrite (column_getitem _ _ _ _ Hc).
  cbn [rbind dataset_index dataset_at]. unfold array_index.
  now rewrite translate_index_range, Hx.
Qed.

Lemma object_values_are_gets_witness :
  exists t,
    object Samples.loader_a "train" (IdxInt 2) true = Ok (LList (map LArr t))
    /\ object Samples.loader_a "train" (IdxList [2%Z]) true
       = Ok (LList (map LArr t))
    /\ length t = 2%nat
    /\ forall k f,
         nth_error ["filenames"; "labels"] k = Some f ->
         exists pos x,
           nth_error [NInt 2; NInt 1] k = Some (NInt pos)
           /\ get Samples.loader_a "train" f (Some (IdxInt pos)) = Ok x
           /\ nth_error t k = Some x.
Proof.
  exact (object_values_are_gets Samples.loader_a "train"
           ["filenames"; "labels"]
           [NArr [NInt 0; NInt 1]; NArr [NInt 1; NInt 0]; NArr [NInt 2; NInt 1]]
           2 [NInt 2; NInt 1] eq_refl eq_refl eq_refl eq_refl).
Defined.

(** *** [size] *)

(** [size] of a set, without a field name, is the number of rows of
    ["object_ids"]: [object] without [is_value] returns a row for every
    index below it and fails for every index from it on. *)
Theorem size_bounds_object ld set_name n :
  size ld set_name None false = Ok (Rows n) ->
  exists rows,
    get ld set_name "object_ids" None = Ok (NArr rows)
    /\ n = Z.of_nat (length rows)
    /\ forall i,
         ((i < length rows)%nat ->
          exists row,
            nth_error rows i = Some row
            /\ object ld set_name (IdxInt (Z.of_nat i)) false = Ok (LArr row))
         /\ ((length rows <= i)%nat ->
             exists e,
               object ld set_name (IdxInt (Z.of_nat i)) false = Raise e).
Proof.
  unfold size. unfold rbind at 1.
  destruct (file_getitem ld (root_path ld ++ set_name ++ "/" ++ "object_ids"))
    as [[ms|a]|] eqn:Hnode; try discriminate.
  cbn [rbind]. destruct a as [z|t|rows]; try discriminate.
  cbn [shape]. intros [= <-].
  assert (Hget : get ld set_name "object_ids" None = Ok (NArr rows)).
  { unfold get. now rewrite Hnode. }
  exists rows. split; [exact Hget|]. split; [reflexivity|].
  intros i.
  assert (Hobj : object ld set_name (IdxInt (Z.of_nat i)) false
                 = rbind (array_index (NArr rows) (Z.of_nat i))
                         (fun a => Ok (LArr a))).
  { unfold object. cbn [negb]. rewrite <- field_path_eq, Hnode.
    reflexivity. }
  rewrite Hobj. split.
  - intros Hlt. destruct (nth_error rows i) as [row|] eqn:E;
      [|apply nth_error_None in E; lia].
    exists row. split; [reflexivity|].
    now rewrite (array_index_nat _ _ _ E).
  - intros Hge. rewrite array_index_past_end by assumption.
    eexists. reflexivity.
Qed.

Lemma size_bounds_object_witness :
  exists rows,
    get Samples.loader_a "train" "object_ids" None = Ok (NArr rows)
    /\ 3%Z = Z.of_nat (length rows)
    /\ forall i,
         ((i < length rows)%nat ->
          exists row,
            nth_error rows i = Some row
            /\ object Samples.loader_a "train" (IdxInt (Z.of_nat i)) false
               = Ok (LArr row))
         /\ ((length rows <= i)%nat ->
             exists e,
               object Samples.loader_a "train" (IdxInt (Z.of_nat i)) false
               = Raise e).
Proof.
  exact (size_bounds_object Samples.loader_a "train" 3%Z eq_refl).
Defined.

(** *** [list] *)

Lemma split_path_aux_slash (a b cur : string) :
  split_path_aux (a ++ String "/" b) cur
  = (split_path_aux a cur ++ split_path_aux b "")%list.
Proof.
  revert cur. induction a as [|x a IH]; intros cur; simpl; [reflexivity|].
  destruct (Ascii.eqb x "/"); simpl; now rewrite IH.
Qed.

Lemma split_path_aux_plain (f cur : string) :
  no_sep f = true -> split_path_aux f cur = [cur ++ f].
Proof.
  revert cur. induction f as [|x f IH]; intros cur H; simpl.
  - now rewrite PathFacts.append_nil_r.
  - simpl in H. apply andb_prop in H as [Hx Hf].
    apply negb_true_iff in Hx. rewrite Hx, IH by assumption.
    now rewrite PathFacts.append_assoc.
Qed.

Lemma split_path_child (a f : string) :
  plain_segment f = true ->
  split_path (a ++ "/" ++ f) = (split_path a ++ [f])%list.
Proof.
  intros Hp. destruct (PathFacts.plain_segment_inv _ Hp) as (Hne & Hns & _).
  unfold split_path. change ("/" ++ f) with (String "/" f).
  rewrite split_path_aux_slash, filter_app, (split_path_aux_plain f "" Hns).
  simpl. apply String.eqb_neq in Hne. now rewrite Hne.
Qed.

Lemma h5_walk_app node l1 l2 :
  h5_walk node (l1 ++ l2)%list
  = rbind (h5_walk node l1) (fun n => h5_walk n l2).
Proof.
  revert node. induction l1 as [|seg l1 IH]; intros node; simpl;
    [reflexivity|].
  destruct node as [ms|a]; [|reflexivity].
  destruct (dict_get seg ms); [apply IH | reflexivity].
Qed.

(** Every name that [list] returns for a set is a member of the set:
    the path that [get] builds from the set and the name resolves in
    the container, and [get] without an index returns the value of
    that member. *)
Theorem list_names_resolve ld set_name names f :
  list_ ld set_name = Ok names ->
  In f names ->
  plain_segment f = true ->
  exists node,
    file_getitem ld (root_path ld ++ set_name ++ "/" ++ f) = Ok node
    /\ get ld set_name f None = value node.
Proof.
  intros Hlist Hin Hp. unfold list_, rbind in Hlist.
  destruct (file_getitem ld (root_path ld ++ set_name))
    as [[ms|a]|] eqn:Hset; try discriminate.
  injection Hlist as <-.
  destruct (DictFacts.in_keys_get f ms Hin) as [node Hnode].
  assert (Hres : file_getitem ld (root_path ld ++ set_name ++ "/" ++ f)
                 = Ok node).
  { unfold file_getitem in *.
    rewrite <- PathFacts.append_assoc, split_path_child by assumption.
    rewrite h5_walk_app, Hset. simpl. now rewrite Hnode. }
  exists node. split; [exact Hres|].
  unfold get. now rewrite Hres.
Qed.

Lemma list_names_resolve_witness :
  exists node,
    file_getitem Samples.loader_a ("default/" ++ "train" ++ "/" ++ "labels")
    = Ok node
    /\ get Samples.loader_a "train" "labels" None = value node.
Proof.
  apply (list_names_resolve Samples.loader_a "train"
           ["object_fields"; "object_ids"; "filenames"; "labels"] "labels").
  - reflexivity.
  - simpl. auto.
  - reflexivity.
Defined.

End LoaderExtra.
